(** * Scenario-generation pipeline of the Jira test generator

    A shallow embedding of the generation-resilience core found in
    [app/clients/enhanced_ai_client.py] and
    [app/clients/ai_service_manager.py], followed by the properties the
    specification states about it.

    Modelling conventions.
    - Python [str] is [string]; the character model is ASCII (case
      mapping, digits and white space are those of the ASCII range, any
      other character is an opaque symbol).
    - Values that come out of [json.loads] (candidates, stories, scenario
      dicts) are [json]; a Python dict is an association list read with
      [dict_get], the first binding of a key being the live one.
    - Code that may raise runs in the [result] monad; [try/except] is
      [try_except] (every [Exception]) or [try_except_json]
      ([json.JSONDecodeError] only).
    - The mutable attributes of [EnhancedAIClient] ([request_counts],
      [last_reset_time], [scenario_cache]) are threaded explicitly as a
      [client_state]; the clock ([time.time()]) is an argument, a
      rational number of seconds.
    - The Python libraries [json], [re], [hashlib], the built-in [str()]
      and the network are not part of the repository: they are the fields
      of [pylib] and [oracle], and every theorem is stated for all of
      them.
    - What the specification says about cleaning, similarity, rank and
      the template records is written out a second time in [Wording],
      without the model; the theorems on the validator, the
      deduplication and the bounder state that the code computes what
      [Wording] describes. *)

From Stdlib Require Import ZArith QArith Lia Bool List Ascii String Permutation Sorted.
From stdpp Require Import base option list gmap strings pretty.

Local Open Scope string_scope.
Local Open Scope list_scope.
Set Warnings "-register-all".
Set Default Proof Using "Type".

(** ** Python strings *)

Module PyStr.

(** [str.isspace] on one ASCII character: TAB..CR, FS..US and SPACE. The
    same class is what [\s] matches. *)
Definition isspace (c : ascii) : bool :=
  let n := nat_of_ascii c in
  (((9 <=? n) && (n <=? 13)) || ((28 <=? n) && (n <=? 32)))%nat.

(** [str.isdigit] on one ASCII character; also the class [\d]. *)
Definition isdigit (c : ascii) : bool :=
  let n := nat_of_ascii c in ((48 <=? n) && (n <=? 57))%nat.

Definition isupper (c : ascii) : bool :=
  let n := nat_of_ascii c in ((65 <=? n) && (n <=? 90))%nat.

Definition islower (c : ascii) : bool :=
  let n := nat_of_ascii c in ((97 <=? n) && (n <=? 122))%nat.

Definition lower_char (c : ascii) : ascii :=
  if isupper c then ascii_of_nat (nat_of_ascii c + 32) else c.

Definition upper_char (c : ascii) : ascii :=
  if islower c then ascii_of_nat (nat_of_ascii c - 32) else c.

Fixpoint str_map (f : ascii -> ascii) (s : string) : string :=
  match s with
  | EmptyString => EmptyString
  | String c s' => String (f c) (str_map f s')
  end.

(** [s.lower()] *)
Definition lower (s : string) : string := str_map lower_char s.

(** Drop the longest prefix of characters in class [p]. *)
Fixpoint lstrip_by (p : ascii -> bool) (s : string) : string :=
  match s with
  | EmptyString => EmptyString
  | String c s' => if p c then lstrip_by p s' else s
  end.

(** Drop the longest suffix of characters in class [p]. *)
Fixpoint rstrip_by (p : ascii -> bool) (s : string) : string :=
  match s with
  | EmptyString => EmptyString
  | String c s' =>
      match rstrip_by p s' with
      | EmptyString => if p c then EmptyString else String c EmptyString
      | r => String c r
      end
  end.

(** [s.strip()] *)
Definition strip (s : string) : string :=
  rstrip_by isspace (lstrip_by isspace s).

(** Keep the characters satisfying [keep]. *)
Fixpoint str_filter (keep : ascii -> bool) (s : string) : string :=
  match s with
  | EmptyString => EmptyString
  | String c s' => if keep c then String c (str_filter keep s') else str_filter keep s'
  end.

(** [s[:n]] for a non-negative [n] *)
Fixpoint str_take (n : nat) (s : string) : string :=
  match n, s with
  | S n', String c s' => String c (str_take n' s')
  | _, _ => EmptyString
  end.

(** [s[n:]] for a non-negative [n] *)
Fixpoint str_drop (n : nat) (s : string) : string :=
  match n, s with
  | S n', String _ s' => str_drop n' s'
  | _, _ => s
  end.

(** [s.startswith(p)] *)
Definition startswith (s p : string) : bool := String.prefix p s.

(** [s.startswith((p1, p2, ...))] and [any(s.startswith(p) for p in ps)] *)
Definition startswith_any (s : string) (ps : list string) : bool :=
  existsb (startswith s) ps.

(** [sub in s] *)
Fixpoint contains (s sub : string) : bool :=
  match s with
  | EmptyString => String.eqb sub EmptyString
  | String _ s' => String.prefix sub s || contains s' sub
  end.

(** [s.split(sep)] for a one-character separator: never the empty list. *)
Fixpoint split_on (sep : ascii) (s : string) : list string :=
  match s with
  | EmptyString => [EmptyString]
  | String c s' =>
      if Ascii.eqb c sep then EmptyString :: split_on sep s'
      else match split_on sep s' with
           | w :: ws => String c w :: ws
           | [] => [String c EmptyString]
           end
  end.

(** Does a token end right before [s]? *)
Definition split_ws_head (s : string) : bool :=
  match s with
  | EmptyString => true
  | String c _ => isspace c
  end.

(** [s.split()]: the maximal runs of non-space characters. *)
Fixpoint split_ws (s : string) : list string :=
  match s with
  | EmptyString => []
  | String c s' =>
      if isspace c then split_ws s'
      else match split_ws_head s' with
           | true => String c EmptyString :: split_ws s'
           | false =>
               match split_ws s' with
               | w :: ws => String c w :: ws
               | [] => [String c EmptyString]
               end
           end
  end.

(** [s[0].upper() + s[1:] if s else s] *)
Definition capitalize_first (s : string) : string :=
  match s with
  | EmptyString => EmptyString
  | String c s' => String (upper_char c) s'
  end.

(** [s.count(c)] for a one-character needle *)
Fixpoint count_char (c : ascii) (s : string) : nat :=
  match s with
  | EmptyString => 0
  | String c' s' => (if Ascii.eqb c c' then 1 else 0) + count_char c s'
  end.

(** The double-quote character, for patterns that contain it. *)
Definition dq : string := String (ascii_of_nat 34) EmptyString.

(** The class [[\*\+\-]] of the formatting markers. *)
Definition is_marker (c : ascii) : bool :=
  let n := nat_of_ascii c in ((n =? 42) || (n =? 43) || (n =? 45))%nat.

(** The class [[\d\.\s]] of a leading enumeration. *)
Definition is_enum_char (c : ascii) : bool :=
  isdigit c || (nat_of_ascii c =? 46)%nat || isspace c.

(** [re.sub(r'[\*\+\-]', '', s)] and [re.sub(r'[\*\+\-]+', '', s)]: every
    marker character is removed. *)
Definition remove_markers (s : string) : string :=
  str_filter (fun c => negb (is_marker c)) s.

(** [re.sub(r'^[\d\.\s]+', '', s)] and [re.sub(r'^[\d\.\s]*', '', s)]:
    without MULTILINE the anchor is the start of the string, so the
    longest leading run of the class is removed. *)
Definition remove_leading_enum (s : string) : string :=
  lstrip_by is_enum_char s.

(** [a < b] on two strings: the order of the code points, a proper prefix
    before the strings it starts. *)
Fixpoint str_ltb (a b : string) : bool :=
  match a, b with
  | _, EmptyString => false
  | EmptyString, String _ _ => true
  | String x a', String y b' =>
      (nat_of_ascii x <? nat_of_ascii y)%nat
      || ((nat_of_ascii x =? nat_of_ascii y)%nat && str_ltb a' b')
  end.


End PyStr.

(** ** Python values, exceptions *)

Module Py.

(** What [json.loads] produces. [JNum] stands for any number: the code
    below never looks inside one. *)
Inductive json : Type :=
| JNull
| JBool (b : bool)
| JNum (n : Z)
| JStr (s : string)
| JArr (l : list json)
| JObj (d : list (string * json)).

Abbreviation dict := (list (string * json)).

(** [d[k]] when present *)
Fixpoint dict_get (d : dict) (k : string) : option json :=
  match d with
  | [] => None
  | (k', v) :: d' => if String.eqb k k' then Some v else dict_get d' k
  end.

(** [d.get(k, dflt)] *)
Definition get_default (d : dict) (k : string) (dflt : json) : json :=
  match dict_get d k with
  | Some v => v
  | None => dflt
  end.

(** [k in d] *)
Definition has_key (d : dict) (k : string) : bool :=
  match dict_get d k with
  | Some _ => true
  | None => false
  end.

(** Truth value of a Python object ([if v:]) *)
Definition truthy (v : json) : bool :=
  match v with
  | JNull => false
  | JBool b => b
  | JNum n => negb (n =? 0)%Z
  | JStr s => negb (String.eqb s EmptyString)
  | JArr l => match l with [] => false | _ => true end
  | JObj d => match d with [] => false | _ => true end
  end.

Inductive exn : Type :=
| AttributeError
| TypeError
| JSONDecodeError
| RecursionError
| NonTermination.

Inductive result (A : Type) : Type :=
| Ok (a : A)
| Raise (e : exn).

Arguments Ok {A} a.
Arguments Raise {A} e.

#[global] Instance result_ret : MRet result := fun _ a => Ok a.

#[global] Instance result_bind : MBind result :=
  fun _ _ f m => match m with Ok a => f a | Raise e => Raise e end.

(** [try: body / except Exception: handler] *)
Definition try_except {A} (body : result A) (handler : exn -> result A) : result A :=
  match body with
  | Ok a => Ok a
  | Raise e => handler e
  end.

(** [try: body / except json.JSONDecodeError: handler] *)
Definition try_except_json {A} (body : result A) (handler : result A) : result A :=
  match body with
  | Raise JSONDecodeError => handler
  | r => r
  end.

(** [v.get] exists only on a dict. *)
Definition as_dict (v : json) : result dict :=
  match v with
  | JObj d => Ok d
  | _ => Raise AttributeError
  end.

(** [v.strip()], [v.lower()], ...: a [str] method called on a value. *)
Definition as_str (v : json) : result string :=
  match v with
  | JStr s => Ok s
  | _ => Raise AttributeError
  end.

(** [len(v)] *)
Definition py_len (v : json) : result nat :=
  match v with
  | JStr s => Ok (String.length s)
  | JArr l => Ok (length l)
  | JObj d => Ok (length d)
  | _ => Raise TypeError
  end.

(** [l[:n]] on a list, for any integer [n] (a negative [n] counts from the
    end). *)
Definition slice_to {A} (l : list A) (n : Z) : list A :=
  if (0 <=? n)%Z then take (Z.to_nat n) l
  else take (length l - Z.to_nat (- n)) l.

Inductive re_flag : Type := IGNORECASE | MULTILINE | DOTALL.

(** The Python standard library as the code uses it. [re_search] returns
    the groups of the first match, group 0 first; [re_findall] returns the
    matches (or the group, for a pattern with one group). *)
Record pylib : Type := {
  json_loads : string -> result json;
  json_dumps : option nat -> json -> string;
  re_sub : string -> string -> string -> list re_flag -> string;
  re_search : string -> string -> list re_flag -> option (list string);
  re_findall : string -> string -> list re_flag -> list string;
  md5_hexdigest : string -> string;
  py_str : json -> string
}.

(** [f"{v}"]: a [str] is inserted as it is, any other value through
    [str()]. *)
Definition format_value (L : pylib) (v : json) : string :=
  match v with
  | JStr s => s
  | _ => py_str L v
  end.

(** [m.group(i)] *)
Definition group (m : list string) (i : nat) : string := nth i m EmptyString.

(** [v[:n]] for a non-negative [n]: a slice of a [str] or of a list;
    nothing else the decoder produces can be sliced. *)
Definition py_slice (n : nat) (v : json) : result json :=
  match v with
  | JStr s => Ok (JStr (PyStr.str_take n s))
  | JArr l => Ok (JArr (take n l))
  | _ => Raise TypeError
  end.

(** What lies outside the two clients modelled here: the HTTP call to the
    Groq service ([Some content] for a 200 answer carrying a message,
    [None] for any other answer or any exception, both of which
    [_groq_ultra_fast] turns into the empty list), and three pieces of
    [CursorAIClient]: its rule-based generation with [_process_scenarios]
    ([None] when no scenario came out), [_extract_plain_text] on an
    Atlassian document, and [_determine_journey_from_domain] under the
    [try/except] of [_determine_journey]. *)
Record oracle : Type := {
  groq_post : string -> option string;
  cursor_scenarios : dict -> string -> result (option (list json));
  adf_plain_text : dict -> result string;
  determine_journey : dict -> string
}.

End Py.

(** ** config/config.py *)

Module Config.

(** What [get_ai_config()] contributes to the code below. The values come
    from the environment through [int(...)], so any integer can occur. *)
Record ai_config : Type := {
  groq_token : string;
  min_scenarios : Z;
  max_scenarios : Z
}.

(** The defaults: no token, 3 and 10. *)
Definition default_config : ai_config :=
  {| groq_token := EmptyString; min_scenarios := 3; max_scenarios := 10 |}.

End Config.

(** ** The words of the specification

    What the statements below say about text, titles, similarity, rank
    and the template records, written out on lists of characters with
    the functions of the standard library. Nothing in this module refers
    to the model of the code, which comes after it: the theorems compare
    the two. *)

Module Wording.
Import Py Config.

(** *** Text *)

Definition chars (s : string) : list ascii := list_ascii_of_string s.

Definition text (l : list ascii) : string := string_of_list_ascii l.

(** White space: TAB, LF, VT, FF, CR, FS, GS, RS, US and SPACE. *)
Definition white (c : ascii) : bool :=
  existsb (Nat.eqb (nat_of_ascii c)) [9; 10; 11; 12; 13; 28; 29; 30; 31; 32]%nat.

(** [c] is one of the characters of [class]. *)
Definition one_of (class : string) (c : ascii) : bool :=
  existsb (Ascii.eqb c) (chars class).

(** The formatting markers. *)
Definition marker (c : ascii) : bool := one_of "*+-" c.

(** What a leading enumeration is made of: digits, full stops and white
    space. *)
Definition enumeration (c : ascii) : bool :=
  one_of "0123456789" c || one_of "." c || white c.

(** The letter [c] of the alphabet [from] replaced by the letter at the
    same place in [to]; any other character is left as it is. *)
Fixpoint counterpart (from to : list ascii) (c : ascii) : ascii :=
  match from, to with
  | f :: from', t :: to' => if Ascii.eqb c f then t else counterpart from' to' c
  | _, _ => c
  end.

Definition small (c : ascii) : ascii :=
  counterpart (chars "ABCDEFGHIJKLMNOPQRSTUVWXYZ") (chars "abcdefghijklmnopqrstuvwxyz") c.

Definition capital (c : ascii) : ascii :=
  counterpart (chars "abcdefghijklmnopqrstuvwxyz") (chars "ABCDEFGHIJKLMNOPQRSTUVWXYZ") c.

Definition lowercase (s : string) : string := text (List.map small (chars s)).

(** The list without its longest prefix of characters in [p]. *)
Fixpoint drop_while (p : ascii -> bool) (l : list ascii) : list ascii :=
  match l with
  | [] => []
  | c :: l' => if p c then drop_while p l' else l
  end.

(** The text without the white space at its two ends. *)
Definition trimmed (s : string) : string :=
  text (rev (drop_while white (rev (drop_while white (chars s))))).

(** The text without any of its characters in [p]. *)
Definition without (p : ascii -> bool) (s : string) : string :=
  text (List.filter (fun c => negb (p c)) (chars s)).

(** The text without its leading run of characters in [p]. *)
Definition without_leading (p : ascii -> bool) (s : string) : string :=
  text (drop_while p (chars s)).

(** The first [n] characters of the text. *)
Definition first_chars (n : nat) (s : string) : string := text (firstn n (chars s)).

Definition begins_with (s start : string) : bool :=
  String.eqb (first_chars (String.length start) s) start.

(** The text with its first letter as a capital. *)
Definition capitalised (s : string) : string :=
  match chars s with
  | [] => s
  | c :: l => text (capital c :: l)
  end.

(** *** Records *)

(** The value a record holds under a key. *)
Definition field (d : dict) (k : string) : option json :=
  snd <$> List.find (fun entry => String.eqb (fst entry) k) d.

(** The text a record holds under a key, the empty text when it holds
    nothing there; [None] when what it holds is no text. *)
Definition text_field (d : dict) (k : string) : option string :=
  match field d k with
  | None => Some EmptyString
  | Some (JStr s) => Some s
  | Some _ => None
  end.

(** What the record holds under the key is a text, or nothing. *)
Definition has_text (d : dict) (k : string) : Prop :=
  exists s, text_field d k = Some s.


(** *** The validator *)


Definition action_verbs : list string :=
  ["verify"; "test"; "check"; "validate"; "ensure"; "confirm"].


(** Formatting markers stripped, then the leading enumeration, the white
    space at the ends going with each. *)
Definition tidied (s : string) : string :=
  trimmed (without_leading enumeration (trimmed (without marker s))).

(** The title begins with an action verb: it has one, up to case, or it
    is put in lower case after the word Verify. *)
Definition verb_led (t : string) : string :=
  if existsb (begins_with (lowercase t)) action_verbs then t
  else "Verify " +:+ lowercase t.

(** The title of the record, before it is cut. *)
Definition full_title (title : string) : string :=
  capitalised (verb_led (tidied (trimmed title))).

Definition title_limit : nat := 100.
Definition steps_limit : nat := 5.

Definition cleaned_title (title : string) : string :=
  first_chars title_limit (full_title title).


(** The steps the candidate brings: a list, a single text standing for a
    list of one, two stand-in steps for anything else, none when it has
    no steps. *)
Definition brought_steps (candidate : dict) : list json :=
  match field candidate "steps" with
  | None => []
  | Some (JStr s) => [JStr s]
  | Some (JArr l) => l
  | Some _ => [JStr "1. Execute test steps"; JStr "2. Verify expected results"]
  end.

(** A step that is a text of more than 5 characters once tidied is kept,
    under the next number; anything else is left out. *)
Definition keep_step (kept : list string) (step : json) : list string :=
  match step with
  | JStr s =>
      if (5 <? String.length (tidied s))%nat
      then kept ++ [pretty (length kept + 1)%nat +:+ ". " +:+ tidied s]
      else kept
  | _ => kept
  end.

Definition step_skeleton : list string :=
  ["1. Set up test environment";
   "2. Execute the test scenario";
   "3. Verify expected results"].

Definition cleaned_steps (candidate : dict) : list json :=
  JStr <$>
    firstn steps_limit
      match fold_left keep_step (brought_steps candidate) [] with
      | [] => step_skeleton
      | kept => kept
      end.





(** *** Similarity of titles *)

(** The words of a text: its maximal runs of characters that are no white
    space, read from left to right; [word] holds the characters of the
    word being read, last first. *)
Fixpoint words_from (word : list ascii) (l : list ascii) : list string :=
  match l with
  | [] =>
      match word with
      | [] => []
      | _ => [text (rev word)]
      end
  | c :: l' =>
      if white c then
        match word with
        | [] => words_from [] l'
        | _ => text (rev word) :: words_from [] l'
        end
      else words_from (c :: word) l'
  end.

(** The lower-cased word-token set of a text. *)
Definition word_tokens (s : string) : gset string :=
  list_to_set (words_from [] (chars (lowercase s))).

(** The Jaccard index: the size of the intersection divided by the size
    of the union, 0 when either set is empty. *)
Definition jaccard_index (a b : gset string) : Q :=
  if bool_decide (a = ∅ \/ b = ∅) then 0%Q
  else (inject_Z (Z.of_nat (size (a ∩ b))) / inject_Z (Z.of_nat (size (a ∪ b))))%Q.

(** The title of a record as a text, empty when it has none. *)
Definition title_text (r : dict) : string :=
  match field r "title" with
  | Some (JStr s) => s
  | _ => EmptyString
  end.

Definition similarity (r1 r2 : dict) : Q :=
  jaccard_index (word_tokens (title_text r1)) (word_tokens (title_text r2)).

Definition threshold : Q := 8 # 10.

(** Two records are near duplicates: their similarity exceeds the
    threshold. *)
Definition near (r1 r2 : dict) : Prop := (threshold < similarity r1 r2)%Q.

(** No two records of the list are near duplicates. *)
Definition apart_titles (records : list dict) : Prop :=
  ForallOrdPairs (fun r1 r2 => (similarity r1 r2 <= threshold)%Q) records.

(** First seen wins: the records are read in order and one is kept
    unless a record kept before it is a near duplicate of it. *)
Fixpoint first_seen (kept : list dict) (records : list dict) : list dict :=
  match records with
  | [] => kept
  | r :: rest =>
      if forallb (fun k => Qle_bool (similarity r k) threshold) kept
      then first_seen (kept ++ [r]) rest
      else first_seen kept rest
  end.

(** *** Rank and the template records *)

(** The place of a name in a list of names, from 1. *)
Fixpoint place (names : list string) (s : string) : option nat :=
  match names with
  | [] => None
  | name :: names' => if String.eqb s name then Some 1%nat else S <$> place names' s
  end.

(** The ordinal of a level: its place among the names of the levels, and
    3 for no level, an unknown one, or a value that is no text. *)
Definition ordinal (names : list string) (level : option json) : nat :=
  match level with
  | Some (JStr s) => default 3%nat (place names s)
  | _ => 3%nat
  end.

Definition priority_levels : list string :=
  ["P1 - Critical"; "P2 - High"; "P3 - Medium"; "P4 - Low"].

Definition severity_levels : list string :=
  ["S1 - Critical"; "S2 - Major"; "S3 - Moderate"; "S4 - Low"].

(** The sum of the priority and severity ordinals of a record. *)
Definition rank (r : dict) : nat :=
  (ordinal priority_levels (field r "priority")
   + ordinal severity_levels (field r "severity"))%nat.

(** A value that can be looked up in a table: no list and no dict. *)
Definition atomic (level : option json) : Prop :=
  match level with
  | Some (JArr _) => False
  | Some (JObj _) => False
  | _ => True
  end.

(** The priority and the severity of the record can be ranked. *)
Definition can_be_ranked (r : dict) : Prop :=
  atomic (field r "priority") /\ atomic (field r "severity").

(** The summary of the story as the templates print it: the text itself,
    any other value as the library prints it, a stock text when the
    story has none; [None] when the fields of the story are no dict. *)
Definition printed_summary (L : pylib) (story : dict) : option string :=
  match field story "fields" with
  | None => Some "Test Story"
  | Some (JObj fields) =>
      match field fields "summary" with
      | None => Some "Test Story"
      | Some (JStr s) => Some s
      | Some v => Some (py_str L v)
      end
  | Some _ => None
  end.

(** The three templates, taken in turn: the kind of test, what the
    description says, the severity and the priority. *)
Definition template_kind (index : Z) : string * string * string * string :=
  match ((index - 1) mod 3)%Z with
  | 0%Z => ("Functional Test", "Test core functionality of ", "S3 - Moderate", "P3 - Medium")
  | 1%Z => ("Error Handling", "Test error handling for ", "S2 - Major", "P2 - High")
  | _ => ("Boundary Test", "Test boundary conditions for ", "S3 - Moderate", "P3 - Medium")
  end.

(** The template record for a summary and an index. *)
Definition template_record (summary : string) (index : Z) : dict :=
  let '(kind, about, severity, priority) := template_kind index in
  [("title", JStr ("Verify " +:+ summary +:+ " - " +:+ kind +:+ " " +:+ pretty index));
   ("description", JStr (about +:+ summary));
   ("severity", JStr severity);
   ("priority", JStr priority);
   ("steps", JArr [JStr "1. Set up test environment";
                   JStr "2. Execute test steps";
                   JStr "3. Verify expected results";
                   JStr "4. Clean up test data"]);
   ("automation", JStr "Manual")].

(** The template records for the indices [first], [first + 1], ... *)
Fixpoint template_records (summary : string) (first : Z) (count : nat) : list dict :=
  match count with
  | O => []
  | S count' => template_record summary first :: template_records summary (first + 1) count'
  end.

(** What the bounder returns for [scenarios]: a list within the bounds;
    a short list followed by the template records for the indices after
    its length, up to the minimum; of a long list, the first [max]
    records of its stable sort by ascending rank; any other list as it
    is. *)
Definition within_bounds (L : pylib) (cfg : ai_config) (scenarios : list dict) (story : dict)
    (out : list dict) : Prop :=
  (min_scenarios cfg <= Z.of_nat (length out) <= max_scenarios cfg)%Z /\
  ((Z.of_nat (length scenarios) < min_scenarios cfg)%Z ->
     exists summary,
       printed_summary L story = Some summary /\
       out = scenarios ++
             template_records summary (Z.of_nat (length scenarios) + 1)
               (Z.to_nat (min_scenarios cfg) - length scenarios) /\
       Z.of_nat (length out) = min_scenarios cfg) /\
  ((max_scenarios cfg < Z.of_nat (length scenarios))%Z ->
     exists sorted,
       Permutation sorted scenarios /\
       StronglySorted (fun r1 r2 => (rank r1 <= rank r2)%nat) sorted /\
       (forall k, List.filter (fun r => Nat.eqb (rank r) k) sorted
                  = List.filter (fun r => Nat.eqb (rank r) k) scenarios) /\
       out = firstn (Z.to_nat (max_scenarios cfg)) sorted) /\
  ((min_scenarios cfg <= Z.of_nat (length scenarios) <= max_scenarios cfg)%Z ->
     out = scenarios).

End Wording.


(** ** app/clients/cursor_ai_client.py, the entry point *)

Module CursorAIClient.
Import PyStr Py.

Section Cursor.
Context (L : pylib) (O : oracle).

Definition _extract_plain_text (doc_content : json) : result string :=
  if negb (truthy doc_content) then Ok EmptyString
  else match doc_content with
       | JStr s => Ok s
       | JObj d => adf_plain_text O d
       | v => Ok (py_str L v)
       end.

(** The guards that open [generate_test_scenarios]; the body runs under
    [try], and [except Exception] answers the empty list as well. *)
Definition generate_test_scenarios (story : dict) : string :=
  let body : result string :=
    let story_fields := get_default story "fields" (JObj []) in
    if negb (truthy story_fields) then Ok (json_dumps L None (JArr []))
    else
      story_fields ← as_dict story_fields;
      description ← _extract_plain_text (get_default story_fields "description" (JStr EmptyString));
      description ←
        (if String.eqb description EmptyString
         then _extract_plain_text (get_default story_fields "summary" (JStr EmptyString))
         else Ok description);
      if String.eqb description EmptyString then Ok (json_dumps L None (JArr []))
      else
        processed_scenarios ← cursor_scenarios O story description;
        match processed_scenarios with
        | None => Ok (json_dumps L None (JArr []))
        | Some processed_scenarios =>
            Ok (json_dumps L (Some 2%nat) (JArr processed_scenarios))
        end in
  match body with
  | Ok s => s
  | Raise _ => json_dumps L None (JArr [])
  end.

End Cursor.

(** *** Severity and priority of a processed scenario *)

(** [table.get(k)] on a dict with string keys, written as a literal. *)
Fixpoint assoc_get {A} (table : list (string * A)) (k : string) : option A :=
  match table with
  | [] => None
  | (k', v) :: table' => if String.eqb k k' then Some v else assoc_get table' k
  end.

(** [table[key] if key in table], for a key of any type: the membership
    test hashes the key, which a list or a dict refuses; a key that is no
    string equals none of the keys. *)
Definition lookup_key {A} (table : list (string * A)) (key : json) : result (option A) :=
  match key with
  | JStr s => Ok (assoc_get table s)
  | JArr _ => Raise TypeError
  | JObj _ => Raise TypeError
  | _ => Ok None
  end.

Definition type_severity_map : list (string * string) :=
  [("error_handling", "S1 - Critical");
   ("security", "S1 - Critical");
   ("data_validation", "S2 - Major");
   ("business_rule", "S2 - Major");
   ("functional", "S2 - Major");
   ("ui", "S3 - Moderate");
   ("enhancement", "S4 - Low")].

Definition story_severity_map : list (string * string) :=
  [("Bug", "S2 - Major"); ("Security", "S1 - Critical"); ("Task", "S3 - Moderate")].

Definition _determine_severity (scenario : dict) (story_type : json) : result string :=
  type ← as_str (get_default scenario "type" (JStr "functional"));
  let base_severity := default "S3 - Moderate" (assoc_get type_severity_map (lower type)) in
  override ← lookup_key story_severity_map story_type;
  match override with
  | Some story_severity =>
      if str_ltb story_severity base_severity then Ok story_severity else Ok base_severity
  | None => Ok base_severity
  end.

Definition type_priority_map : list (string * string) :=
  [("error_handling", "P1 - Critical");
   ("security", "P1 - Critical");
   ("data_validation", "P2 - High");
   ("business_rule", "P2 - High");
   ("functional", "P2 - High");
   ("ui", "P3 - Medium");
   ("enhancement", "P4 - Low")].

Definition story_priority_map : list (string * string) :=
  [("Highest", "P1 - Critical"); ("High", "P2 - High");
   ("Medium", "P3 - Medium"); ("Low", "P4 - Low")].

Definition _determine_priority (scenario : dict) (story_priority : json) : result string :=
  type ← as_str (get_default scenario "type" (JStr "functional"));
  let base_priority := default "P3 - Medium" (assoc_get type_priority_map (lower type)) in
  override ← lookup_key story_priority_map story_priority;
  match override with
  | Some story_priority =>
      if str_ltb story_priority base_priority then Ok story_priority else Ok base_priority
  | None => Ok base_priority
  end.

Definition _priority_order (priority : string) : nat :=
  default 5%nat
    (assoc_get [("P1 - Critical", 1%nat); ("P2 - High", 2%nat);
                ("P3 - Medium", 3%nat); ("P4 - Low", 4%nat)] priority).

Definition _severity_order (severity : string) : nat :=
  default 5%nat
    (assoc_get [("S1 - Critical", 1%nat); ("S2 - Major", 2%nat);
                ("S3 - Moderate", 3%nat); ("S4 - Low", 4%nat)] severity).


(** *** _process_scenarios *)

(** [re.sub(r'\s+', ' ', s)]: every maximal run of white space becomes
    one space. *)
Fixpoint collapse_spaces (s : string) : string :=
  match s with
  | EmptyString => EmptyString
  | String c s' =>
      if isspace c then
        match s' with
        | String c' _ =>
            if isspace c' then collapse_spaces s' else String " " (collapse_spaces s')
        | EmptyString => String " " EmptyString
        end
      else String c (collapse_spaces s')
  end.

(** One alternative of [^(verify|validate|check|test)\s+]: the word, then
    at least one white space character; what follows the run is left. *)
Definition drop_verb (w s : string) : option string :=
  if startswith s w then
    let rest := str_drop (String.length w) s in
    match rest with
    | String c _ => if isspace c then Some (lstrip_by isspace rest) else None
    | EmptyString => None
    end
  else None.

(** [re.sub(r'^(verify|validate|check|test)\s+', '', s)] *)
Definition remove_leading_verb (s : string) : string :=
  match drop_verb "verify" s with
  | Some r => r
  | None =>
      match drop_verb "validate" s with
      | Some r => r
      | None =>
          match drop_verb "check" s with
          | Some r => r
          | None =>
              match drop_verb "test" s with
              | Some r => r
              | None => s
              end
          end
      end
  end.

(** The dict literals of [_process_scenarios], with their fixed keys; the
    two keys added on condition are options. *)
Record ticket_info : Type := {
  ticket_key : json;
  ticket_summary : json;
  ticket_type : json;
  ticket_priority : json
}.

Record processed_scenario : Type := {
  p_title : string;
  p_description : string;
  p_type : json;
  p_severity : string;
  p_priority : string;
  p_automation : json;
  p_assignee : json;
  p_ticket_info : ticket_info;
  p_journey : option json;
  p_automation_status : option json
}.

(** The three locals the loop updates. *)
Record loop_state : Type := {
  processed : list processed_scenario;
  seen_titles : gset string;
  seen_descriptions : gset string
}.

(** The key of the final sort, a tuple; tuples compare position by
    position. *)
Definition sort_key (x : processed_scenario) : nat * nat :=
  (_priority_order (p_priority x), _severity_order (p_severity x)).

Definition key_ltb (a b : nat * nat) : bool :=
  (a.1 <? b.1)%nat || ((a.1 =? b.1)%nat && (a.2 <? b.2)%nat).

(** [list.sort] is stable: an element goes before the first one whose key
    is not smaller. *)
Fixpoint insert_by_key (x : processed_scenario) (l : list processed_scenario)
  : list processed_scenario :=
  match l with
  | [] => [x]
  | y :: l' =>
      if key_ltb (sort_key y) (sort_key x) then y :: insert_by_key x l' else x :: y :: l'
  end.

Fixpoint sort_by_key (l : list processed_scenario) : list processed_scenario :=
  match l with
  | [] => []
  | x :: l' => insert_by_key x (sort_by_key l')
  end.

(** The body of [for scenario in scenarios], which runs under a [try]
    whose handler is [continue]. An exception raised by the two
    [_determine] calls comes after the title and the description were
    added to the seen sets. *)
Definition process_one (story : dict) (story_fields : dict) (creator story_type story_priority : json)
    (st : loop_state) (scenario : json) : loop_state :=
  match scenario with
  | JObj scenario =>
      if negb (truthy (get_default scenario "title" JNull))
         || negb (truthy (get_default scenario "description" JNull))
      then st
      else
        match get_default scenario "title" JNull, get_default scenario "description" JNull with
        | JStr title, JStr description =>
            let title := strip (collapse_spaces title) in
            let description := strip (collapse_spaces description) in
            let title_normalized := remove_leading_verb (lower title) in
            let description_normalized := lower description in
            if bool_decide (title_normalized ∈ seen_titles st)
               || bool_decide (description_normalized ∈ seen_descriptions st)
            then st
            else
              let st :=
                {| processed := processed st;
                   seen_titles := {[ title_normalized ]} ∪ seen_titles st;
                   seen_descriptions := {[ description_normalized ]} ∪ seen_descriptions st |} in
              match (severity ← _determine_severity scenario story_type;
                     priority ← _determine_priority scenario story_priority;
                     Ok (severity, priority)) with
              | Ok (severity, priority) =>
                  let processed_scenario :=
                    {| p_title := title;
                       p_description := description;
                       p_type := get_default scenario "type" (JStr "functional");
                       p_severity := severity;
                       p_priority := priority;
                       p_automation := get_default scenario "automation" (JStr "Manual");
                       p_assignee := creator;
                       p_ticket_info :=
                         {| ticket_key := get_default story "key" (JStr EmptyString);
                            ticket_summary := get_default story_fields "summary" (JStr EmptyString);
                            ticket_type := story_type;
                            ticket_priority := story_priority |};
                       p_journey := dict_get scenario "journey";
                       p_automation_status := dict_get scenario "automation_status" |} in
                  {| processed := processed st ++ [processed_scenario];
                     seen_titles := seen_titles st;
                     seen_descriptions := seen_descriptions st |}
              | Raise _ => st
              end
        | _, _ => st
        end
  | _ => st
  end.

(** Any exception outside the loop body is caught by the outer handler,
    which returns the empty list. *)
Definition _process_scenarios (scenarios story : json) : list processed_scenario :=
  match scenarios, story with
  | JArr (s :: ss), JObj (b :: bs) =>
      let story := b :: bs in
      let story_fields := get_default story "fields" (JObj []) in
      let context : result (dict * json * json * json) :=
        creator ←
          (if truthy story_fields then
             fields ← as_dict story_fields;
             creator ← as_dict (get_default fields "creator" (JObj []));
             Ok (get_default creator "name" JNull)
           else Ok JNull);
        fields ← as_dict story_fields;
        issuetype ← as_dict (get_default fields "issuetype" (JObj []));
        let story_type := get_default issuetype "name" (JStr EmptyString) in
        priority ← as_dict (get_default fields "priority" (JObj []));
        let story_priority := get_default priority "name" (JStr EmptyString) in
        Ok (fields, creator, story_type, story_priority) in
      match context with
      | Ok (fields, creator, story_type, story_priority) =>
          let st :=
            fold_left (process_one story fields creator story_type story_priority)
                      (s :: ss)
                      {| processed := []; seen_titles := ∅; seen_descriptions := ∅ |} in
          sort_by_key (processed st)
      | Raise _ => []
      end
  | _, _ => []
  end.


End CursorAIClient.

(** ** app/clients/enhanced_ai_client.py *)

Module EnhancedAIClient.
Import PyStr Py Config.

(** *** Configuration and state *)

(** An entry of [self.llm_services], with the two keys the code below
    reads. *)
Record service_config : Type := {
  enabled : bool;
  rate_limit : option nat
}.

(** [self.llm_services]; [ollama_local] carries no [rate_limit]. *)
Definition llm_services : gmap string service_config :=
  {[ "huggingface" := {| enabled := false; rate_limit := Some 1000 |};
     "ollama_local" := {| enabled := true; rate_limit := None |};
     "groq" := {| enabled := true; rate_limit := Some 100 |} ]}.

Record client_state : Type := {
  cache_enabled : bool;
  scenario_cache : gmap string string;
  request_counts : gmap string nat;
  last_reset_time : Q
}.

(** [__init__]: [self.config.get('cache_scenarios', True)] reads a key
    that [get_ai_config()] never sets, so caching starts enabled. *)
Definition init (now : Q) : client_state :=
  {| cache_enabled := true;
     scenario_cache := ∅;
     request_counts := ∅;
     last_reset_time := now |}.

Definition set_request_counts (st : client_state) (c : gmap string nat) (t : Q) : client_state :=
  {| cache_enabled := cache_enabled st;
     scenario_cache := scenario_cache st;
     request_counts := c;
     last_reset_time := t |}.

Definition set_scenario_cache (st : client_state) (c : gmap string string) : client_state :=
  {| cache_enabled := cache_enabled st;
     scenario_cache := c;
     request_counts := request_counts st;
     last_reset_time := last_reset_time st |}.

(** *** _check_rate_limit *)

(** [self.llm_services.get(service, {}).get('rate_limit', 100)] *)
Definition rate_limit_of (service : string) : nat :=
  match llm_services !! service with
  | Some service_config => default 100 (rate_limit service_config)
  | None => 100
  end.

(** [current_time - self.last_reset_time > 3600] *)
Definition window_expired (st : client_state) (current_time : Q) : bool :=
  negb (Qle_bool (current_time - last_reset_time st) 3600).

Definition _check_rate_limit (st : client_state) (current_time : Q) (service : string)
  : bool * client_state :=
  let st :=
    if window_expired st current_time
    then set_request_counts st ∅ current_time
    else st in
  let rate_limit := rate_limit_of service in
  let current_count := default 0 (request_counts st !! service) in
  if (rate_limit <=? current_count)%nat then (false, st)
  else (true, set_request_counts st
                (<[service := current_count + 1]> (request_counts st))
                (last_reset_time st)).

(** *** _validate_and_clean_scenario *)

Definition generic_titles : list string :=
  ["test scenario"; "scenario"; "test case"; "test"].

Definition action_words : list string :=
  ["verify"; "test"; "check"; "validate"; "ensure"; "confirm"].

Definition default_steps : list string :=
  ["1. Set up test environment";
   "2. Execute the test scenario";
   "3. Verify expected results"].

(** One iteration of [for step in steps]. *)
Definition clean_step_into (cleaned_steps : list string) (step : json) : list string :=
  match step with
  | JStr step =>
      let clean_step := strip (remove_markers step) in
      let clean_step := strip (remove_leading_enum clean_step) in
      if negb (String.eqb clean_step EmptyString) && (5 <? String.length clean_step)%nat
      then
        let clean_step :=
          match clean_step with
          | String c _ =>
              if isdigit c then clean_step
              else pretty (length cleaned_steps + 1)%nat +:+ ". " +:+ clean_step
          | EmptyString => clean_step
          end in
        cleaned_steps ++ [clean_step]
      else cleaned_steps
  | _ => cleaned_steps
  end.

Definition _validate_and_clean_scenario (scenario : json) : result (option dict) :=
  match scenario with
  | JObj scenario =>
      title ← as_str (get_default scenario "title" (JStr EmptyString));
      let title := strip title in
      if String.eqb title EmptyString || (String.length title <? 10)%nat then Ok None
      else if existsb (String.eqb (lower title)) generic_titles then Ok None
      else
        let title := strip (remove_markers title) in
        let title := strip (remove_leading_enum title) in
        let title :=
          if existsb (startswith (lower title)) action_words then title
          else "Verify " +:+ lower title in
        let title := capitalize_first title in
        description ← as_str (get_default scenario "description" (JStr EmptyString));
        let description := strip description in
        let description := strip (remove_markers description) in
        let description :=
          if String.eqb description EmptyString
          then "Test scenario for " +:+ lower title
          else description in
        let steps :=
          match get_default scenario "steps" (JArr []) with
          | JStr s => [JStr s]
          | JArr l => l
          | _ => [JStr "1. Execute test steps"; JStr "2. Verify expected results"]
          end in
        let cleaned_steps := fold_left clean_step_into steps [] in
        let cleaned_steps :=
          match cleaned_steps with
          | [] => default_steps
          | _ => cleaned_steps
          end in
        Ok (Some
          [("title", JStr (str_take 100 title));
           ("description", JStr (str_take 200 description));
           ("steps", JArr (JStr <$> take 5 cleaned_steps));
           ("severity", get_default scenario "severity" (JStr "S3 - Moderate"));
           ("priority", get_default scenario "priority" (JStr "P3 - Medium"));
           ("automation", get_default scenario "automation" (JStr "Manual"))])
  | _ => Ok None
  end.

(** *** _improved_text_to_scenarios *)

(** [re.sub(r'^(title|scenario|test):\s*', '', line, flags=re.IGNORECASE)] *)
Definition remove_label (line : string) : string :=
  let l := lower line in
  if startswith l "title:" then lstrip_by isspace (str_drop 6 line)
  else if startswith l "scenario:" then lstrip_by isspace (str_drop 9 line)
  else if startswith l "test:" then lstrip_by isspace (str_drop 5 line)
  else line.

(** The class of the pattern that strips a leading run of quotes (double
    or single) and opening brackets (square or curly). *)
Definition is_open_quote (c : ascii) : bool :=
  let n := nat_of_ascii c in ((n =? 34) || (n =? 39) || (n =? 91) || (n =? 123))%nat.

(** The class of the pattern that strips a trailing run of quotes and
    closing brackets, anchored at the end. *)
Definition is_close_quote (c : ascii) : bool :=
  let n := nat_of_ascii c in ((n =? 34) || (n =? 39) || (n =? 93) || (n =? 125))%nat.

(** Does the string end with a line feed? *)
Fixpoint ends_with_newline (s : string) : bool :=
  match s with
  | EmptyString => false
  | String c EmptyString => (nat_of_ascii c =? 10)%nat
  | String _ s' => ends_with_newline s'
  end.

(** The substitution of the empty string for the pattern of a run of the
    closing class followed by the end anchor. Without MULTILINE the
    anchor matches at the end of the string and also just before a line
    feed that ends the string: the run is removed at the end, and in a
    string that ends with a line feed the run before that line feed is
    removed as well (the run at the very end is then empty). *)
Definition remove_trailing_close (line : string) : string :=
  if ends_with_newline line
  then rstrip_by is_close_quote (str_take (String.length line - 1) line)
       +:+ String (ascii_of_nat 10) EmptyString
  else rstrip_by is_close_quote line.

Definition _clean_title_from_line (line : string) : string :=
  let line := remove_leading_enum line in
  let line := remove_markers line in
  let line := remove_label line in
  let line := lstrip_by is_open_quote line in
  let line := remove_trailing_close line in
  strip line.

Definition quality_steps : list string :=
  ["1. Navigate to the relevant page or section";
   "2. Execute the required test actions";
   "3. Verify the expected outcome occurs";
   "4. Document the test results"].

Definition _create_quality_scenario (title : string) : dict :=
  let title := strip title in
  let title :=
    if startswith_any (lower title) ["verify"; "test"; "check"; "validate"; "ensure"]
    then title
    else "Verify " +:+ lower title in
  let title :=
    match title with
    | EmptyString => "Test scenario"
    | _ => capitalize_first title
    end in
  [("title", JStr title);
   ("description", JStr ("Test scenario to " +:+ lower title));
   ("steps", JArr (JStr <$> quality_steps));
   ("severity", JStr "S3 - Moderate");
   ("priority", JStr "P3 - Medium");
   ("automation", JStr "Manual")].

(** [for line in lines], with its [continue]s and its [break]. *)
Fixpoint scan_lines (lines : list string) (scenarios : list dict) : list dict :=
  match lines with
  | [] => scenarios
  | line :: rest =>
      let line := strip line in
      if String.eqb line EmptyString || (String.length line <? 15)%nat
      then scan_lines rest scenarios
      else if startswith_any line ["**"; "##"; "###"; "---"]
      then scan_lines rest scenarios
      else if existsb (contains (lower line)) ["test"; "verify"; "check"; "validate"; "ensure"]
      then
        let cleaned_title := _clean_title_from_line line in
        if negb (String.eqb cleaned_title EmptyString) && (10 <? String.length cleaned_title)%nat
        then
          let scenarios := scenarios ++ [_create_quality_scenario cleaned_title] in
          if (8 <=? length scenarios)%nat then scenarios
          else scan_lines rest scenarios
        else scan_lines rest scenarios
      else scan_lines rest scenarios
  end.

(** [while len(scenarios) < 6]; every turn appends one scenario, so six
    turns are enough for any start. *)
Fixpoint pad_to_six (fuel : nat) (scenarios : list dict) : list dict :=
  if (length scenarios <? 6)%nat then
    match fuel with
    | O => scenarios
    | S fuel =>
        pad_to_six fuel
          (scenarios ++
             [_create_quality_scenario
                ("Test functionality scenario " +:+ pretty (length scenarios + 1)%nat)])
    end
  else scenarios.

Definition _improved_text_to_scenarios (text : string) : list dict :=
  let scenarios := scan_lines (split_on (ascii_of_nat 10) text) [] in
  pad_to_six 6 scenarios.

(** *** The parse and repair cascade *)

Section Cascade.
Context (L : pylib).

(** The loop [for scenario in scenarios: cleaned = validate(scenario); if
    cleaned: append], which the source writes out at each structured
    stage. *)
Fixpoint clean_each (scenarios : list json) (cleaned_scenarios : list dict)
  : result (list dict) :=
  match scenarios with
  | [] => Ok cleaned_scenarios
  | scenario :: rest =>
      cleaned_scenario ← _validate_and_clean_scenario scenario;
      match cleaned_scenario with
      | Some c => clean_each rest (cleaned_scenarios ++ [c])
      | None => clean_each rest cleaned_scenarios
      end
  end.

Definition _clean_response_text (text : string) : string :=
  let text := re_sub L "\*\*([^*]+)\*\*" "\1" text [] in
  let text := re_sub L "\*([^*]+)\*" "\1" text [] in
  let text := re_sub L "^[\+\-\*]\s*" "" text [MULTILINE] in
  let text := re_sub L "^\d+\.\s*" "" text [MULTILINE] in
  let text := re_sub L "Here are the.*?scenarios.*?:" "" text [IGNORECASE] in
  let text := re_sub L "Below are.*?scenarios.*?:" "" text [IGNORECASE] in
  strip text.

(** The body cannot raise (the patterns are constants), so the [except]
    branch returning [None] is not represented. *)
Definition _fix_malformed_json (json_text : string) : string :=
  let json_text := re_sub L "}\s*{" "},{" json_text [] in
  let json_text := re_sub L (dq +:+ "\s*}\s*{") (dq +:+ ",},{") json_text [] in
  let json_text := re_sub L (dq +:+ "\s*}\s*]") (dq +:+ ",}]") json_text [] in
  let json_text := re_sub L "(\w+):" (dq +:+ "\1" +:+ dq +:+ ":") json_text [] in
  let json_text := re_sub L ",\s*}" "}" json_text [] in
  let json_text := re_sub L ",\s*]" "]" json_text [] in
  let json_text :=
    if (count_char "]" json_text <? count_char "[" json_text)%nat
    then json_text +:+ "]" else json_text in
  let json_text :=
    if (count_char "}" json_text <? count_char "{" json_text)%nat
    then json_text +:+ "}" else json_text in
  json_text.

(** The pattern of a quoted field: the key in double quotes, a colon, and
    a captured non-empty run of characters in double quotes. *)
Definition field_pattern (key : string) : string :=
  dq +:+ key +:+ dq +:+ "\s*:\s*" +:+ dq +:+ "([^" +:+ dq +:+ "]+)" +:+ dq.

Definition steps_pattern : string :=
  dq +:+ "steps" +:+ dq +:+ "\s*:\s*\[(.*?)\]".

Definition quoted_pattern : string :=
  dq +:+ "([^" +:+ dq +:+ "]+)" +:+ dq.

(** One [x_match = re.search(...); if x_match: scenario[key] =
    x_match.group(1).strip()] *)
Definition extract_field (key text : string) : dict :=
  match re_search L (field_pattern key) text [] with
  | Some m => [(key, JStr (strip (group m 1)))]
  | None => []
  end.

Definition _extract_scenario_from_text (text : string) : option dict :=
  let steps :=
    match re_search L steps_pattern text [DOTALL] with
    | Some m =>
        let steps_text := group m 1 in
        [("steps", JArr (JStr <$> re_findall L quoted_pattern steps_text []))]
    | None => []
    end in
  let scenario :=
    extract_field "title" text ++ extract_field "description" text ++ steps ++
    extract_field "severity" text ++ extract_field "priority" text ++
    extract_field "automation" text in
  if truthy (get_default scenario "title" JNull)
  then match _validate_and_clean_scenario (JObj scenario) with
       | Ok r => r
       | Raise _ => None
       end
  else None.

Definition title_object_pattern : string :=
  "\{[^{}]*" +:+ dq +:+ "title" +:+ dq +:+ "[^{}]*\}".

(** [for match in matches] of [_extract_json_like_scenarios] *)
Fixpoint extract_each (matches : list string) (scenarios : list dict)
  : result (list dict) :=
  match matches with
  | [] => Ok scenarios
  | m :: rest =>
      scenarios ←
        try_except_json
          (scenario ← json_loads L m;
           match scenario with
           | JObj d =>
               if has_key d "title" then
                 cleaned_scenario ← _validate_and_clean_scenario scenario;
                 match cleaned_scenario with
                 | Some c => Ok (scenarios ++ [c])
                 | None => Ok scenarios
                 end
               else Ok scenarios
           | _ => Ok scenarios
           end)
          (match _extract_scenario_from_text m with
           | Some c => Ok (scenarios ++ [c])
           | None => Ok scenarios
           end);
      extract_each rest scenarios
  end.

Definition _extract_json_like_scenarios (text : string) : option (list dict) :=
  match extract_each (re_findall L title_object_pattern text [DOTALL]) [] with
  | Ok (c :: cs) => Some (c :: cs)
  | Ok [] => None
  | Raise _ => None
  end.

(** [scenarios = json.loads(text); if isinstance(scenarios, list) and
    len(scenarios) > 0: return the cleaned scenarios]. [Some l] stands for
    [return l], [None] for falling through. *)
Definition parse_array (text : string) : result (option (list dict)) :=
  scenarios ← json_loads L text;
  match scenarios with
  | JArr (s :: ss) =>
      cleaned_scenarios ← clean_each (s :: ss) [];
      Ok (Some cleaned_scenarios)
  | _ => Ok None
  end.

Definition array_pattern : string := "\[[\s\S]*\]".

Definition _improved_parse_scenarios (response_text : string) : result (list dict) :=
  try_except
    (direct ← try_except_json (parse_array response_text) (Ok None);
     match direct with
     | Some cleaned_scenarios => Ok cleaned_scenarios
     | None =>
         let cleaned_text := _clean_response_text response_text in
         extracted ←
           match re_search L array_pattern cleaned_text [] with
           | Some json_match =>
               try_except_json
                 (parse_array (group json_match 0))
                 (let fixed_json := _fix_malformed_json (group json_match 0) in
                  if negb (String.eqb fixed_json EmptyString)
                  then try_except_json (parse_array fixed_json) (Ok None)
                  else Ok None)
           | None => Ok None
           end;
         match extracted with
         | Some cleaned_scenarios => Ok cleaned_scenarios
         | None =>
             match _extract_json_like_scenarios response_text with
             | Some extracted_scenarios => Ok extracted_scenarios
             | None => Ok (_improved_text_to_scenarios response_text)
             end
         end
     end)
    (fun _ => Ok (_improved_text_to_scenarios response_text)).

End Cascade.

(** The cascade as the specification words it: five stages in order, each
    one attempted only if the stages before it yielded nothing, a failure
    inside a stage degrading to the last one. *)
Inductive stage_outcome : Type :=
| Yields (candidates : list dict)
| Nothing
| Fails.

Definition outcome_of (r : result (option (list dict))) : stage_outcome :=
  match r with
  | Ok (Some l) => Yields l
  | Ok None => Nothing
  | Raise JSONDecodeError => Nothing
  | Raise _ => Fails
  end.

Section CascadeSpec.
Context (L : pylib).

(** Stage 1: structured parse of the whole text. *)
Definition stage_direct (raw : string) : stage_outcome :=
  outcome_of (parse_array L raw).

(** Stage 2: the first bracket-delimited substring, parsed. *)
Definition stage_bracket (raw : string) : stage_outcome :=
  match re_search L array_pattern (_clean_response_text L raw) [] with
  | Some m => outcome_of (parse_array L (group m 0))
  | None => Nothing
  end.

(** Stage 3: syntactic repair of that substring when it did not parse,
    then a new parse. *)
Definition stage_repair (raw : string) : stage_outcome :=
  match re_search L array_pattern (_clean_response_text L raw) [] with
  | Some m =>
      match parse_array L (group m 0) with
      | Raise JSONDecodeError =>
          let fixed := _fix_malformed_json L (group m 0) in
          if String.eqb fixed EmptyString then Nothing
          else outcome_of (parse_array L fixed)
      | _ => Nothing
      end
  | None => Nothing
  end.

(** Stage 4: field-by-field extraction of the title-bearing fragments. *)
Definition stage_fields (raw : string) : stage_outcome :=
  match _extract_json_like_scenarios L raw with
  | Some l => Yields l
  | None => Nothing
  end.

(** Stage 5: the line-oriented fallback, which always yields. *)
Definition stage_text (raw : string) : list dict :=
  _improved_text_to_scenarios raw.

Fixpoint first_yield (stages : list (string -> stage_outcome)) (raw : string)
  : list dict :=
  match stages with
  | [] => stage_text raw
  | stage :: later =>
      match stage raw with
      | Yields l => l
      | Nothing => first_yield later raw
      | Fails => stage_text raw
      end
  end.

Definition cascade_spec (raw : string) : list dict :=
  first_yield [stage_direct; stage_bracket; stage_repair; stage_fields] raw.

End CascadeSpec.

(** *** Deduplication *)

(** [set(text.lower().split())] *)
Definition word_set (text : string) : gset string :=
  list_to_set (split_ws (lower text)).

(** The quotient is a Python float; the only use of the value is the
    comparison with 0.8, which agrees with the comparison of the exact
    quotient with 4/5 for any word set that fits in memory, so the exact
    rational stands for it. *)
Definition _calculate_similarity (text1 text2 : string) : Q :=
  let words1 := word_set text1 in
  let words2 := word_set text2 in
  if bool_decide (words1 = ∅) || bool_decide (words2 = ∅) then 0%Q
  else
    let intersection := size (words1 ∩ words2) in
    let union := size (words1 ∪ words2) in
    if (0 <? union)%nat then (Z.of_nat intersection # Pos.of_nat union)%Q else 0%Q.

(** [similarity > 0.8] *)
Definition exceeds_threshold (similarity : Q) : bool :=
  negb (Qle_bool similarity (8 # 10)).

(** [for scenario in scenarios] of [_remove_duplicate_scenarios] *)
Fixpoint dedupe_each (scenarios : list dict) (unique_scenarios : list dict)
    (seen_titles : gset string) : result (list dict) :=
  match scenarios with
  | [] => Ok unique_scenarios
  | scenario :: rest =>
      title ← as_str (get_default scenario "title" (JStr EmptyString));
      let title := strip (lower title) in
      let is_duplicate :=
        existsb (fun seen_title => exceeds_threshold (_calculate_similarity title seen_title))
                (elements seen_titles) in
      if is_duplicate then dedupe_each rest unique_scenarios seen_titles
      else dedupe_each rest (unique_scenarios ++ [scenario]) ({[ title ]} ∪ seen_titles)
  end.

Definition _remove_duplicate_scenarios (scenarios : list dict) : result (list dict) :=
  dedupe_each scenarios [] ∅.

(** *** Generation with the fingerprint cache *)

Section Generation.
Context (L : pylib) (O : oracle) (cfg : ai_config).

Definition _generate_cache_key (story : dict) : result string :=
  fields ← as_dict (get_default story "fields" (JObj []));
  let summary := get_default fields "summary" (JStr EmptyString) in
  head ← py_slice 100 summary;
  let key_content := format_value L head in
  Ok (str_take 8 (md5_hexdigest L key_content)).

Record story_context : Type := {
  domain : string;
  complexity : string;
  summary : string
}.

(** [self.domain_patterns], compiled with [re.I] *)
Definition domain_patterns : list (string * string) :=
  [("payment", "\b(payment|billing|invoice|transaction|purchase|checkout)\b");
   ("user_management", "\b(user|account|profile|authentication|login|register)\b");
   ("logistics", "\b(shipping|delivery|tracking|warehouse|inventory)\b");
   ("finance", "\b(finance|financial|budget|cost|expense|revenue)\b")].

Definition _fast_story_analysis (story : dict) : result story_context :=
  fields ← as_dict (get_default story "fields" (JObj []));
  summary ← as_str (get_default fields "summary" (JStr EmptyString));
  let summary := lower summary in
  let domain :=
    match find (fun p => bool_decide (is_Some (re_search L (snd p) summary [IGNORECASE])))
               domain_patterns with
    | Some p => fst p
    | None => "general"
    end in
  let complexity :=
    if (100 <? String.length summary)%nat || contains summary "integration"
       || contains summary "api"
    then "high"
    else if (String.length summary <? 50)%nat then "low"
    else "medium" in
  Ok {| domain := domain; complexity := complexity; summary := str_take 200 summary |}.

(** The prompt varies with the summary only; [groq_post] receives that
    part. Every exception inside is caught and gives the empty list. *)
Definition _groq_ultra_fast (story : dict) : list dict :=
  if String.eqb (groq_token cfg) EmptyString then []
  else
    match as_dict (get_default story "fields" (JObj [])) with
    | Raise _ => []
    | Ok fields =>
        let summary := get_default fields "summary" (JStr EmptyString) in
        match groq_post O (format_value L summary) with
        | Some content =>
            match _improved_parse_scenarios L content with
            | Ok scenarios => take 10 scenarios
            | Raise _ => []
            end
        | None => []
        end
    end.

(** [self.llm_services['groq']['enabled']] *)
Definition groq_enabled : bool :=
  match llm_services !! "groq" with
  | Some service_config => enabled service_config
  | None => false
  end.

Definition _ultra_fast_generation (st : client_state) (now : Q) (story : dict)
  : list dict * client_state :=
  if groq_enabled then
    let '(allowed, st) := _check_rate_limit st now "groq" in
    if allowed then
      let scenarios := _groq_ultra_fast story in
      if negb (bool_decide (scenarios = [])) && (5 <=? length scenarios)%nat
      then (scenarios, st)
      else ([], st)
    else ([], st)
  else ([], st).

Definition _get_fallback_scenarios (story : dict) : list json :=
  match json_loads L (CursorAIClient.generate_test_scenarios L O story) with
  | Ok (JArr scenarios) => scenarios
  | _ => []
  end.

(** [for scenario in scenarios] of [_validate_and_enhance_scenarios] *)
Fixpoint enhance_each (scenarios : list json) (story : dict) (validated_scenarios : list dict)
  : result (list dict) :=
  match scenarios with
  | [] => Ok validated_scenarios
  | JObj scenario :: rest =>
      title ← py_slice 255 (get_default scenario "title" (JStr "Test Scenario"));
      let steps :=
        get_default scenario "steps" (JArr [JStr "1. Execute test"; JStr "2. Verify results"]) in
      let steps :=
        match steps with
        | JStr s => JArr [JStr s]
        | _ => steps
        end in
      let enhanced_scenario :=
        [("title", title);
         ("description", get_default scenario "description" (JStr "Test scenario description"));
         ("steps", steps);
         ("severity", get_default scenario "severity" (JStr "S3 - Moderate"));
         ("priority", get_default scenario "priority" (JStr "P3 - Medium"));
         ("automation", get_default scenario "automation" (JStr "Manual"));
         ("journey", JStr (determine_journey O story))] in
      enhance_each rest story (validated_scenarios ++ [enhanced_scenario])
  | _ :: rest => enhance_each rest story validated_scenarios
  end.

Definition _validate_and_enhance_scenarios (scenarios : list json) (story : dict)
  : result (list dict) :=
  validated_scenarios ← enhance_each scenarios story [];
  _remove_duplicate_scenarios validated_scenarios.

(** The [except Exception] branch: the answer of the fallback client. The
    state keeps whatever the body changed before it raised. *)
Definition generate_comprehensive_test_scenarios (st : client_state) (now : Q) (story : dict)
  : string * client_state :=
  let fallback := CursorAIClient.generate_test_scenarios L O story in
  match _generate_cache_key story with
  | Raise _ => (fallback, st)
  | Ok cache_key =>
      match (if cache_enabled st then scenario_cache st !! cache_key else None) with
      | Some cached => (cached, st)
      | None =>
          match _fast_story_analysis story with
          | Raise _ => (fallback, st)
          | Ok story_context =>
              let '(scenarios, st) := _ultra_fast_generation st now story in
              let scenarios := JObj <$> scenarios in
              let scenarios :=
                if bool_decide (scenarios = []) || (length scenarios <? 3)%nat
                then scenarios ++ _get_fallback_scenarios story
                else scenarios in
              match _validate_and_enhance_scenarios scenarios story with
              | Raise _ => (fallback, st)
              | Ok validated_scenarios =>
                  let result := json_dumps L (Some 2%nat) (JArr (JObj <$> validated_scenarios)) in
                  (result,
                   if cache_enabled st
                   then set_scenario_cache st (<[cache_key := result]> (scenario_cache st))
                   else st)
              end
          end
      end
  end.

End Generation.

End EnhancedAIClient.

(** ** app/clients/ai_service_manager.py *)

Module AIServiceManager.
Import PyStr Py Config.

(** *** The bounder *)

Definition priority_order : list (string * nat) :=
  [("P1 - Critical", 1%nat); ("P2 - High", 2%nat); ("P3 - Medium", 3%nat); ("P4 - Low", 4%nat)].

Definition severity_order : list (string * nat) :=
  [("S1 - Critical", 1%nat); ("S2 - Major", 2%nat); ("S3 - Moderate", 3%nat); ("S4 - Low", 4%nat)].

Fixpoint table_get (table : list (string * nat)) (k : string) : option nat :=
  match table with
  | [] => None
  | (k', n) :: table' => if String.eqb k k' then Some n else table_get table' k
  end.

(** [table.get(v, 3)]: the key is hashed first, which a list or a dict
    refuses; a key that is no string equals none of the entries. *)
Definition order_get (table : list (string * nat)) (v : json) : result nat :=
  match v with
  | JStr s => Ok (default 3%nat (table_get table s))
  | JArr _ => Raise TypeError
  | JObj _ => Raise TypeError
  | _ => Ok 3%nat
  end.

Definition scenario_score (scenario : dict) : result nat :=
  priority ← order_get priority_order (get_default scenario "priority" (JStr "P3 - Medium"));
  severity ← order_get severity_order (get_default scenario "severity" (JStr "S3 - Moderate"));
  Ok (priority + severity)%nat.

(** [sorted] computes the key of every element, in order, before it
    sorts. *)
Fixpoint score_each (scenarios : list dict) : result (list (nat * dict)) :=
  match scenarios with
  | [] => Ok []
  | scenario :: rest =>
      score ← scenario_score scenario;
      scored ← score_each rest;
      Ok ((score, scenario) :: scored)
  end.

(** [sorted] is stable: an element goes before the first one whose key is
    not smaller. *)
Fixpoint insert_scored (x : nat * dict) (l : list (nat * dict)) : list (nat * dict) :=
  match l with
  | [] => [x]
  | y :: l' => if (fst y <? fst x)%nat then y :: insert_scored x l' else x :: y :: l'
  end.

Fixpoint sort_scored (l : list (nat * dict)) : list (nat * dict) :=
  match l with
  | [] => []
  | x :: l' => insert_scored x (sort_scored l')
  end.

Definition _prioritize_scenarios (scenarios : list dict) : result (list dict) :=
  scored ← score_each scenarios;
  Ok (snd <$> sort_scored scored).

Definition basic_steps : list string :=
  ["1. Set up test environment";
   "2. Execute test steps";
   "3. Verify expected results";
   "4. Clean up test data"].

Section Bounder.
Context (L : pylib) (cfg : ai_config).

Definition _generate_basic_scenario (story : dict) (index : Z) : result dict :=
  fields ← as_dict (get_default story "fields" (JObj []));
  let title := format_value L (get_default fields "summary" (JStr "Test Story")) in
  let index_text := pretty index in
  let scenario_types : list dict :=
    [[("title", JStr ("Verify " +:+ title +:+ " - Functional Test " +:+ index_text));
      ("description", JStr ("Test core functionality of " +:+ title));
      ("severity", JStr "S3 - Moderate");
      ("priority", JStr "P3 - Medium")];
     [("title", JStr ("Verify " +:+ title +:+ " - Error Handling " +:+ index_text));
      ("description", JStr ("Test error handling for " +:+ title));
      ("severity", JStr "S2 - Major");
      ("priority", JStr "P2 - High")];
     [("title", JStr ("Verify " +:+ title +:+ " - Boundary Test " +:+ index_text));
      ("description", JStr ("Test boundary conditions for " +:+ title));
      ("severity", JStr "S3 - Moderate");
      ("priority", JStr "P3 - Medium")]] in
  let scenario_template := nth (Z.to_nat ((index - 1) mod 3)%Z) scenario_types [] in
  Ok (scenario_template ++
      [("steps", JArr (JStr <$> basic_steps)); ("automation", JStr "Manual")]).

(** [while len(scenarios) < min_scenarios]: each turn appends one
    scenario; the fuel given by [_ensure_scenario_limits] is the number of
    turns the loop can take. *)
Fixpoint pad_to_min (fuel : nat) (scenarios : list dict) (story : dict) : result (list dict) :=
  if (Z.of_nat (length scenarios) <? min_scenarios cfg)%Z then
    match fuel with
    | O => Raise NonTermination
    | S fuel =>
        basic_scenario ← _generate_basic_scenario story (Z.of_nat (length scenarios) + 1)%Z;
        pad_to_min fuel (scenarios ++ [basic_scenario]) story
    end
  else Ok scenarios.

Definition _ensure_scenario_limits (scenarios : list dict) (story : dict) : result (list dict) :=
  let min_scenarios := min_scenarios cfg in
  let max_scenarios := max_scenarios cfg in
  scenarios ← pad_to_min (Z.to_nat (min_scenarios - Z.of_nat (length scenarios))) scenarios story;
  if (max_scenarios <? Z.of_nat (length scenarios))%Z then
    prioritized ← _prioritize_scenarios scenarios;
    Ok (slice_to prioritized max_scenarios)
  else Ok scenarios.

End Bounder.

(** *** The entry point *)

(** The names an [AIServiceManager] instance answers to: what [__init__]
    assigns and what the class defines. *)
Definition attributes : list string :=
  ["config"; "mode"; "enable_fallback"; "enhanced_ai"; "cursor_ai"; "manual_creator";
   "request_counts"; "last_reset"; "service_health";
   "__init__"; "generate_test_scenarios"; "_try_enhanced_ai"; "_try_local_ai";
   "_try_manual_fallback"; "_filter_unique_scenarios"; "_calculate_title_similarity";
   "_ensure_scenario_limits"; "_generate_basic_scenario"; "_generate_minimal_scenarios";
   "_prioritize_scenarios"; "get_service_status"; "set_mode"].

(** [self.<name>]: an attribute the instance does not have raises. *)
Definition getattr (name : string) : result unit :=
  if existsb (String.eqb name) attributes then Ok tt else Raise AttributeError.

(** [self._generate_basic_scenarios(story)]: the attribute is looked up
    before anything is called. The class has no method of that name, so
    there is no body to run after the lookup. *)
Definition call_generate_basic_scenarios (story : dict) : result string :=
  _ ← getattr "_generate_basic_scenarios";
  Raise AttributeError.

Section EntryPoint.
Context (L : pylib).

(** The body of [generate_test_scenarios], given what the two calls
    [self.enhanced_ai.generate_comprehensive_test_scenarios(story)] and
    [self.cursor_ai.generate_test_scenarios(story)] do. *)
Definition generate_test_scenarios_from (enhanced_call fallback_call : result string)
    (story : dict) : result string :=
  try_except
    (enhanced_result ← enhanced_call;
     accepted ←
       (if negb (String.eqb enhanced_result EmptyString) then
          try_except_json
            (scenarios ← json_loads L enhanced_result;
             if truthy scenarios then
               n ← py_len scenarios;
               Ok (3 <=? n)%nat
             else Ok false)
            (Ok false)
        else Ok false);
     if (accepted : bool) then Ok enhanced_result
     else
       fallback_result ← fallback_call;
       decoded ←
         (if negb (String.eqb fallback_result EmptyString) then
            try_except_json
              (scenarios ← json_loads L fallback_result; Ok true)
              (Ok false)
          else Ok false);
       if (decoded : bool) then Ok fallback_result
       else call_generate_basic_scenarios story)
    (fun _ => call_generate_basic_scenarios story).

Context (O : oracle) (cfg : ai_config).

Definition generate_test_scenarios (st : EnhancedAIClient.client_state) (now : Q) (story : dict)
  : result string * EnhancedAIClient.client_state :=
  let '(enhanced_result, st) :=
    EnhancedAIClient.generate_comprehensive_test_scenarios L O cfg st now story in
  (generate_test_scenarios_from
     (Ok enhanced_result)
     (Ok (CursorAIClient.generate_test_scenarios L O story))
     story,
   st).

End EntryPoint.

(** *** _filter_unique_scenarios *)

Definition _calculate_title_similarity (title1 title2 : string) : Q :=
  let words1 : gset string := list_to_set (split_ws (lower title1)) in
  let words2 : gset string := list_to_set (split_ws (lower title2)) in
  if bool_decide (words1 = ∅) || bool_decide (words2 = ∅) then 0%Q
  else
    let intersection := size (words1 ∩ words2) in
    let union := size (words1 ∪ words2) in
    if (0 <? union)%nat then (Z.of_nat intersection # Pos.of_nat union)%Q else 0%Q.

(** [similarity > 0.7]; as for the threshold of the deduplication, the
    comparison of the float quotient with the float 0.7 agrees with the
    comparison of the exact quotient with 7/10 for any word set that fits
    in memory. *)
Definition above_threshold (similarity : Q) : bool :=
  negb (Qle_bool similarity (7 # 10)).

(** [[s.get('title', '').lower() for s in existing_scenarios]] *)
Fixpoint lower_titles (existing_scenarios : list dict) : result (list string) :=
  match existing_scenarios with
  | [] => Ok []
  | s :: rest =>
      title ← as_str (get_default s "title" (JStr EmptyString));
      titles ← lower_titles rest;
      Ok (lower title :: titles)
  end.

(** [for scenario in new_scenarios]; the inner loop with its [break] is
    the search for a title above the threshold. *)
Fixpoint filter_each (new_scenarios : list dict) (unique_scenarios : list dict)
    (existing_titles : list string) : result (list dict) :=
  match new_scenarios with
  | [] => Ok unique_scenarios
  | scenario :: rest =>
      title ← as_str (get_default scenario "title" (JStr EmptyString));
      let title := lower title in
      let is_unique :=
        negb (existsb (fun existing_title =>
                         above_threshold (_calculate_title_similarity title existing_title))
                      existing_titles) in
      if is_unique
      then filter_each rest (unique_scenarios ++ [scenario]) (existing_titles ++ [title])
      else filter_each rest unique_scenarios existing_titles
  end.

Definition _filter_unique_scenarios (new_scenarios existing_scenarios : list dict)
  : result (list dict) :=
  existing_titles ← lower_titles existing_scenarios;
  filter_each new_scenarios [] existing_titles.


End AIServiceManager.

(** ** app/generators/story_test_generator.py *)

Module StoryTestGenerator.
Import PyStr Py Config.

(** [sep.join(words)] *)
Fixpoint join (sep : string) (words : list string) : string :=
  match words with
  | [] => EmptyString
  | w :: rest =>
      match rest with
      | [] => w
      | _ => w +:+ sep +:+ join sep rest
      end
  end.

(** [' '.join(title.lower().split())] *)
Definition _normalize_title (title : string) : string :=
  join " " (split_ws (lower title)).

Definition high_complexity_keywords : list string :=
  ["integration"; "api"; "complex"; "multiple"; "system"; "workflow"; "process"].

Definition medium_complexity_keywords : list string :=
  ["user"; "create"; "update"; "delete"; "manage"; "handle"].

(** The argument is whatever the story carries as its summary:
    [summary.lower()] raises on anything but a string. *)
Definition _calculate_optimal_scenario_count (summary : json) : result nat :=
  summary ← as_str summary;
  let summary_lower := lower summary in
  let length_factor := String.length summary in
  let high_score :=
    length (List.filter (fun keyword => contains summary_lower keyword)
                        high_complexity_keywords) in
  let medium_score :=
    length (List.filter (fun keyword => contains summary_lower keyword)
                        medium_complexity_keywords) in
  if (2 <=? high_score)%nat || (120 <? length_factor)%nat then Ok 12%nat
  else if (1 <=? high_score)%nat || (2 <=? medium_score)%nat || (80 <? length_factor)%nat
  then Ok 8%nat
  else Ok 6%nat.

Section Generator.
Context (L : pylib) (O : oracle) (cfg : ai_config).

(** [if scenarios and len(scenarios) > optimal_count: scenarios =
    scenarios[:optimal_count]], then [return scenarios if scenarios else
    []] *)
Definition limit_to (optimal_count : nat) (scenarios : json) : result json :=
  scenarios ←
    (if truthy scenarios then
       n ← py_len scenarios;
       if (optimal_count <? n)%nat then py_slice optimal_count scenarios
       else Ok scenarios
     else Ok scenarios);
  Ok (if truthy scenarios then scenarios else JArr []).

(** The answer of the original client, decoded and cut:
    [return scenarios[:optimal_count] if scenarios else []] *)
Definition from_cursor (story : dict) (optimal_count : nat) : result json :=
  scenarios ← json_loads L (CursorAIClient.generate_test_scenarios L O story);
  if truthy scenarios then py_slice optimal_count scenarios else Ok (JArr []).

(** The handler of the outer [except Exception], for a story that was
    fetched: the same steps under a [try] of their own whose handler
    returns the empty list. [optimal_count] is [None] when the exception
    came before its assignment; reading it then raises, which that
    handler catches too. *)
Definition last_resort (story : dict) (optimal_count : option nat) : json :=
  match json_loads L (CursorAIClient.generate_test_scenarios L O story) with
  | Ok scenarios =>
      if truthy scenarios then
        match optimal_count with
        | Some optimal_count =>
            match py_slice optimal_count scenarios with
            | Ok v => v
            | Raise _ => JArr []
            end
        | None => JArr []
        end
      else JArr []
  | Raise _ => JArr []
  end.

(** [issue] is what [self.jira_client.get_issue(story_key)] does: it
    returns a dict or [None], or it raises. When it raises, [story] is
    not bound, the handler of the outer [except] raises on reading it and
    its own handler returns the empty list. *)
Definition generate_ai_scenarios (issue : result (option dict))
    (st : EnhancedAIClient.client_state) (now : Q)
  : json * EnhancedAIClient.client_state :=
  match issue with
  | Raise _ => (JArr [], st)
  | Ok None => (JArr [], st)
  | Ok (Some story) =>
      if negb (truthy (JObj story)) then (JArr [], st)
      else
        match (fields ← as_dict (get_default story "fields" (JObj []));
               _calculate_optimal_scenario_count
                 (get_default fields "summary" (JStr EmptyString))) with
        | Raise _ => (last_resort story None, st)
        | Ok optimal_count =>
            let '(scenarios_json, st) :=
              AIServiceManager.generate_test_scenarios L O cfg st now story in
            match scenarios_json with
            | Raise _ => (last_resort story (Some optimal_count), st)
            | Ok scenarios_json =>
                match (scenarios ← json_loads L scenarios_json;
                       limit_to optimal_count scenarios) with
                | Ok scenarios => (scenarios, st)
                | Raise JSONDecodeError =>
                    match from_cursor story optimal_count with
                    | Ok scenarios => (scenarios, st)
                    | Raise _ => (last_resort story (Some optimal_count), st)
                    end
                | Raise _ => (last_resort story (Some optimal_count), st)
                end
            end
        end
  end.

End Generator.

End StoryTestGenerator.


(** ** Notions the statements use *)

Module Notions.
Import PyStr Py Config EnhancedAIClient.

(** The call at clock reading [t] falls inside the window that [st] has
    open. *)
Definition within_window (st : client_state) (t : Q) : Prop :=
  (t - last_reset_time st <= 3600)%Q.

(** The counter of a service, as [_check_rate_limit] reads it. *)
Definition counter (st : client_state) (service : string) : nat :=
  default 0%nat (request_counts st !! service).

(** A run of calls, each with its clock reading and service: the answers
    in order and the state left behind. *)
Fixpoint check_rate_limit_run (st : client_state) (calls : list (Q * string))
  : list bool * client_state :=
  match calls with
  | [] => ([], st)
  | (t, service) :: rest =>
      let '(ok, st1) := _check_rate_limit st t service in
      let '(oks, st2) := check_rate_limit_run st1 rest in
      (ok :: oks, st2)
  end.

(** The calls of a run that are made for [service]. *)
Definition calls_for (service : string) (calls : list (Q * string)) : list (Q * string) :=
  filter (fun c => c.2 = service) calls.

(** Every character of [s] satisfies [p]. *)
Fixpoint str_all (p : ascii -> bool) (s : string) : bool :=
  match s with
  | EmptyString => true
  | String c s' => p c && str_all p s'
  end.

(** The first character of [s] exists and satisfies [p]. *)
Definition head_is (p : ascii -> bool) (s : string) : bool :=
  match s with
  | EmptyString => false
  | String c _ => p c
  end.

(** The string field [key] of a record, empty when it is no string. *)
Definition str_field (record : dict) (key : string) : string :=
  match dict_get record key with
  | Some (JStr s) => s
  | _ => EmptyString
  end.



(** What the validator promises about the title of a record it returns. *)
Definition clean_title (title : string) : Prop :=
  str_all (fun c => negb (is_marker c)) title = true /\
  head_is is_enum_char title = false /\
  (exists w, In w action_words /\ startswith (lower title) w = true) /\
  head_is isupper title = true /\
  (String.length title <= 100)%nat.

(** The enumerations of [config/config.py]. *)
Definition severities : list string :=
  ["S1 - Critical"; "S2 - Major"; "S3 - Moderate"; "S4 - Low"].

Definition priorities : list string :=
  ["P0 - Live Issue"; "P1 - Critical"; "P2 - High"; "P3 - Medium"; "P4 - Low"].

Definition automation_statuses : list string :=
  ["Manual"; "Automated"; "In Progress"; "Blocked"].

Definition enum_value (enum : list string) (v : json) : Prop :=
  match v with
  | JStr s => In s enum
  | _ => False
  end.

(** The sentence of the specification about the three enumerated fields,
    as it is written: whatever the candidate says, an accepted record
    carries enumeration values. *)
Definition validator_coerces_enums : Prop :=
  forall (candidate record : dict),
    _validate_and_clean_scenario (JObj candidate) = Ok (Some record) ->
    enum_value severities (get_default record "severity" JNull) /\
    enum_value priorities (get_default record "priority" JNull) /\
    enum_value automation_statuses (get_default record "automation" JNull).

(** The value under [key], when there is one, is a string. *)
Definition str_or_absent (candidate : dict) (key : string) : Prop :=
  exists s, get_default candidate key (JStr EmptyString) = JStr s.


(** The title of a record, empty when absent. *)
Definition title_of (record : dict) : string :=
  match get_default record "title" (JStr EmptyString) with
  | JStr s => s
  | _ => EmptyString
  end.

(** The title of the record, when present, is a string. *)
Definition has_str_title (record : dict) : Prop :=
  exists s, get_default record "title" (JStr EmptyString) = JStr s.

(** Jaccard index of two token sets: the size of the intersection over
    the size of the union, 0 when either set is empty. *)
Definition jaccard (a b : gset string) : Q :=
  if bool_decide (a = ∅) || bool_decide (b = ∅) then 0%Q
  else (Z.of_nat (size (a ∩ b)) # Pos.of_nat (size (a ∪ b)))%Q.

(** Similarity of two records: the Jaccard index of the lower-cased word
    sets of their titles. *)
Definition title_similarity (r1 r2 : dict) : Q :=
  jaccard (word_set (title_of r1)) (word_set (title_of r2)).

(** No two records of the list are more than 0.8 similar. *)
Fixpoint no_near_duplicates (records : list dict) : Prop :=
  match records with
  | [] => True
  | a :: later =>
      Forall (fun b => (title_similarity a b <= 8 # 10)%Q) later /\
      no_near_duplicates later
  end.

(** Deduplication as the specification words it: the records are taken
    in order, and one is kept unless a record kept before it is more than
    0.8 similar to it. *)
Fixpoint first_seen_wins (kept records : list dict) : list dict :=
  match records with
  | [] => kept
  | r :: rest =>
      if existsb (fun a => exceeds_threshold (title_similarity r a)) kept
      then first_seen_wins kept rest
      else first_seen_wins (kept ++ [r]) rest
  end.

Definition dedupe_spec (records : list dict) : list dict :=
  first_seen_wins [] records.

(** The story has its [fields] as a dict (or has none). *)
Definition story_fields_ok (story : dict) : Prop :=
  exists fields, get_default story "fields" (JObj []) = JObj fields.

(** A value that can be a dict key: neither a list nor a dict. *)
Definition hashable (v : json) : Prop :=
  match v with
  | JArr _ => False
  | JObj _ => False
  | _ => True
  end.

(** A scenario record whose priority and severity can be ranked. *)
Definition rankable (scenario : dict) : Prop :=
  hashable (get_default scenario "priority" (JStr "P3 - Medium")) /\
  hashable (get_default scenario "severity" (JStr "S3 - Moderate")).

(** The sum of the priority and severity ordinals of a rankable record. *)
Definition score (scenario : dict) : nat :=
  match AIServiceManager.scenario_score scenario with
  | Ok n => n
  | Raise _ => 0%nat
  end.

Definition score_le (a b : dict) : Prop := (score a <= score b)%nat.

(** The order of the decorated list that [sorted] works on. *)
Definition fst_le (p q : nat * dict) : Prop := (fst p <= fst q)%nat.

(** The records with which the bounder pads: the template records for the
    indices that follow the length of the input. *)
Definition padding_for (L : pylib) (story : dict) (start : nat) (padding : list dict) : Prop :=
  Forall2 (fun index record =>
             AIServiceManager._generate_basic_scenario L story (Z.of_nat index) = Ok record)
          (seq start (length padding)) padding.

(** What the bounder returns on [scenarios] under the bounds of [cfg]. *)
Definition bounded_result (L : pylib) (cfg : ai_config) (scenarios : list dict) (story : dict)
    (out : list dict) : Prop :=
  (min_scenarios cfg <= Z.of_nat (length out) <= max_scenarios cfg)%Z /\
  ((Z.of_nat (length scenarios) < min_scenarios cfg)%Z ->
     exists padding,
       out = scenarios ++ padding /\
       Z.of_nat (length out) = min_scenarios cfg /\
       padding_for L story (S (length scenarios)) padding) /\
  ((max_scenarios cfg < Z.of_nat (length scenarios))%Z ->
     exists sorted,
       Permutation sorted scenarios /\
       StronglySorted score_le sorted /\
       out = take (Z.to_nat (max_scenarios cfg)) sorted) /\
  ((min_scenarios cfg <= Z.of_nat (length scenarios) <= max_scenarios cfg)%Z ->
     out = scenarios).


(** The result [r] is stored in the cache of [st] under the fingerprint
    of [story]. *)
Definition cached_for (L : pylib) (st : client_state) (story : dict) (r : string) : Prop :=
  exists key, _generate_cache_key L story = Ok key /\ scenario_cache st !! key = Some r.

(** A story whose summary and description are empty strings. *)
Definition blank_story : dict :=
  [("fields", JObj [("summary", JStr EmptyString); ("description", JStr EmptyString)])].

(** What the statements about text need from [json]: the empty list is
    written as a pair of brackets, with or without indentation, and read
    back. *)
Definition empty_list_codec (L : pylib) : Prop :=
  json_dumps L None (JArr []) = "[]" /\
  json_dumps L (Some 2%nat) (JArr []) = "[]" /\
  json_loads L "[]" = Ok (JArr []).

(** A minimal library and outside world, to run the model on concrete
    inputs: a decoder that knows the empty list only, patterns that never
    match, the identity as digest, no network answer and no rule-based
    scenario. *)
Definition sample_lib : pylib :=
  {| json_loads := fun s => if String.eqb s "[]" then Ok (JArr []) else Raise JSONDecodeError;
     json_dumps := fun _ v => match v with JArr [] => "[]" | _ => "[...]" end;
     re_sub := fun _ _ text _ => text;
     re_search := fun _ _ _ => None;
     re_findall := fun _ _ _ => [];
     md5_hexdigest := fun s => s;
     py_str := fun _ => EmptyString |}.

Definition sample_oracle : oracle :=
  {| groq_post := fun _ => None;
     cursor_scenarios := fun _ _ => Ok None;
     adf_plain_text := fun _ => Ok EmptyString;
     determine_journey := fun _ => "Account" |}.

(** Concrete inputs on which the statements are run. *)
Definition sample_calls : list (Q * string) := replicate 100 (1%Q, "groq").

Definition sample_candidate : dict :=
  [("title", JStr "1. **check** the login-page works");
   ("severity", JStr "urgent")].

Definition sample_record : dict :=
  [("title", JStr "Check the loginpage works");
   ("description", JStr "Test scenario for check the loginpage works");
   ("steps", JArr (JStr <$> default_steps));
   ("severity", JStr "urgent");
   ("priority", JStr "P3 - Medium");
   ("automation", JStr "Manual")].

Definition titled (title : string) : dict := [("title", JStr title)].

Definition sample_scenarios : list dict :=
  [titled "Verify login works for the user";
   titled "verify LOGIN works for the user";
   titled "Verify logout works"].

Definition sample_story (description : string) : dict :=
  [("fields", JObj [("summary", JStr "Login"); ("description", JStr description)])].

Definition sample_state_login : client_state :=
  {| cache_enabled := true;
     scenario_cache := {[ "Login" := "[]" ]};
     request_counts := {[ "groq" := 1%nat ]};
     last_reset_time := 0 |}.


End Notions.

(** ** Notions of the further properties *)

Module Further.
Import PyStr Py Config EnhancedAIClient Notions.

(** No counter is above the limit of its service. *)
Definition within_limits (st : client_state) : Prop :=
  forall service, (counter st service <= rate_limit_of service)%nat.

(** The number of calls of a run that were made for [service] and
    answered [True]. *)
Fixpoint admitted_for (service : string) (calls : list (Q * string)) (oks : list bool) : nat :=
  match calls, oks with
  | c :: calls', ok :: oks' =>
      ((if bool_decide (c.2 = service) && ok then 1 else 0)
       + admitted_for service calls' oks')%nat
  | _, _ => 0%nat
  end.

(** The six fields of a scenario record, in the order the code writes
    them. *)
Definition scenario_keys : list string :=
  ["title"; "description"; "steps"; "severity"; "priority"; "automation"].

(** A record fit for display: the six fields; a string title that starts
    with a capital letter and, up to case, with an action verb; a string
    description; one to five steps, all strings. *)
Definition presentable (r : dict) : Prop :=
  r.*1 = scenario_keys /\
  (exists t, dict_get r "title" = Some (JStr t) /\
             head_is isupper t = true /\
             startswith_any (lower t) action_words = true) /\
  (exists d, dict_get r "description" = Some (JStr d)) /\
  (exists steps : list string,
      dict_get r "steps" = Some (JArr (JStr <$> steps)) /\
      (1 <= length steps <= 5)%nat).

(** A record of the line-oriented fallback: a title that starts, up to
    case, with one of the five verbs of [_create_quality_scenario], the
    description derived from it, the four fixed steps and the default
    severity, priority and automation status. *)
Definition quality_record (r : dict) : Prop :=
  exists title,
    startswith_any (lower title) ["verify"; "test"; "check"; "validate"; "ensure"] = true /\
    head_is isupper title = true /\
    r = [("title", JStr title);
         ("description", JStr ("Test scenario to " +:+ lower title));
         ("steps", JArr (JStr <$> quality_steps));
         ("severity", JStr "S3 - Moderate");
         ("priority", JStr "P3 - Medium");
         ("automation", JStr "Manual")].


(** An element of the list given to [_validate_and_enhance_scenarios]
    whose title, when it is a dict, is a string or absent. *)
Definition str_titled (candidate : json) : Prop :=
  match candidate with
  | JObj d => exists s, get_default d "title" (JStr "Test Scenario") = JStr s
  | _ => True
  end.

(** A record as [_validate_and_enhance_scenarios] builds it: the six
    fields and the journey of the story; a title of at most 255
    characters when it is a string; steps that are never a bare string. *)
Definition enhanced_record (O : oracle) (story : dict) (r : dict) : Prop :=
  r.*1 = scenario_keys ++ ["journey"] /\
  dict_get r "journey" = Some (JStr (determine_journey O story)) /\
  (forall t, dict_get r "title" = Some (JStr t) -> (String.length t <= 255)%nat) /\
  (forall s, dict_get r "steps" <> Some (JStr s)).


(** Every record of [records] is at most 0.7 similar to every record of
    [against] and to every record before it in [records]. *)
Fixpoint apart (against records : list dict) : Prop :=
  match records with
  | [] => True
  | r :: rest =>
      Forall (fun a => (title_similarity r a <= 7 # 10)%Q) against /\
      apart (against ++ [r]) rest
  end.


(** A token of [str.split()]: not empty and without white space. *)
Definition token (w : string) : Prop :=
  w <> EmptyString /\ str_all (fun c => negb (isspace c)) w = true.

(** A value that has a length, and one of at most [n]. *)
Definition sized_within (n : nat) (v : json) : Prop :=
  exists m, py_len v = Ok m /\ (m <= n)%nat.


(** Concrete inputs on which the further statements are run: a decoder
    that knows one array, a state with the cache off, bounds with the
    maximum below the minimum, records with and without usable fields,
    and a story whose fields are no dict. *)
Definition array_lib : pylib :=
  {| json_loads := fun s =>
       if String.eqb s "[null]" then Ok (JArr [JNull]) else Raise JSONDecodeError;
     json_dumps := fun _ _ => "[...]";
     re_sub := fun _ _ text _ => text;
     re_search := fun _ _ _ => None;
     re_findall := fun _ _ _ => [];
     md5_hexdigest := fun s => s;
     py_str := fun _ => EmptyString |}.

Definition cache_off_state : client_state :=
  {| cache_enabled := false;
     scenario_cache := ∅;
     request_counts := ∅;
     last_reset_time := 0 |}.

Definition inverted_config : ai_config :=
  {| groq_token := EmptyString; min_scenarios := 3; max_scenarios := 2 |}.

Definition ranked (title priority severity : string) : dict :=
  [("title", JStr title); ("priority", JStr priority); ("severity", JStr severity)].

Definition ranked_scenarios : list dict :=
  [ranked "Verify export" "P3 - Medium" "S3 - Moderate";
   ranked "Verify login" "P1 - Critical" "S1 - Critical";
   ranked "Verify import" "P3 - Medium" "S3 - Moderate"].

Definition unrankable_scenarios : list dict :=
  [titled "Verify login works"; [("priority", JArr [])]].

Definition untitled_scenarios : list dict :=
  [titled "Verify login works"; [("title", JNum 1)]].

Definition blank_titled : list dict :=
  [titled "Verify login works"; titled "   "; titled EmptyString].

Definition malformed_story : dict := [("fields", JStr "none")].


(** The title of a processed scenario as [_process_scenarios] compares
    it: lower case, without a leading verb. *)
Definition normalized_title (r : CursorAIClient.processed_scenario) : string :=
  CursorAIClient.remove_leading_verb (lower (CursorAIClient.p_title r)).

(** [x] does not sort after [y]: the key of [y] is not below the key of
    [x]. *)
Definition key_le (x y : CursorAIClient.processed_scenario) : Prop :=
  CursorAIClient.key_ltb (CursorAIClient.sort_key y) (CursorAIClient.sort_key x) = false.

(** The severity and the priority of a processed scenario are levels of
    the enumerations. *)
Definition valid_levels (r : CursorAIClient.processed_scenario) : Prop :=
  In (CursorAIClient.p_severity r) severities /\
  In (CursorAIClient.p_priority r) priorities.


(** The template record of the sample story for an index. *)
Definition padding_record (index : Z) : dict :=
  match AIServiceManager._generate_basic_scenario sample_lib (sample_story "x") index with
  | Ok record => record
  | Raise _ => []
  end.




(** Eleven records for the default bounds: the first has the highest
    sum of ordinals, the last the lowest, one has no level at all and
    one a priority that is no level. *)
Definition long_scenarios : list dict :=
  [ranked "Verify archive" "P4 - Low" "S4 - Low";
   ranked "Verify export" "P3 - Medium" "S3 - Moderate";
   ranked "Verify import" "P2 - High" "S3 - Moderate";
   ranked "Verify search" "P3 - Medium" "S3 - Moderate";
   titled "Verify profile";
   ranked "Verify upload" "urgent" "S1 - Critical";
   ranked "Verify logout" "P2 - High" "S2 - Major";
   ranked "Verify filter" "P3 - Medium" "S3 - Moderate";
   ranked "Verify delete" "P4 - Low" "S3 - Moderate";
   ranked "Verify rename" "P3 - Medium" "S4 - Low";
   ranked "Verify login" "P1 - Critical" "S1 - Critical"].

(** The ten of them that are kept, in the order of their sums 2, 4, 4,
    5, 6, 6, 6, 6, 7 and 7. *)
Definition long_bounded : list dict :=
  [ranked "Verify login" "P1 - Critical" "S1 - Critical";
   ranked "Verify upload" "urgent" "S1 - Critical";
   ranked "Verify logout" "P2 - High" "S2 - Major";
   ranked "Verify import" "P2 - High" "S3 - Moderate";
   ranked "Verify export" "P3 - Medium" "S3 - Moderate";
   ranked "Verify search" "P3 - Medium" "S3 - Moderate";
   titled "Verify profile";
   ranked "Verify filter" "P3 - Medium" "S3 - Moderate";
   ranked "Verify delete" "P4 - Low" "S3 - Moderate";
   ranked "Verify rename" "P3 - Medium" "S4 - Low"].

(** One record padded to the default minimum for a story whose summary
    is Login. *)
Definition short_bounded : list dict :=
  [titled "Verify login works";
   [("title", JStr "Verify Login - Error Handling 2");
    ("description", JStr "Test error handling for Login");
    ("severity", JStr "S2 - Major");
    ("priority", JStr "P2 - High");
    ("steps", JArr [JStr "1. Set up test environment";
                    JStr "2. Execute test steps";
                    JStr "3. Verify expected results";
                    JStr "4. Clean up test data"]);
    ("automation", JStr "Manual")];
   [("title", JStr "Verify Login - Boundary Test 3");
    ("description", JStr "Test boundary conditions for Login");
    ("severity", JStr "S3 - Moderate");
    ("priority", JStr "P3 - Medium");
    ("steps", JArr [JStr "1. Set up test environment";
                    JStr "2. Execute test steps";
                    JStr "3. Verify expected results";
                    JStr "4. Clean up test data"]);
    ("automation", JStr "Manual")]].

End Further.

(** * Properties *)

Import PyStr Py Config Notions EnhancedAIClient.

(** ** The model on inputs traced by hand *)

Section Checks.

Example validator_cleans :
  _validate_and_clean_scenario (JObj sample_candidate) = Ok (Some sample_record).
Proof. vm_compute. reflexivity. Qed.

Example validator_rejects_short_title :
  _validate_and_clean_scenario (JObj (titled "Login ok")) = Ok None.
Proof. vm_compute. reflexivity. Qed.

(** The length is that of the trimmed title: twelve characters, eight of
    them inside. *)
Example validator_trims_before_measuring :
  _validate_and_clean_scenario (JObj (titled "  Login ok  ")) = Ok None.
Proof. vm_compute. reflexivity. Qed.

Example validator_rejects_generic_title :
  _validate_and_clean_scenario (JObj (titled " Test Scenario ")) = Ok None.
Proof. vm_compute. reflexivity. Qed.

Example validator_raises_on_number :
  _validate_and_clean_scenario (JObj [("title", JNum 12345678901)]) = Raise AttributeError.
Proof. reflexivity. Qed.

Example validator_ignores_other_values :
  _validate_and_clean_scenario (JStr "Verify the login page") = Ok None.
Proof. reflexivity. Qed.

Example similarity_six_of_seven :
  _calculate_similarity "verify login works for the user"
                        "verify login works for the user now" = (6 # 7)%Q.
Proof. vm_compute. reflexivity. Qed.

Example similarity_of_blank : _calculate_similarity "" "verify login" = 0%Q.
Proof. vm_compute. reflexivity. Qed.

Example dedupe_keeps_first :
  _remove_duplicate_scenarios sample_scenarios
  = Ok [titled "Verify login works for the user"; titled "Verify logout works"].
Proof. vm_compute. reflexivity. Qed.

Example title_from_line :
  _clean_title_from_line "1. Title: 'Verify that the user can login'"
  = "Verify that the user can login".
Proof. vm_compute. reflexivity. Qed.

Example text_fallback_on_prose :
  (fun r => str_field r "title") <$> _improved_text_to_scenarios "no structure at all"
  = ["Test functionality scenario 1"; "Test functionality scenario 2";
     "Test functionality scenario 3"; "Test functionality scenario 4";
     "Test functionality scenario 5"; "Test functionality scenario 6"].
Proof. vm_compute. reflexivity. Qed.

Example bounder_pads_to_three :
  match AIServiceManager._ensure_scenario_limits sample_lib default_config
          [titled "Verify login works"] (sample_story "x") with
  | Ok out => (fun r => str_field r "title") <$> out
  | Raise _ => []
  end
  = ["Verify login works"; "Verify Login - Error Handling 2";
     "Verify Login - Boundary Test 3"].
Proof. vm_compute. reflexivity. Qed.

Example first_call_is_admitted :
  (_check_rate_limit (init 0) 10 "groq").1 = true.
Proof. vm_compute. reflexivity. Qed.

End Checks.

(** ** The rate budget *)

Section RateBudget.
Import EnhancedAIClient.

Lemma window_expired_false st t :
  within_window st t -> window_expired st t = false.
Proof.
  unfold within_window, window_expired. intros H.
  apply Qle_bool_iff in H. now rewrite H.
Qed.

Lemma window_expired_true st t :
  (3600 < t - last_reset_time st)%Q -> window_expired st t = true.
Proof.
  unfold window_expired. intros H.
  destruct (Qle_bool (t - last_reset_time st) 3600) eqn:E; [|reflexivity].
  apply Qle_bool_iff in E. exfalso. exact (Qlt_not_le _ _ H E).
Qed.

Lemma rate_limit_of_pos service : (0 < rate_limit_of service)%nat.
Proof.
  unfold rate_limit_of.
  destruct (llm_services !! service) as [c|] eqn:E; [|simpl; lia].
  unfold llm_services in E.
  apply lookup_insert_Some in E as [[_ <-]|[_ E]]; [simpl; lia|].
  apply lookup_insert_Some in E as [[_ <-]|[_ E]]; [simpl; lia|].
  apply lookup_singleton_Some in E as [_ <-]. simpl; lia.
Qed.

(** Inside the window a call only touches the counter of its service. *)
Lemma check_rate_limit_within st t service :
  within_window st t ->
  _check_rate_limit st t service =
    if (rate_limit_of service <=? counter st service)%nat then (false, st)
    else (true, set_request_counts st
                  (<[service := (counter st service + 1)%nat]> (request_counts st))
                  (last_reset_time st)).
Proof.
  intros H. unfold _check_rate_limit. now rewrite (window_expired_false _ _ H).
Qed.

Lemma counter_after_admit st service service' :
  counter (set_request_counts st
             (<[service' := (counter st service' + 1)%nat]> (request_counts st))
             (last_reset_time st)) service
  = if decide (service' = service) then (counter st service + 1)%nat else counter st service.
Proof.
  unfold counter at 1. simpl. rewrite lookup_insert.
  destruct (decide (service' = service)) as [->|]; reflexivity.
Qed.

(** The invariant of a run that stays inside one window: the window is
    kept, every call for [service] is admitted while the budget lasts, and
    the counter has grown by the number of those calls. *)
Lemma run_within_window service calls : forall st,
  Forall (fun c => within_window st c.1) calls ->
  (counter st service + length (calls_for service calls) <= rate_limit_of service)%nat ->
  forall oks st', check_rate_limit_run st calls = (oks, st') ->
    last_reset_time st' = last_reset_time st /\
    counter st' service = (counter st service + length (calls_for service calls))%nat /\
    (forall i t, calls !! i = Some (t, service) -> oks !! i = Some true).
Proof.
  induction calls as [|[t s] calls IH]; intros st Hwin Hbudget oks st' Hrun.
  - simpl in Hrun. injection Hrun as <- <-.
    split; [reflexivity|]. split; [simpl; lia|]. intros i t Hi. discriminate.
  - apply Forall_cons in Hwin as [Ht Hwin]. simpl in Ht.
    simpl in Hrun.
    destruct (_check_rate_limit st t s) as [ok st1] eqn:Hcall.
    destruct (check_rate_limit_run st1 calls) as [oks1 st2] eqn:Hrest.
    injection Hrun as <- <-.
    rewrite (check_rate_limit_within _ _ _ Ht) in Hcall.
    unfold calls_for in *. rewrite filter_cons in Hbudget |- *. simpl in Hbudget |- *.
    destruct (decide (s = service)) as [->|Hne].
    + simpl in Hbudget.
      destruct (rate_limit_of service <=? counter st service)%nat eqn:Hle.
      { apply Nat.leb_le in Hle. lia. }
      injection Hcall as <- <-.
      specialize (IH (set_request_counts st
                        (<[service := (counter st service + 1)%nat]> (request_counts st))
                        (last_reset_time st))).
      rewrite counter_after_admit in IH. rewrite decide_True in IH by reflexivity.
      destruct (IH Hwin ltac:(lia) _ _ Hrest) as (Hl & Hc & Hoks).
      split; [exact Hl|]. split; [simpl; lia|].
      intros [|i] t' Hi; [reflexivity|]. simpl in *. eauto.
    + assert (Hst1 : last_reset_time st1 = last_reset_time st /\
                     counter st1 service = counter st service).
      { destruct (rate_limit_of s <=? counter st s)%nat; injection Hcall as <- <-.
        - split; reflexivity.
        - split; [reflexivity|]. rewrite counter_after_admit.
          now rewrite decide_False. }
      destruct Hst1 as [Hl1 Hc1].
      assert (Hwin1 : Forall (fun c => within_window st1 c.1) calls).
      { eapply Forall_impl; [exact Hwin|]. intros c Hc. unfold within_window in *.
        now rewrite Hl1. }
      destruct (IH st1 Hwin1 ltac:(rewrite Hc1; lia) _ _ Hrest) as (Hl & Hc & Hoks).
      split; [congruence|]. split; [lia|].
      intros [|i] t' Hi; simpl in *; [congruence|eauto].
Qed.

(** C3. Rate budget. (1) From a state in which [service] has not been
    counted yet (a fresh window), any run of calls that stays inside the
    window and contains exactly [rate_limit_of service] calls for
    [service] admits every one of them, and the next call for [service]
    inside the window returns [False] and leaves the state, hence the
    counter (now equal to the limit), as it is. (2) From any state, a
    call made more than 3600 seconds after the last reset returns [True],
    restarts the window at that instant and leaves the counters holding
    just that service at 1. *)
Theorem check_rate_limit_budget :
  (forall st service calls oks st' t_next,
      request_counts st !! service = None ->
      Forall (fun c => within_window st c.1) calls ->
      length (calls_for service calls) = rate_limit_of service ->
      check_rate_limit_run st calls = (oks, st') ->
      within_window st' t_next ->
      (forall i t, calls !! i = Some (t, service) -> oks !! i = Some true) /\
      counter st' service = rate_limit_of service /\
      _check_rate_limit st' t_next service = (false, st')) /\
  (forall st t service,
      (3600 < t - last_reset_time st)%Q ->
      exists st',
        _check_rate_limit st t service = (true, st') /\
        request_counts st' = {[ service := 1%nat ]} /\
        last_reset_time st' = t).
Proof.
  split.
  - intros st service calls oks st' t_next Hfresh Hwin Hn Hrun Hnext.
    assert (Hc0 : counter st service = 0%nat) by (unfold counter; now rewrite Hfresh).
    destruct (run_within_window service calls st Hwin ltac:(lia) _ _ Hrun)
      as (_ & Hc & Hoks).
    split; [exact Hoks|]. split; [lia|].
    rewrite (check_rate_limit_within _ _ _ Hnext).
    replace (rate_limit_of service <=? counter st' service)%nat with true; [reflexivity|].
    symmetry. apply Nat.leb_le. lia.
  - intros st t service Hexp. unfold _check_rate_limit.
    rewrite (window_expired_true _ _ Hexp). simpl.
    rewrite lookup_empty. simpl.
    pose proof (rate_limit_of_pos service) as Hpos.
    destruct (rate_limit_of service <=? 0)%nat eqn:Hle.
    { apply Nat.leb_le in Hle. lia. }
    eexists. split; [reflexivity|]. split; reflexivity.
Qed.

End RateBudget.

(** ** Strings *)

Section Strings.

Lemma ascii_cases (P : ascii -> Prop) :
  (forall b0 b1 b2 b3 b4 b5 b6 b7, P (Ascii b0 b1 b2 b3 b4 b5 b6 b7)) -> forall c, P c.
Proof. intros H [b0 b1 b2 b3 b4 b5 b6 b7]. apply H. Qed.

Ltac by_ascii_cases :=
  let c := fresh "c" in
  intros c; pattern c; apply ascii_cases;
  intros [] [] [] [] [] [] [] []; vm_compute; try reflexivity; try discriminate; auto.

Lemma lower_char_marker : forall c, is_marker (lower_char c) = is_marker c.
Proof. by_ascii_cases. Qed.

Lemma upper_char_marker : forall c, is_marker (upper_char c) = is_marker c.
Proof. by_ascii_cases. Qed.

Lemma lower_upper_char : forall c, lower_char (upper_char c) = lower_char c.
Proof. by_ascii_cases. Qed.

Lemma lower_char_idem : forall c, lower_char (lower_char c) = lower_char c.
Proof. by_ascii_cases. Qed.

Lemma lower_char_space : forall c, isspace (lower_char c) = isspace c.
Proof. by_ascii_cases. Qed.

Lemma upper_of_lowered : forall c,
  islower (lower_char c) = true -> isupper (upper_char c) = true.
Proof. by_ascii_cases. Qed.

Lemma isupper_not_enum : forall c, isupper c = true -> is_enum_char c = false.
Proof. by_ascii_cases. Qed.

Lemma str_all_app p s1 s2 :
  str_all p (s1 +:+ s2) = str_all p s1 && str_all p s2.
Proof. induction s1 as [|c s1 IH]; simpl; [reflexivity|]. now rewrite IH, andb_assoc. Qed.

Lemma str_all_filter p s : str_all p (str_filter p s) = true.
Proof.
  induction s as [|c s IH]; simpl; [reflexivity|].
  destruct (p c) eqn:E; simpl; [now rewrite E|exact IH].
Qed.

Lemma str_all_lstrip p q s : str_all p s = true -> str_all p (lstrip_by q s) = true.
Proof.
  induction s as [|c s IH]; simpl; [auto|]. intros H.
  destruct (q c); [|exact H]. apply andb_true_iff in H as [_ H]. auto.
Qed.

Lemma str_all_rstrip p q s : str_all p s = true -> str_all p (rstrip_by q s) = true.
Proof.
  induction s as [|c s IH]; simpl; [auto|]. intros H.
  apply andb_true_iff in H as [Hc H]. specialize (IH H).
  destruct (rstrip_by q s) eqn:E.
  - destruct (q c); simpl; [reflexivity|]. now rewrite Hc.
  - simpl in *. now rewrite Hc, IH.
Qed.

Lemma str_all_strip p s : str_all p s = true -> str_all p (strip s) = true.
Proof. intros H. unfold strip. now apply str_all_rstrip, str_all_lstrip. Qed.

Lemma str_all_map p f s :
  (forall c, p (f c) = p c) -> str_all p (str_map f s) = str_all p s.
Proof. intros Hf. induction s as [|c s IH]; simpl; [reflexivity|]. now rewrite Hf, IH. Qed.

Lemma str_all_take p n s : str_all p s = true -> str_all p (str_take n s) = true.
Proof.
  revert s. induction n as [|n IH]; intros [|c s]; simpl; auto.
  intros H. apply andb_true_iff in H as [Hc H]. now rewrite Hc, IH.
Qed.

Lemma str_all_capitalize p s :
  (forall c, p (upper_char c) = p c) -> str_all p (capitalize_first s) = str_all p s.
Proof. intros Hp. destruct s as [|c s]; simpl; [reflexivity|]. now rewrite Hp. Qed.

Lemma str_take_length n s : (String.length (str_take n s) <= n)%nat.
Proof. revert s. induction n as [|n IH]; intros [|c s]; simpl; try lia. specialize (IH s). lia. Qed.

Lemma lower_app s1 s2 : lower (s1 +:+ s2) = lower s1 +:+ lower s2.
Proof. unfold lower. induction s1 as [|c s1 IH]; simpl; [reflexivity|]. now rewrite IH. Qed.

Lemma lower_idem s : lower (lower s) = lower s.
Proof. unfold lower. induction s as [|c s IH]; simpl; [reflexivity|]. now rewrite lower_char_idem, IH. Qed.

Lemma lower_capitalize s : lower (capitalize_first s) = lower s.
Proof. destruct s as [|c s]; simpl; [reflexivity|]. unfold lower. simpl. now rewrite lower_upper_char. Qed.

Lemma lower_take n s : lower (str_take n s) = str_take n (lower s).
Proof.
  unfold lower. revert s. induction n as [|n IH]; intros [|c s]; simpl; try reflexivity.
  now rewrite IH.
Qed.

Lemma prefix_take w : forall n s,
  String.prefix w s = true -> (String.length w <= n)%nat ->
  String.prefix w (str_take n s) = true.
Proof.
  induction w as [|a w IH]; intros n s H Hn.
  - destruct (str_take n s); reflexivity.
  - destruct s as [|c s]; [discriminate|]. simpl in Hn.
    destruct n as [|n]; [lia|]. simpl in H |- *.
    destruct (ascii_dec a c); [|discriminate]. apply IH; [exact H|lia].
Qed.

End Strings.

(** ** The validator *)

Section Validator.

Lemma action_words_shape w :
  In w action_words ->
  (String.length w <= 100)%nat /\ exists c w', w = String c w' /\ islower c = true.
Proof.
  unfold action_words. simpl.
  intros [<-|[<-|[<-|[<-|[<-|[<-|[]]]]]]]; (split; [simpl; lia|]);
    eexists _, _; (split; [reflexivity|reflexivity]).
Qed.

(** The title after the action-verb step, the capitalisation and the cut
    at 100 characters. *)
Lemma finished_title_clean t :
  str_all (fun c => negb (is_marker c)) t = true ->
  clean_title
    (str_take 100
       (capitalize_first
          (if existsb (startswith (lower t)) action_words then t
           else "Verify " +:+ lower t))).
Proof.
  intros Hnm.
  set (t3 := if existsb (startswith (lower t)) action_words then t else "Verify " +:+ lower t).
  assert (Hnm3 : str_all (fun c => negb (is_marker c)) t3 = true).
  { unfold t3. destruct (existsb _ _); [exact Hnm|].
    rewrite str_all_app. simpl. unfold lower. rewrite str_all_map; [exact Hnm|].
    intros c. now rewrite lower_char_marker. }
  assert (Hact : exists w, In w action_words /\ startswith (lower t3) w = true).
  { unfold t3. destruct (existsb _ _) eqn:E.
    - apply existsb_exists in E as (w & Hw & E). eauto.
    - exists "verify". split; [simpl; auto|].
      rewrite lower_app. reflexivity. }
  destruct Hact as (w & Hw & Hpre).
  destruct (action_words_shape w Hw) as (Hlen & c0 & w' & -> & Hc0).
  unfold startswith in Hpre.
  destruct t3 as [|a t3'] eqn:Et3; [discriminate|].
  assert (Ha : lower_char a = c0).
  { unfold lower in Hpre. simpl in Hpre.
    destruct (ascii_dec c0 (lower_char a)); [congruence|discriminate]. }
  assert (Hup : isupper (upper_char a) = true).
  { apply upper_of_lowered. now rewrite Ha. }
  unfold clean_title. simpl capitalize_first.
  repeat split.
  - apply str_all_take.
    change (String (upper_char a) t3') with (capitalize_first (String a t3')).
    rewrite str_all_capitalize; [exact Hnm3|].
    intros c. now rewrite upper_char_marker.
  - simpl. now apply isupper_not_enum.
  - exists (String c0 w'). split; [exact Hw|]. unfold startswith.
    rewrite lower_take. apply prefix_take; [|exact Hlen].
    change (String (upper_char a) t3') with (capitalize_first (String a t3')).
    now rewrite lower_capitalize.
  - simpl. exact Hup.
  - apply str_take_length.
Qed.










End Validator.

(** ** The enumerated fields *)

Section EnumFields.

(** C5, as written, fails: a candidate whose severity is free text is
    accepted and the record carries that text. *)
Lemma validator_passes_free_text : ~ validator_coerces_enums.
Proof.
  intros H.
  destruct (H [("title", JStr "Verify login page loads"); ("severity", JStr "urgent")] _
              ltac:(vm_compute; reflexivity)) as [Hsev _].
  vm_compute in Hsev. intuition discriminate.
Qed.

(** C5, amended. For every candidate dict the validator accepts, each of
    the fields severity, priority and automation of the returned record
    is the candidate's own value for that key, unchanged, when the key is
    present, and the default (S3 - Moderate, P3 - Medium, Manual) when the
    key is absent. *)
Theorem validate_enum_fields_default_when_absent (candidate record : dict) :
  _validate_and_clean_scenario (JObj candidate) = Ok (Some record) ->
  get_default record "severity" JNull
    = get_default candidate "severity" (JStr "S3 - Moderate") /\
  get_default record "priority" JNull
    = get_default candidate "priority" (JStr "P3 - Medium") /\
  get_default record "automation" JNull
    = get_default candidate "automation" (JStr "Manual").
Proof.
  unfold _validate_and_clean_scenario.
  destruct (get_default candidate "title" (JStr EmptyString)); try discriminate.
  cbn [as_str mbind result_bind]. cbv zeta.
  destruct (_ || _); [discriminate|].
  destruct (existsb _ generic_titles); [discriminate|].
  destruct (get_default candidate "description" (JStr EmptyString)); try discriminate.
  cbn [as_str mbind result_bind].
  intros Hrec. injection Hrec as <-.
  repeat split.
Qed.

End EnumFields.

(** ** The parse and repair cascade *)

Section CascadeTotal.
Context (L : pylib).

(** The padding loop of the line-oriented stage leaves its [while] with
    the condition false: six turns are enough. *)
Lemma pad_to_six_length fuel : forall scenarios,
  (6 <= length scenarios + fuel)%nat -> (6 <= length (pad_to_six fuel scenarios))%nat.
Proof.
  induction fuel as [|fuel IH]; intros scenarios H; cbn [pad_to_six];
    destruct (length scenarios <? 6)%nat eqn:E;
    try (apply Nat.ltb_ge in E; lia); try (apply Nat.ltb_lt in E; lia).
  apply IH. rewrite length_app. simpl. lia.
Qed.

(** The last stage synthesizes at least six records from any text. *)
Lemma text_fallback_yields text : (6 <= length (_improved_text_to_scenarios text))%nat.
Proof. unfold _improved_text_to_scenarios. apply pad_to_six_length. lia. Qed.

(** C2. For every implementation of [json] and [re] and every response
    text, [_improved_parse_scenarios] returns a list, never raises, and
    the list is the one the staged reading of the specification picks:
    the first of direct parse, bracket extraction, repair and field
    extraction that yields, each consulted only when the ones before it
    yielded nothing, the line-oriented fallback otherwise and whenever a
    stage fails with anything but a decoding error. *)
Theorem improved_parse_scenarios_total (response_text : string) :
  _improved_parse_scenarios L response_text = Ok (cascade_spec L response_text).
Proof.
  unfold _improved_parse_scenarios, cascade_spec, first_yield.
  unfold stage_direct, stage_bracket, stage_repair, stage_fields, stage_text.
  generalize (_improved_text_to_scenarios response_text) as fallback. intros fallback.
  destruct (parse_array L response_text) as [[direct|]|[]];
    cbn [try_except try_except_json mbind result_bind outcome_of]; try reflexivity.
  all: destruct (re_search L array_pattern (_clean_response_text L response_text) [])
         as [m|];
    cbn [try_except try_except_json mbind result_bind outcome_of].
  all: try (destruct (parse_array L (group m 0)) as [[bracket|]|[]];
    cbn [try_except try_except_json mbind result_bind outcome_of]; try reflexivity).
  all: try (destruct (String.eqb (_fix_malformed_json L (group m 0)) EmptyString);
    cbn [negb try_except try_except_json mbind result_bind outcome_of]).
  all: try (destruct (parse_array L (_fix_malformed_json L (group m 0))) as [[fixed|]|[]];
    cbn [try_except try_except_json mbind result_bind outcome_of]; try reflexivity).
  all: destruct (_extract_json_like_scenarios L response_text); reflexivity.
Qed.

End CascadeTotal.

(** ** Deduplication *)

Section Dedupe.

Lemma split_ws_lstrip s : split_ws (lstrip_by isspace s) = split_ws s.
Proof.
  induction s as [|c s IH]; [reflexivity|]. simpl.
  destruct (isspace c) eqn:E; [exact IH|]. simpl. now rewrite E.
Qed.

Lemma rstrip_head p s a r :
  rstrip_by p s = String a r -> exists s', s = String a s'.
Proof.
  destruct s as [|c s]; simpl; [discriminate|].
  destruct (rstrip_by p s); [destruct (p c)|]; intros H; try discriminate;
    injection H as <- _; eauto.
Qed.

Lemma split_ws_rstrip s : split_ws (rstrip_by isspace s) = split_ws s.
Proof.
  induction s as [|c s IH]; [reflexivity|]. simpl.
  destruct (rstrip_by isspace s) as [|a r] eqn:Er.
  - simpl in IH. destruct (isspace c) eqn:E.
    + now rewrite <- IH.
    + simpl. rewrite E, <- IH. now destruct (split_ws_head s).
  - destruct (rstrip_head _ _ _ _ Er) as [s' ->].
    change (split_ws (String c (String a r))) with
      (if isspace c then split_ws (String a r)
       else if isspace a then String c EmptyString :: split_ws (String a r)
       else match split_ws (String a r) with
            | w :: ws => String c w :: ws
            | [] => [String c EmptyString]
            end).
    rewrite IH. reflexivity.
Qed.

Lemma split_ws_strip s : split_ws (strip s) = split_ws s.
Proof. unfold strip. now rewrite split_ws_rstrip, split_ws_lstrip. Qed.

Lemma split_ws_lower s : split_ws (lower s) = lower <$> split_ws s.
Proof.
  unfold lower. induction s as [|c s IH]; [reflexivity|].
  simpl. rewrite lower_char_space.
  destruct (isspace c); [exact IH|].
  replace (split_ws_head (str_map lower_char s)) with (split_ws_head s)
    by (destruct s; simpl; [reflexivity|now rewrite lower_char_space]).
  rewrite IH. destruct (split_ws_head s); [reflexivity|].
  now destruct (split_ws s).
Qed.

(** The words of the normalised title are the words of the title. *)
Lemma word_set_normalised t : word_set (strip (lower t)) = word_set t.
Proof.
  unfold word_set.
  now rewrite split_ws_lower, split_ws_strip, <- split_ws_lower, lower_idem.
Qed.

Lemma union_nonempty (a b : gset string) : a <> ∅ -> (0 <? size (a ∪ b))%nat = true.
Proof.
  intros Ha. apply Nat.ltb_lt.
  destruct (size (a ∪ b)) eqn:E; [|lia].
  apply size_empty_iff in E. exfalso. apply Ha.
  apply leibniz_equiv. set_solver.
Qed.

(** What the code computes on two normalised titles is the Jaccard index
    of the word sets of the titles. *)
Lemma calculate_similarity_jaccard t1 t2 :
  _calculate_similarity (strip (lower t1)) (strip (lower t2))
  = jaccard (word_set t1) (word_set t2).
Proof.
  unfold _calculate_similarity, jaccard. rewrite !word_set_normalised.
  destruct (bool_decide (word_set t1 = ∅)) eqn:E1; [reflexivity|].
  destruct (bool_decide (word_set t2 = ∅)) eqn:E2; [reflexivity|].
  simpl. apply bool_decide_eq_false in E1.
  now rewrite (union_nonempty _ _ E1).
Qed.

Lemma jaccard_sym a b : jaccard a b = jaccard b a.
Proof.
  unfold jaccard. rewrite orb_comm.
  now rewrite (intersection_comm_L a b), (union_comm_L a b).
Qed.

Lemma title_similarity_sym r1 r2 : title_similarity r1 r2 = title_similarity r2 r1.
Proof. apply jaccard_sym. Qed.

Lemma exceeds_threshold_false q : exceeds_threshold q = false <-> (q <= 8 # 10)%Q.
Proof.
  unfold exceeds_threshold. rewrite negb_false_iff. apply Qle_bool_iff.
Qed.

Lemma existsb_iff {A B} (f : A -> bool) (g : B -> bool) l1 l2 :
  ((exists x, In x l1 /\ f x = true) <-> (exists y, In y l2 /\ g y = true)) ->
  existsb f l1 = existsb g l2.
Proof.
  intros H. apply eq_true_iff_eq. now rewrite !existsb_exists.
Qed.

(** The test over the set of seen titles is the test over the kept
    records. *)
Lemma duplicate_test (kept : list dict) (t : string) :
  existsb (fun seen_title =>
             exceeds_threshold (_calculate_similarity (strip (lower t)) seen_title))
          (elements (list_to_set ((fun r => strip (lower (title_of r))) <$> kept) : gset string))
  = existsb (fun a => exceeds_threshold (jaccard (word_set t) (word_set (title_of a)))) kept.
Proof.
  apply existsb_iff. split.
  - intros (x & Hx & E). apply list_elem_of_In, elem_of_elements in Hx.
    apply elem_of_list_to_set, list_elem_of_fmap in Hx as (a & -> & Ha).
    exists a. split; [now apply list_elem_of_In|].
    now rewrite <- calculate_similarity_jaccard.
  - intros (a & Ha & E). exists (strip (lower (title_of a))). split.
    + apply list_elem_of_In, elem_of_elements, elem_of_list_to_set, list_elem_of_fmap.
      exists a. split; [reflexivity|now apply list_elem_of_In].
    + now rewrite calculate_similarity_jaccard.
Qed.

(** The loop of the code follows the worded rule, whatever was kept so
    far. *)
Lemma dedupe_each_refines scenarios : forall unique_scenarios,
  Forall has_str_title scenarios ->
  dedupe_each scenarios unique_scenarios
    (list_to_set ((fun r => strip (lower (title_of r))) <$> unique_scenarios))
  = Ok (first_seen_wins unique_scenarios scenarios).
Proof.
  induction scenarios as [|r rest IH]; intros kept Hstr; [reflexivity|].
  apply Forall_cons in Hstr as [[t Ht] Hstr].
  assert (Htr : title_of r = t) by (unfold title_of; now rewrite Ht).
  cbn [dedupe_each first_seen_wins]. rewrite Ht. cbn [as_str mbind result_bind].
  cbv zeta. rewrite duplicate_test.
  unfold title_similarity. rewrite Htr.
  destruct (existsb _ kept); [now apply IH|].
  rewrite <- IH by exact Hstr. f_equal.
  rewrite fmap_app, list_to_set_app_L. simpl. rewrite Htr.
  rewrite union_empty_r_L. apply union_comm_L.
Qed.

Lemma first_seen_wins_extends records : forall kept,
  exists added, first_seen_wins kept records = kept ++ added /\ sublist added records.
Proof.
  induction records as [|r rest IH]; intros kept; simpl.
  - exists []. split; [now rewrite app_nil_r|constructor].
  - destruct (existsb _ kept).
    + destruct (IH kept) as (added & -> & Hsub).
      exists added. split; [reflexivity|now apply sublist_cons].
    + destruct (IH (kept ++ [r])) as (added & -> & Hsub).
      exists (r :: added). split; [now rewrite <- app_assoc|now apply sublist_skip].
Qed.

Lemma no_near_duplicates_snoc kept r :
  no_near_duplicates kept ->
  Forall (fun a => (title_similarity a r <= 8 # 10)%Q) kept ->
  no_near_duplicates (kept ++ [r]).
Proof.
  induction kept as [|a kept IH]; simpl; [intros; split; [constructor|exact I]|].
  intros [Ha Hk] Hr. apply Forall_cons in Hr as [Har Hr].
  split; [|now apply IH].
  apply Forall_app. split; [exact Ha|]. now constructor.
Qed.

Lemma first_seen_wins_distinct records : forall kept,
  no_near_duplicates kept -> no_near_duplicates (first_seen_wins kept records).
Proof.
  induction records as [|r rest IH]; intros kept Hk; simpl; [exact Hk|].
  destruct (existsb _ kept) eqn:E; [now apply IH|].
  apply IH, no_near_duplicates_snoc; [exact Hk|].
  apply Forall_forall. intros a Ha.
  rewrite title_similarity_sym. apply exceeds_threshold_false.
  destruct (exceeds_threshold (title_similarity r a)) eqn:E'; [|reflexivity].
  assert (existsb (fun a => exceeds_threshold (title_similarity r a)) kept = true)
    by (apply existsb_exists; exists a; split; [now apply list_elem_of_In|exact E']).
  congruence.
Qed.

End Dedupe.

(** ** The bounder *)

Section BounderProps.
Import AIServiceManager.
Context (L : pylib) (cfg : ai_config).

Lemma order_get_hashable table v : hashable v -> exists n, order_get table v = Ok n.
Proof. destruct v; simpl; intros H; try contradiction; eauto. Qed.

Lemma scenario_score_rankable scenario :
  rankable scenario -> scenario_score scenario = Ok (score scenario).
Proof.
  intros [Hp Hs]. unfold score, scenario_score.
  destruct (order_get_hashable priority_order _ Hp) as [p ->].
  destruct (order_get_hashable severity_order _ Hs) as [v ->].
  reflexivity.
Qed.

Lemma score_each_rankable scenarios :
  Forall rankable scenarios ->
  score_each scenarios = Ok ((fun r => (score r, r)) <$> scenarios).
Proof.
  induction 1 as [|r rest Hr _ IH]; [reflexivity|].
  cbn [score_each]. rewrite (scenario_score_rankable _ Hr), IH. reflexivity.
Qed.

Lemma insert_scored_perm x l : Permutation (insert_scored x l) (x :: l).
Proof.
  induction l as [|y l IH]; simpl; [reflexivity|].
  destruct (fst y <? fst x)%nat; [|reflexivity].
  rewrite IH. apply perm_swap.
Qed.

Lemma sort_scored_perm l : Permutation (sort_scored l) l.
Proof.
  induction l as [|x l IH]; simpl; [reflexivity|].
  rewrite insert_scored_perm. now constructor.
Qed.

Lemma insert_scored_sorted x l :
  StronglySorted fst_le l -> StronglySorted fst_le (insert_scored x l).
Proof.
  induction 1 as [|y l Hs IH Hy]; simpl; [repeat constructor|].
  destruct (fst y <? fst x)%nat eqn:E.
  - apply Nat.ltb_lt in E. constructor; [exact IH|].
    rewrite (Forall_forall (fst_le y)). intros z Hz.
    apply list_elem_of_In in Hz.
    apply (Permutation_in _ (insert_scored_perm x l)) in Hz as [<-|Hz].
    + unfold fst_le. lia.
    + rewrite Forall_forall in Hy. apply Hy. now apply list_elem_of_In.
  - apply Nat.ltb_ge in E. constructor; [now constructor|].
    constructor; [exact E|].
    eapply Forall_impl; [exact Hy|]. unfold fst_le. intros z Hz. lia.
Qed.

Lemma sort_scored_sorted l : StronglySorted fst_le (sort_scored l).
Proof.
  induction l as [|x l IH]; simpl; [constructor|]. now apply insert_scored_sorted.
Qed.

Lemma sorted_snd (l : list (nat * dict)) :
  Forall (fun p => fst p = score (snd p)) l ->
  StronglySorted fst_le l -> StronglySorted score_le (snd <$> l).
Proof.
  intros Hl Hs. induction Hs as [|p l Hs IH Hp]; simpl; [constructor|].
  apply Forall_cons in Hl as [Hp0 Hl]. constructor; [now apply IH|].
  apply Forall_fmap. rewrite Forall_forall in Hp, Hl |- *.
  intros q Hq. unfold score_le. simpl.
  specialize (Hp q Hq). specialize (Hl q Hq). unfold fst_le in Hp. lia.
Qed.

(** Ranking sorts: a permutation of the records in ascending order of the
    score. *)
Lemma prioritize_scenarios_sorts scenarios :
  Forall rankable scenarios ->
  exists sorted,
    _prioritize_scenarios scenarios = Ok sorted /\
    Permutation sorted scenarios /\
    StronglySorted score_le sorted.
Proof.
  intros Hr. unfold _prioritize_scenarios. rewrite (score_each_rankable _ Hr).
  cbn [mbind result_bind]. eexists. split; [reflexivity|]. split.
  - rewrite (sort_scored_perm _). rewrite <- list_fmap_compose.
    unfold compose. simpl. now rewrite list_fmap_id.
  - apply sorted_snd; [|apply sort_scored_sorted].
    rewrite Forall_forall. intros p Hp. apply list_elem_of_In in Hp.
    apply (Permutation_in _ (sort_scored_perm _)) in Hp.
    apply in_map_iff in Hp as (r & <- & _). reflexivity.
Qed.

Lemma generate_basic_scenario_ok story index :
  story_fields_ok story -> exists record, _generate_basic_scenario L story index = Ok record.
Proof.
  intros [fields Hf]. unfold _generate_basic_scenario. rewrite Hf.
  cbn [as_dict mbind result_bind]. eauto.
Qed.

(** The padding loop, given fuel for the missing records, appends the
    template records for the next indices and stops at the minimum. *)
Lemma pad_to_min_pads story (Hstory : story_fields_ok story) fuel : forall scenarios,
  (min_scenarios cfg - Z.of_nat (length scenarios) <= Z.of_nat fuel)%Z ->
  exists padding,
    pad_to_min L cfg fuel scenarios story = Ok (scenarios ++ padding) /\
    length padding = Z.to_nat (min_scenarios cfg - Z.of_nat (length scenarios)) /\
    padding_for L story (S (length scenarios)) padding.
Proof.
  induction fuel as [|fuel IH]; intros scenarios Hfuel.
  - exists []. cbn [pad_to_min].
    replace (Z.of_nat (length scenarios) <? min_scenarios cfg)%Z with false
      by (symmetry; apply Z.ltb_ge; lia).
    rewrite app_nil_r. split; [reflexivity|]. split; [simpl; lia|constructor].
  - cbn [pad_to_min].
    destruct (Z.of_nat (length scenarios) <? min_scenarios cfg)%Z eqn:E.
    + apply Z.ltb_lt in E.
      destruct (generate_basic_scenario_ok story (Z.of_nat (length scenarios) + 1) Hstory)
        as [b Hb].
      rewrite Hb. cbn [mbind result_bind].
      destruct (IH (scenarios ++ [b])) as (padding & Hpad & Hlen & Hfor).
      { rewrite length_app. simpl. lia. }
      exists (b :: padding). rewrite Hpad, <- app_assoc.
      split; [reflexivity|].
      rewrite length_app in Hlen, Hfor. simpl in Hlen, Hfor.
      split; [simpl; lia|].
      unfold padding_for in *. simpl. constructor.
      * now replace (Z.of_nat (S (length scenarios))) with (Z.of_nat (length scenarios) + 1)%Z
          by lia.
      * now replace (S (S (length scenarios))) with (S (length scenarios + 1)) by lia.
    + apply Z.ltb_ge in E. exists []. rewrite app_nil_r.
      split; [reflexivity|]. split; [simpl; lia|constructor].
Qed.

(** The bounder on rankable records and a story with fields, under bounds
    with [min <= max] and [0 <= max]. *)
Lemma ensure_scenario_limits_spec scenarios story :
  (min_scenarios cfg <= max_scenarios cfg)%Z ->
  (0 <= max_scenarios cfg)%Z ->
  story_fields_ok story ->
  Forall rankable scenarios ->
  exists out,
    _ensure_scenario_limits L cfg scenarios story = Ok out /\
    bounded_result L cfg scenarios story out.
Proof.
  intros Hmm Hmax Hstory Hrank. unfold _ensure_scenario_limits. cbv zeta.
  destruct (pad_to_min_pads story Hstory
              (Z.to_nat (min_scenarios cfg - Z.of_nat (length scenarios))) scenarios)
    as (padding & -> & Hlen & Hfor); [lia|].
  cbn [mbind result_bind]. rewrite length_app.
  destruct (Z_lt_le_dec (Z.of_nat (length scenarios)) (min_scenarios cfg)) as [Hlt|Hge].
  - (* padded up to the minimum *)
    replace (max_scenarios cfg <? Z.of_nat (length scenarios + length padding))%Z with false
      by (symmetry; apply Z.ltb_ge; lia).
    eexists. split; [reflexivity|]. unfold bounded_result. rewrite length_app.
    split; [lia|]. split; [|split; intros; lia].
    intros _. exists padding. split; [reflexivity|]. split; [lia|exact Hfor].
  - (* nothing to pad *)
    assert (padding = []) as -> by (apply length_zero_iff_nil; lia).
    rewrite app_nil_r. simpl length. rewrite Nat.add_0_r.
    destruct (max_scenarios cfg <? Z.of_nat (length scenarios))%Z eqn:E.
    + apply Z.ltb_lt in E.
      destruct (prioritize_scenarios_sorts scenarios Hrank) as (sorted & -> & Hperm & Hsort).
      cbn [mbind result_bind]. eexists. split; [reflexivity|].
      unfold slice_to. replace (0 <=? max_scenarios cfg)%Z with true
        by (symmetry; apply Z.leb_le; lia).
      unfold bounded_result. rewrite length_take, (Permutation_length Hperm).
      split; [lia|]. split; [intros; lia|]. split; [|intros; lia].
      intros _. exists sorted. auto.
    + apply Z.ltb_ge in E. eexists. split; [reflexivity|].
      unfold bounded_result. split; [lia|]. split; [intros; lia|].
      split; [intros; lia|reflexivity].
Qed.

(** A list whose length is within the bounds goes through unchanged,
    whatever it holds. *)
Lemma ensure_scenario_limits_within scenarios story :
  (min_scenarios cfg <= Z.of_nat (length scenarios) <= max_scenarios cfg)%Z ->
  _ensure_scenario_limits L cfg scenarios story = Ok scenarios.
Proof.
  intros [Hmin Hmax]. unfold _ensure_scenario_limits. cbv zeta.
  assert (Hpad : forall fuel, pad_to_min L cfg fuel scenarios story = Ok scenarios).
  { intros [|fuel]; cbn [pad_to_min];
      replace (Z.of_nat (length scenarios) <? min_scenarios cfg)%Z with false
        by (symmetry; apply Z.ltb_ge; lia); reflexivity. }
  rewrite Hpad. cbn [mbind result_bind].
  replace (max_scenarios cfg <? Z.of_nat (length scenarios))%Z with false
    by (symmetry; apply Z.ltb_ge; lia).
  reflexivity.
Qed.

(** C8. For every list of rankable scenario records and every story with
    fields, under bounds with [min <= max] and [0 <= max], the bounder is
    idempotent: it returns a list, and applied to that list it returns it
    unchanged. *)
Theorem ensure_scenario_limits_idempotent scenarios story :
  (min_scenarios cfg <= max_scenarios cfg)%Z ->
  (0 <= max_scenarios cfg)%Z ->
  story_fields_ok story ->
  Forall rankable scenarios ->
  exists out,
    _ensure_scenario_limits L cfg scenarios story = Ok out /\
    _ensure_scenario_limits L cfg out story = Ok out.
Proof.
  intros Hmm Hmax Hstory Hrank.
  destruct (ensure_scenario_limits_spec scenarios story Hmm Hmax Hstory Hrank)
    as (out & Hout & Hlen & _).
  exists out. split; [exact Hout|]. now apply ensure_scenario_limits_within.
Qed.

End BounderProps.

(** ** The fingerprint cache *)

Section Cache.
Context (L : pylib).

Lemma check_rate_limit_keeps_cache st t service :
  cache_enabled (_check_rate_limit st t service).2 = cache_enabled st /\
  scenario_cache (_check_rate_limit st t service).2 = scenario_cache st.
Proof.
  unfold _check_rate_limit.
  destruct (window_expired st t); cbv zeta;
    match goal with |- context [if ?b then _ else _] => destruct b end;
    split; reflexivity.
Qed.

Lemma ultra_fast_generation_keeps_cache O cfg st now story :
  cache_enabled (_ultra_fast_generation L O cfg st now story).2 = cache_enabled st /\
  scenario_cache (_ultra_fast_generation L O cfg st now story).2 = scenario_cache st.
Proof.
  unfold _ultra_fast_generation.
  destruct groq_enabled; [|split; reflexivity].
  pose proof (check_rate_limit_keeps_cache st now "groq") as H.
  destruct (_check_rate_limit st now "groq") as [allowed st1]. simpl in H.
  destruct allowed; [|exact H].
  destruct (_ && _); exact H.
Qed.



(** With the cache on, a call ends in one of two ways: the text it
    returns is in the cache under the fingerprint of the story (it was
    there, or the call has just stored it), or the body raised, the text
    is the answer of the fallback client and the cache is as it was. *)
Lemma generate_stores_or_falls_back O cfg st now story :
  cache_enabled st = true ->
  cached_for L (generate_comprehensive_test_scenarios L O cfg st now story).2 story
             (generate_comprehensive_test_scenarios L O cfg st now story).1 \/
  ((generate_comprehensive_test_scenarios L O cfg st now story).1
   = CursorAIClient.generate_test_scenarios L O story /\
   scenario_cache (generate_comprehensive_test_scenarios L O cfg st now story).2
   = scenario_cache st).
Proof.
  intros Hon. unfold generate_comprehensive_test_scenarios, cached_for. cbv zeta.
  destruct (_generate_cache_key L story) as [key|]; [|right; split; reflexivity].
  rewrite Hon.
  destruct (scenario_cache st !! key) as [cached|] eqn:Hin; [left; eauto|].
  destruct (_fast_story_analysis L story); [|right; split; reflexivity].
  pose proof (ultra_fast_generation_keeps_cache O cfg st now story) as [Hflag Hcache].
  destruct (_ultra_fast_generation L O cfg st now story) as [scenarios st1].
  simpl in Hflag, Hcache.
  destruct (_validate_and_enhance_scenarios _ _ _); [|right; split; [reflexivity|exact Hcache]].
  left. exists key. split; [reflexivity|].
  rewrite Hflag, Hon. simpl. apply lookup_insert_eq.
Qed.




End Cache.

(** ** The entry point *)

Section EntryPointProps.
Context (L : pylib).

(** The class has no attribute of the name the entry point calls. *)
Lemma no_generate_basic_scenarios story :
  AIServiceManager.call_generate_basic_scenarios story = Raise AttributeError.
Proof. reflexivity. Qed.

Lemma groq_enabled_true : groq_enabled = true.
Proof. vm_compute. reflexivity. Qed.

(** The fallback client answers a blank story with the empty list. *)
Lemma cursor_blank_story O :
  CursorAIClient.generate_test_scenarios L O blank_story = json_dumps L None (JArr []).
Proof. reflexivity. Qed.

(** So does the enhanced client, from an empty cache and without a token
    for the remote service. *)
Lemma enhanced_blank_story O cfg st now :
  groq_token cfg = EmptyString ->
  scenario_cache st = ∅ ->
  json_loads L (json_dumps L None (JArr [])) = Ok (JArr []) ->
  (generate_comprehensive_test_scenarios L O cfg st now blank_story).1
  = json_dumps L (Some 2%nat) (JArr []).
Proof.
  intros Htoken Hcache Hloads.
  assert (Hgroq : _groq_ultra_fast L O cfg blank_story = []).
  { unfold _groq_ultra_fast. now rewrite Htoken. }
  assert (Hfb : _get_fallback_scenarios L O blank_story = []).
  { unfold _get_fallback_scenarios. rewrite cursor_blank_story, Hloads. reflexivity. }
  assert (Hfast : (_ultra_fast_generation L O cfg st now blank_story).1 = []).
  { unfold _ultra_fast_generation. rewrite groq_enabled_true, Hgroq.
    destruct (_check_rate_limit st now "groq") as [[] st1]; reflexivity. }
  unfold generate_comprehensive_test_scenarios. cbv zeta.
  change (_generate_cache_key L blank_story)
    with (Ok (str_take 8 (md5_hexdigest L EmptyString))).
  rewrite Hcache, lookup_empty.
  replace (if cache_enabled st then None else None) with (@None string)
    by (now destruct (cache_enabled st)).
  destruct (_fast_story_analysis L blank_story) eqn:Ea; [|discriminate Ea].
  destruct (_ultra_fast_generation L O cfg st now blank_story) as [scenarios st1].
  simpl in Hfast. subst scenarios.
  rewrite Hfb. reflexivity.
Qed.

(** C1 fails on the code in two ways. (1) On a story whose summary and
    description are blank, with an empty cache and no token for the
    remote service, both clients answer the empty list and the entry
    point hands that text back: the result decodes to no record at all.
    (2) The branch for basic scenarios calls a method the class does not
    have: when the enhanced call raises, or when it yields an empty list
    and the fallback yields no text, the entry point raises
    AttributeError. *)
Theorem generate_test_scenarios_empty_or_raises :
  (empty_list_codec L ->
   forall O cfg st now,
     groq_token cfg = EmptyString ->
     scenario_cache st = ∅ ->
     (AIServiceManager.generate_test_scenarios L O cfg st now blank_story).1 = Ok "[]" /\
     json_loads L "[]" = Ok (JArr [])) /\
  (forall e fallback_call story,
     AIServiceManager.generate_test_scenarios_from L (Raise e) fallback_call story
     = Raise AttributeError) /\
  (forall enhanced_result story,
     json_loads L enhanced_result = Ok (JArr []) ->
     AIServiceManager.generate_test_scenarios_from L (Ok enhanced_result) (Ok EmptyString) story
     = Raise AttributeError).
Proof.
  split; [|split].
  - intros (Hd0 & Hd2 & Hl) O cfg st now Htoken Hcache.
    split; [|exact Hl].
    unfold AIServiceManager.generate_test_scenarios.
    pose proof (enhanced_blank_story O cfg st now Htoken Hcache) as He.
    rewrite Hd0, Hd2 in He. specialize (He Hl).
    destruct (generate_comprehensive_test_scenarios L O cfg st now blank_story)
      as [enhanced_result st1].
    simpl in He. subst enhanced_result. rewrite cursor_blank_story, Hd0.
    unfold AIServiceManager.generate_test_scenarios_from.
    cbn [mbind result_bind fst]. simpl String.eqb. cbn [negb]. rewrite Hl.
    reflexivity.
  - intros e fallback_call story. reflexivity.
  - intros enhanced_result story Hl.
    unfold AIServiceManager.generate_test_scenarios_from.
    cbn [mbind result_bind]. rewrite Hl.
    destruct (negb (String.eqb enhanced_result EmptyString)); reflexivity.
Qed.

End EntryPointProps.

(** ** The statements on concrete inputs *)

Section Witnesses.

Lemma check_rate_limit_budget_witness :
  (request_counts (init 0) !! "groq" = None /\
   Forall (fun c => within_window (init 0) c.1) sample_calls /\
   length (calls_for "groq" sample_calls) = rate_limit_of "groq" /\
   within_window (check_rate_limit_run (init 0) sample_calls).2 2) /\
  (counter (check_rate_limit_run (init 0) sample_calls).2 "groq" = rate_limit_of "groq" /\
   _check_rate_limit (check_rate_limit_run (init 0) sample_calls).2 2 "groq"
   = (false, (check_rate_limit_run (init 0) sample_calls).2)) /\
  ((3600 < 3601 - last_reset_time (init 0))%Q /\
   exists st',
     _check_rate_limit (init 0) 3601 "groq" = (true, st') /\
     request_counts st' = {[ "groq" := 1%nat ]} /\
     last_reset_time st' = 3601%Q).
Proof.
  assert (H1 : request_counts (init 0) !! "groq" = None) by reflexivity.
  assert (H2 : Forall (fun c => within_window (init 0) c.1) sample_calls).
  { apply Forall_replicate. vm_compute. discriminate. }
  assert (H3 : length (calls_for "groq" sample_calls) = rate_limit_of "groq")
    by (vm_compute; reflexivity).
  assert (H4 : within_window (check_rate_limit_run (init 0) sample_calls).2 2)
    by (vm_compute; discriminate).
  assert (H5 : (3600 < 3601 - last_reset_time (init 0))%Q) by (vm_compute; reflexivity).
  split; [auto|]. split.
  - destruct (proj1 check_rate_limit_budget (init 0) "groq" sample_calls
                (check_rate_limit_run (init 0) sample_calls).1
                (check_rate_limit_run (init 0) sample_calls).2 2%Q
                H1 H2 H3 (surjective_pairing _) H4) as (_ & Hc & Hnext).
    auto.
  - split; [exact H5|].
    exact (proj2 check_rate_limit_budget (init 0) 3601%Q "groq" H5).
Defined.

Lemma validate_enum_fields_default_when_absent_witness :
  _validate_and_clean_scenario (JObj sample_candidate) = Ok (Some sample_record) /\
  get_default sample_record "severity" JNull
    = get_default sample_candidate "severity" (JStr "S3 - Moderate") /\
  get_default sample_record "priority" JNull
    = get_default sample_candidate "priority" (JStr "P3 - Medium") /\
  get_default sample_record "automation" JNull
    = get_default sample_candidate "automation" (JStr "Manual").
Proof.
  assert (H : _validate_and_clean_scenario (JObj sample_candidate) = Ok (Some sample_record))
    by (vm_compute; reflexivity).
  split; [exact H|].
  exact (validate_enum_fields_default_when_absent sample_candidate sample_record H).
Defined.

Lemma ensure_scenario_limits_idempotent_witness :
  ((min_scenarios default_config <= max_scenarios default_config)%Z /\
   (0 <= max_scenarios default_config)%Z /\
   story_fields_ok (sample_story "x") /\
   Forall rankable [titled "Verify login works"]) /\
  exists out,
    AIServiceManager._ensure_scenario_limits sample_lib default_config
      [titled "Verify login works"] (sample_story "x") = Ok out /\
    AIServiceManager._ensure_scenario_limits sample_lib default_config
      out (sample_story "x") = Ok out.
Proof.
  assert (H1 : (min_scenarios default_config <= max_scenarios default_config)%Z)
    by (simpl; lia).
  assert (H2 : (0 <= max_scenarios default_config)%Z) by (simpl; lia).
  assert (H3 : story_fields_ok (sample_story "x")) by (eexists; reflexivity).
  assert (H4 : Forall rankable [titled "Verify login works"]) by (repeat constructor).
  split; [auto|].
  exact (ensure_scenario_limits_idempotent sample_lib default_config
           [titled "Verify login works"] (sample_story "x") H1 H2 H3 H4).
Defined.



Lemma generate_test_scenarios_empty_or_raises_witness :
  (empty_list_codec sample_lib /\
   groq_token default_config = EmptyString /\
   scenario_cache (init 0) = ∅ /\
   json_loads sample_lib "[]" = Ok (JArr [])) /\
  (AIServiceManager.generate_test_scenarios sample_lib sample_oracle default_config
     (init 0) 1 blank_story).1 = Ok "[]" /\
  AIServiceManager.generate_test_scenarios_from sample_lib
    (Raise TypeError) (Ok "[]") blank_story = Raise AttributeError /\
  AIServiceManager.generate_test_scenarios_from sample_lib
    (Ok "[]") (Ok EmptyString) blank_story = Raise AttributeError.
Proof.
  assert (H1 : empty_list_codec sample_lib) by (repeat split).
  assert (H2 : groq_token default_config = EmptyString) by reflexivity.
  assert (H3 : scenario_cache (init 0) = ∅) by reflexivity.
  assert (H4 : json_loads sample_lib "[]" = Ok (JArr [])) by reflexivity.
  destruct (generate_test_scenarios_empty_or_raises sample_lib) as (Ha & Hb & Hc).
  split; [auto|].
  split; [exact (proj1 (Ha H1 sample_oracle default_config (init 0) 1%Q H2 H3))|].
  split; [exact (Hb TypeError (Ok "[]") blank_story)|].
  exact (Hc "[]" blank_story H4).
Defined.

End Witnesses.

(** * Further properties of the code

    Properties read off the code itself: of the functions above, of the
    other functions of the two clients, and of the caller of the entry
    point in [app/generators/story_test_generator.py]. *)

Import Further.

(** ** The rate budget over arbitrary runs *)

Section RateInvariant.

Lemma check_rate_limit_counter st t service service' :
  (counter (_check_rate_limit st t service).2 service'
   <= Nat.max (counter st service') (rate_limit_of service'))%nat.
Proof.
  unfold _check_rate_limit. cbv zeta.
  destruct (window_expired st t).
  - match goal with |- context [if ?b then _ else _] => destruct b eqn:E end; simpl.
    + unfold counter. simpl. rewrite lookup_empty. simpl. lia.
    + unfold counter at 1. simpl. rewrite lookup_insert.
      destruct (decide (service = service')) as [->|]; simpl.
      * rewrite lookup_empty. simpl. pose proof (rate_limit_of_pos service'). lia.
      * rewrite lookup_empty. simpl. lia.
  - match goal with |- context [if ?b then _ else _] => destruct b eqn:E end; simpl.
    + lia.
    + apply Nat.leb_gt in E. rewrite counter_after_admit.
      destruct (decide (service = service')) as [->|]; unfold counter in *; lia.
Qed.

(** X1. Whatever the clock readings and the services of a run of calls,
    a state in which no counter is above its limit is followed by such a
    state: the budget of a service is never overdrawn. *)
Theorem check_rate_limit_never_overdraws st calls :
  within_limits st -> within_limits (check_rate_limit_run st calls).2.
Proof.
  revert st. induction calls as [|[t s] calls IH]; intros st Hst; [exact Hst|].
  simpl. pose proof (fun service' => check_rate_limit_counter st t s service') as Hstep.
  destruct (_check_rate_limit st t s) as [ok st1]. simpl in Hstep.
  specialize (IH st1).
  destruct (check_rate_limit_run st1 calls) as [oks st2]. simpl in *.
  apply IH. intros service'. specialize (Hstep service'). specialize (Hst service'). lia.
Qed.

(** X2. In a run that stays inside one window, the calls for a service
    that are admitted are as many as the budget left allows and no more:
    the number of [True] answers is the smaller of the number of calls
    for the service and the room under its limit. *)
Theorem check_rate_limit_admits_up_to_budget service calls : forall st oks st',
  Forall (fun c => within_window st c.1) calls ->
  check_rate_limit_run st calls = (oks, st') ->
  admitted_for service calls oks
  = Nat.min (length (calls_for service calls)) (rate_limit_of service - counter st service).
Proof.
  induction calls as [|[t s] calls IH]; intros st oks st' Hwin Hrun.
  - simpl in Hrun. injection Hrun as <- <-. reflexivity.
  - apply Forall_cons in Hwin as [Ht Hwin]. simpl in Ht. simpl in Hrun.
    destruct (_check_rate_limit st t s) as [ok st1] eqn:Hcall.
    destruct (check_rate_limit_run st1 calls) as [oks1 st2] eqn:Hrest.
    injection Hrun as <- <-.
    rewrite (check_rate_limit_within _ _ _ Ht) in Hcall.
    unfold calls_for in *. rewrite filter_cons. cbn [admitted_for]. simpl snd.
    assert (Hwin' : last_reset_time st1 = last_reset_time st ->
                    Forall (fun c => within_window st1 c.1) calls).
    { intros Hl. eapply Forall_impl; [exact Hwin|]. intros c Hc.
      unfold within_window in *. now rewrite Hl. }
    destruct (rate_limit_of s <=? counter st s)%nat eqn:Hle; injection Hcall as <- <-.
    + apply Nat.leb_le in Hle. rewrite (IH st _ _ Hwin Hrest).
      rewrite andb_false_r. simpl Nat.add.
      destruct (decide (s = service)) as [->|]; cbn [length]; lia.
    + apply Nat.leb_gt in Hle. rewrite (IH _ _ _ (Hwin' eq_refl) Hrest).
      rewrite counter_after_admit, andb_true_r.
      destruct (decide (s = service)) as [->|Hne].
      * rewrite bool_decide_eq_true_2 by reflexivity. cbn [length]. lia.
      * rewrite bool_decide_eq_false_2 by exact Hne. cbn [length]. lia.
Qed.

End RateInvariant.

(** ** Similarity *)

Section Similarity.

Lemma pos_of_nat_Z u : (0 < u)%nat -> Z.pos (Pos.of_nat u) = Z.of_nat u.
Proof. intros H. rewrite <- positive_nat_Z, Nat2Pos.id by lia. reflexivity. Qed.

Lemma inter_sub_union (a b : gset string) : a ∩ b ⊆ a ∪ b.
Proof.
  intros x Hx. apply elem_of_intersection in Hx as [Hx _].
  apply elem_of_union. auto.
Qed.

Lemma inter_le_union (a b : gset string) : (size (a ∩ b) <= size (a ∪ b))%nat.
Proof. apply subseteq_size, inter_sub_union. Qed.

Lemma inter_union_eq (a b : gset string) : a ∩ b ≡ a ∪ b -> a = b.
Proof.
  intros H. apply set_eq. intros x.
  split; intros Hx.
  - assert (Hu : x ∈ a ∪ b) by (apply elem_of_union; auto).
    apply H, elem_of_intersection in Hu. tauto.
  - assert (Hu : x ∈ a ∪ b) by (apply elem_of_union; auto).
    apply H, elem_of_intersection in Hu. tauto.
Qed.

Lemma calculate_similarity_sym t1 t2 :
  _calculate_similarity t1 t2 = _calculate_similarity t2 t1.
Proof.
  unfold _calculate_similarity. cbv zeta.
  generalize (word_set t1) (word_set t2). intros a b. rewrite orb_comm.
  now rewrite (union_comm_L a b), (intersection_comm_L a b).
Qed.

(** The shape of the value: zero, or the quotient of the two sizes with a
    non-empty union. *)
Lemma calculate_similarity_cases t1 t2 :
  (word_set t1 = ∅ \/ word_set t2 = ∅) /\ _calculate_similarity t1 t2 = 0%Q \/
  (word_set t1 <> ∅ /\ word_set t2 <> ∅ /\
   (0 < size (word_set t1 ∪ word_set t2))%nat /\
   _calculate_similarity t1 t2
   = (Z.of_nat (size (word_set t1 ∩ word_set t2))
      # Pos.of_nat (size (word_set t1 ∪ word_set t2)))%Q).
Proof.
  unfold _calculate_similarity. cbv zeta.
  destruct (bool_decide (word_set t1 = ∅)) eqn:E1.
  { apply bool_decide_eq_true in E1. left. auto. }
  destruct (bool_decide (word_set t2 = ∅)) eqn:E2.
  { apply bool_decide_eq_true in E2. left. auto. }
  apply bool_decide_eq_false in E1. apply bool_decide_eq_false in E2.
  right. simpl. pose proof (union_nonempty _ (word_set t2) E1) as Hu.
  rewrite Hu. apply Nat.ltb_lt in Hu. auto.
Qed.

(** X3. The similarity of two texts does not depend on their order and is
    a number between 0 and 1. *)
Theorem calculate_similarity_symmetric_bounded t1 t2 :
  _calculate_similarity t1 t2 = _calculate_similarity t2 t1 /\
  (0 <= _calculate_similarity t1 t2)%Q /\
  (_calculate_similarity t1 t2 <= 1)%Q.
Proof.
  split; [apply calculate_similarity_sym|].
  destruct (calculate_similarity_cases t1 t2) as [[_ ->]|(_ & _ & Hu & ->)].
  - split; unfold Qle; simpl; lia.
  - pose proof (inter_le_union (word_set t1) (word_set t2)).
    split; unfold Qle; simpl; rewrite ?pos_of_nat_Z by exact Hu; lia.
Qed.

(** X4. The similarity is 1 exactly when the two texts have the same
    words, up to case, order, repetition and spacing, and have at least
    one; it is 0 exactly when they share no word, which includes every
    text without words. *)
Theorem calculate_similarity_extremes t1 t2 :
  ((_calculate_similarity t1 t2 == 1)%Q
   <-> word_set t1 = word_set t2 /\ word_set t1 <> ∅) /\
  ((_calculate_similarity t1 t2 == 0)%Q
   <-> word_set t1 ∩ word_set t2 = ∅).
Proof.
  destruct (calculate_similarity_cases t1 t2) as [[He ->]|(H1 & H2 & Hu & ->)].
  - split; split.
    + intros H. discriminate H.
    + intros [Heq Hne]. destruct He as [He|He]; congruence.
    + intros _. destruct He as [He|He]; rewrite He.
      * apply intersection_empty_l_L.
      * apply intersection_empty_r_L.
    + reflexivity.
  - pose proof (inter_le_union (word_set t1) (word_set t2)) as Hle.
    revert H1 H2 Hu Hle. generalize (word_set t1) (word_set t2).
    intros a b H1 H2 Hu Hle.
    unfold Qeq. simpl. rewrite pos_of_nat_Z by exact Hu. split; split.
    + intros H. split; [|exact H1]. apply inter_union_eq.
      apply set_subseteq_size_equiv; [apply inter_sub_union|lia].
    + intros [Heq _]. subst b.
      rewrite (intersection_idemp_L a), (union_idemp_L a). lia.
    + intros H. apply leibniz_equiv. apply size_empty_iff. lia.
    + intros ->. rewrite size_empty. lia.
Qed.

End Similarity.

(** ** Deduplication, further *)

Section DedupeMore.

Lemma no_near_duplicates_app_inv kept r rest :
  no_near_duplicates (kept ++ r :: rest) ->
  Forall (fun a => (title_similarity a r <= 8 # 10)%Q) kept.
Proof.
  induction kept as [|a kept IH]; simpl; [constructor|].
  intros [Ha Hk]. constructor; [|now apply IH].
  apply Forall_app in Ha as [_ Ha]. now apply Forall_cons in Ha as [Ha _].
Qed.

Lemma Forall_of_sublist {A} (P : A -> Prop) (l k : list A) :
  sublist l k -> Forall P k -> Forall P l.
Proof.
  induction 1 as [|x l k _ IH|x l k _ IH]; intros H; [constructor| |].
  - apply Forall_cons in H as [Hx H]. constructor; auto.
  - apply Forall_cons in H as [_ H]. auto.
Qed.

(** The rule keeps every record of a list without near duplicates. *)
Lemma first_seen_wins_keeps_distinct rest : forall kept,
  no_near_duplicates (kept ++ rest) -> first_seen_wins kept rest = kept ++ rest.
Proof.
  induction rest as [|r rest IH]; intros kept H; simpl; [now rewrite app_nil_r|].
  pose proof (no_near_duplicates_app_inv _ _ _ H) as Hr.
  replace (existsb (fun a => exceeds_threshold (title_similarity r a)) kept) with false.
  - rewrite IH; rewrite <- app_assoc; [reflexivity|exact H].
  - symmetry. apply not_true_is_false. intros E.
    apply existsb_exists in E as (a & Ha & E).
    rewrite Forall_forall in Hr. specialize (Hr a (proj2 (list_elem_of_In _ _) Ha)).
    rewrite title_similarity_sym in Hr. apply exceeds_threshold_false in Hr. congruence.
Qed.

Lemma remove_duplicate_scenarios_refines (scenarios : list dict) :
  Forall has_str_title scenarios ->
  _remove_duplicate_scenarios scenarios = Ok (dedupe_spec scenarios).
Proof. intros Hstr. exact (dedupe_each_refines scenarios [] Hstr). Qed.

(** X5. Deduplication is idempotent on records whose titles are strings:
    it returns a list, and applied to that list it returns it unchanged. *)
Theorem remove_duplicate_scenarios_idempotent (scenarios : list dict) :
  Forall has_str_title scenarios ->
  exists out,
    _remove_duplicate_scenarios scenarios = Ok out /\
    _remove_duplicate_scenarios out = Ok out.
Proof.
  intros Hstr. exists (dedupe_spec scenarios).
  split; [now apply remove_duplicate_scenarios_refines|].
  assert (Hsub : sublist (dedupe_spec scenarios) scenarios).
  { unfold dedupe_spec.
    destruct (first_seen_wins_extends scenarios []) as (added & -> & Hsub). exact Hsub. }
  rewrite remove_duplicate_scenarios_refines by exact (Forall_of_sublist _ _ _ Hsub Hstr).
  f_equal. apply (first_seen_wins_keeps_distinct _ []).
  now apply (first_seen_wins_distinct scenarios []).
Qed.

Lemma dedupe_each_outcome scenarios : forall unique_scenarios seen_titles,
  match dedupe_each scenarios unique_scenarios seen_titles with
  | Ok _ => Forall has_str_title scenarios
  | Raise e => e = AttributeError /\ ~ Forall has_str_title scenarios
  end.
Proof.
  induction scenarios as [|r rest IH]; intros kept seen; [constructor|].
  cbn [dedupe_each].
  destruct (get_default r "title" (JStr EmptyString)) as [| | |s| |] eqn:Et;
    cbn [as_str mbind result_bind]; cbv zeta.
  4: {
    match goal with |- context [if ?b then _ else _] => destruct b end.
    - specialize (IH kept seen). destruct (dedupe_each rest kept seen).
      + constructor; [exists s; exact Et|exact IH].
      + destruct IH as [-> Hn]. split; [reflexivity|].
        intros H. apply Forall_cons in H as [_ H]. auto.
    - specialize (IH (kept ++ [r]) ({[strip (lower s)]} ∪ seen)).
      destruct (dedupe_each rest _ _).
      + constructor; [exists s; exact Et|exact IH].
      + destruct IH as [-> Hn]. split; [reflexivity|].
        intros H. apply Forall_cons in H as [_ H]. auto. }
  all: split; [reflexivity|]; intros H; apply Forall_cons in H as [[s Hs] _];
    congruence.
Qed.

(** X6. Deduplication returns a list exactly when every title that is
    present is a string; one title of another type anywhere in the input,
    even on a record that would have been left out, makes the whole call
    raise AttributeError. *)
Theorem remove_duplicate_scenarios_raises_on_bad_title (scenarios : list dict) :
  ((exists out, _remove_duplicate_scenarios scenarios = Ok out)
   <-> Forall has_str_title scenarios) /\
  (~ Forall has_str_title scenarios ->
   _remove_duplicate_scenarios scenarios = Raise AttributeError).
Proof.
  unfold _remove_duplicate_scenarios.
  pose proof (dedupe_each_outcome scenarios [] ∅) as H.
  destruct (dedupe_each scenarios [] ∅) as [out|e].
  - split; [split; eauto|]. intros Hn. contradiction.
  - destruct H as [-> Hn]. split; [|reflexivity].
    split; [intros [out Hout]; discriminate|intros; contradiction].
Qed.

Lemma first_seen_wins_keeps_blank records : forall kept r,
  word_set (title_of r) = ∅ ->
  r ∈ kept ++ records -> r ∈ first_seen_wins kept records.
Proof.
  induction records as [|x rest IH]; intros kept r Hblank Hin; simpl.
  - now rewrite app_nil_r in Hin.
  - destruct (existsb (fun a => exceeds_threshold (title_similarity x a)) kept) eqn:E.
    + apply IH; [exact Hblank|].
      apply elem_of_app in Hin as [Hin|Hin]; [apply elem_of_app; auto|].
      apply elem_of_cons in Hin as [->|Hin]; [|apply elem_of_app; auto].
      exfalso. apply existsb_exists in E as (a & _ & E).
      unfold title_similarity, jaccard in E. rewrite Hblank in E.
      rewrite bool_decide_eq_true_2 in E by reflexivity. discriminate E.
    + apply IH; [exact Hblank|]. rewrite <- app_assoc. exact Hin.
Qed.

(** X7. A record whose title has no word (blank, or absent) is never
    taken for a duplicate: every such record of the input is in the
    output, however many there are. *)
Theorem remove_duplicate_scenarios_keeps_blank_titles (scenarios : list dict) (r : dict) :
  Forall has_str_title scenarios ->
  r ∈ scenarios ->
  word_set (title_of r) = ∅ ->
  exists out, _remove_duplicate_scenarios scenarios = Ok out /\ r ∈ out.
Proof.
  intros Hstr Hin Hblank. exists (dedupe_spec scenarios).
  split; [now apply remove_duplicate_scenarios_refines|].
  now apply first_seen_wins_keeps_blank.
Qed.

End DedupeMore.


(** ** The records the cascade returns *)

Section CascadeRecords.
Context (L : pylib).

Lemma capitalized_head t w :
  In w action_words -> startswith (lower t) w = true ->
  head_is isupper (capitalize_first t) = true.
Proof.
  intros Hw Hpre.
  destruct (action_words_shape w Hw) as (_ & c0 & w' & -> & Hc0).
  unfold startswith in Hpre. destruct t as [|a t]; [discriminate|].
  unfold lower in Hpre. simpl in Hpre.
  destruct (ascii_dec c0 (lower_char a)) as [->|]; [|discriminate].
  simpl. now apply upper_of_lowered.
Qed.

Lemma create_quality_scenario_quality title :
  quality_record (_create_quality_scenario title).
Proof.
  unfold _create_quality_scenario. cbv zeta.
  set (t := strip title).
  destruct (startswith_any (lower t) ["verify"; "test"; "check"; "validate"; "ensure"]) eqn:E.
  - destruct t as [|c s] eqn:Et; [discriminate E|].
    exists (capitalize_first (String c s)).
    split; [now rewrite lower_capitalize|]. split; [|reflexivity].
    apply existsb_exists in E as (w & Hw & E).
    apply (capitalized_head _ w); [|exact E].
    simpl in Hw |- *. tauto.
  - exists ("Verify " +:+ lower t). repeat split.
Qed.

Lemma quality_record_presentable r : quality_record r -> presentable r.
Proof.
  intros (title & Hverb & Hup & ->). unfold presentable.
  split; [reflexivity|]. split; [|split].
  - exists title. split; [reflexivity|]. split; [exact Hup|].
    unfold startswith_any in *. apply existsb_exists in Hverb as (w & Hw & E).
    apply existsb_exists. exists w. split; [|exact E]. simpl in Hw |- *. tauto.
  - eexists. reflexivity.
  - exists quality_steps. split; [reflexivity|]. simpl. lia.
Qed.

Lemma scan_lines_quality lines : forall scenarios,
  Forall quality_record scenarios -> (length scenarios < 8)%nat ->
  Forall quality_record (scan_lines lines scenarios) /\
  (length (scan_lines lines scenarios) <= 8)%nat.
Proof.
  induction lines as [|line rest IH]; intros scenarios Hq Hlen; cbn [scan_lines].
  { split; [exact Hq|lia]. }
  cbv zeta.
  destruct (_ || _); [now apply IH|].
  destruct (startswith_any _ _); [now apply IH|].
  destruct (existsb _ _); [|now apply IH].
  destruct (_ && _); [|now apply IH].
  assert (Hq' : Forall quality_record
                  (scenarios ++ [_create_quality_scenario (_clean_title_from_line (strip line))])).
  { apply Forall_app. split; [exact Hq|].
    constructor; [apply create_quality_scenario_quality|constructor]. }
  destruct (8 <=? _)%nat eqn:E.
  - split; [exact Hq'|]. rewrite length_app. simpl. lia.
  - apply Nat.leb_gt in E. now apply IH.
Qed.

Lemma pad_to_six_quality fuel : forall scenarios,
  Forall quality_record scenarios -> (length scenarios <= 8)%nat ->
  Forall quality_record (pad_to_six fuel scenarios) /\
  (length (pad_to_six fuel scenarios) <= 8)%nat.
Proof.
  induction fuel as [|fuel IH]; intros scenarios Hq Hlen; cbn [pad_to_six];
    destruct (length scenarios <? 6)%nat eqn:E; try (split; [exact Hq|exact Hlen]).
  apply Nat.ltb_lt in E. apply IH.
  - apply Forall_app. split; [exact Hq|].
    constructor; [apply create_quality_scenario_quality|constructor].
  - rewrite length_app. simpl. lia.
Qed.

Lemma text_fallback_quality text :
  Forall quality_record (_improved_text_to_scenarios text) /\
  (length (_improved_text_to_scenarios text) <= 8)%nat.
Proof.
  unfold _improved_text_to_scenarios. cbv zeta.
  destruct (scan_lines_quality (split_on (ascii_of_nat 10) text) []) as [Hq Hlen];
    [constructor|simpl; lia|].
  now apply pad_to_six_quality.
Qed.

(** X8. The line-oriented fallback returns between six and eight records
    for every text, the empty one included, and each of them is a
    synthesized record: a capitalised title that starts with one of the
    five verbs, the description derived from the title, the four fixed
    steps and the default severity, priority and automation status. *)
Theorem improved_text_to_scenarios_six_to_eight (text : string) :
  (6 <= length (_improved_text_to_scenarios text) <= 8)%nat /\
  Forall quality_record (_improved_text_to_scenarios text).
Proof.
  destruct (text_fallback_quality text) as [Hq Hlen].
  split; [split; [apply text_fallback_yields|exact Hlen]|exact Hq].
Qed.

Lemma validate_and_clean_scenario_presentable candidate record :
  _validate_and_clean_scenario candidate = Ok (Some record) -> presentable record.
Proof.
  intros H. destruct candidate as [| | | | |d]; try discriminate H.
  unfold _validate_and_clean_scenario in H.
  destruct (get_default d "title" (JStr EmptyString)) as [| | |s| |];
    cbn [as_str mbind result_bind] in H; try discriminate H.
  cbv zeta in H.
  destruct (_ || _); [discriminate H|].
  destruct (existsb _ generic_titles); [discriminate H|].
  destruct (get_default d "description" (JStr EmptyString)) as [| | |dd| |];
    cbn [as_str mbind result_bind] in H; try discriminate H.
  match type of H with
  | Ok (Some [(_, JStr (str_take 100 (capitalize_first
                 (if _ then ?t0 else _))));
              (_, JStr ?d); (_, JArr (JStr <$> take 5 ?st)); _; _; _]) = _ =>
      pose proof (finished_title_clean t0) as Hct;
      set (D := d) in *; set (ST := st) in *
  end.
  match type of Hct with _ -> clean_title ?t => set (T := t) in * end.
  injection H as <-.
  assert (Hclean : clean_title T).
  { apply Hct. apply str_all_strip, str_all_lstrip, str_all_strip.
    apply (str_all_filter (fun c => negb (is_marker c))). }
  destruct Hclean as (_ & _ & (w & Hw & Hpre) & Hup & _).
  unfold presentable. split; [reflexivity|]. split; [|split].
  - exists T. split; [reflexivity|]. split; [exact Hup|].
    apply existsb_exists. eauto.
  - exists D. reflexivity.
  - exists (take 5 ST). split; [reflexivity|].
    rewrite length_take. subst ST.
    match goal with |- context [match ?l with [] => _ | _ => _ end] => destruct l end;
      cbn [length default_steps]; lia.
Qed.

Lemma clean_each_presentable scenarios : forall cleaned out,
  Forall presentable cleaned ->
  clean_each scenarios cleaned = Ok out -> Forall presentable out.
Proof.
  induction scenarios as [|s rest IH]; intros cleaned out Hc H; cbn [clean_each] in H.
  { now injection H as <-. }
  destruct (_validate_and_clean_scenario s) as [[c|]|e] eqn:Ev;
    cbn [mbind result_bind] in H; [| |discriminate H].
  - apply (IH (cleaned ++ [c])); [|exact H].
    apply Forall_app. split; [exact Hc|].
    constructor; [|constructor].
    exact (validate_and_clean_scenario_presentable _ _ Ev).
  - now apply (IH cleaned).
Qed.

Lemma parse_array_presentable text out :
  parse_array L text = Ok (Some out) -> Forall presentable out.
Proof.
  unfold parse_array. destruct (json_loads L text) as [[| | | |[|s ss]|]|e];
    cbn [mbind result_bind]; try discriminate.
  destruct (clean_each (s :: ss) []) as [cleaned|e] eqn:Ec;
    cbn [mbind result_bind]; [|discriminate].
  intros H. injection H as <-.
  apply (clean_each_presentable _ _ _ (Forall_nil_2 _) Ec).
Qed.

Lemma extract_scenario_from_text_presentable text record :
  _extract_scenario_from_text L text = Some record -> presentable record.
Proof.
  unfold _extract_scenario_from_text. cbv zeta.
  destruct (truthy _); [|discriminate].
  destruct (_validate_and_clean_scenario _) as [r|e] eqn:Ev; [|discriminate].
  intros ->. exact (validate_and_clean_scenario_presentable _ _ Ev).
Qed.

Lemma extract_each_presentable matches : forall scenarios out,
  Forall presentable scenarios ->
  extract_each L matches scenarios = Ok out -> Forall presentable out.
Proof.
  induction matches as [|m rest IH]; intros scenarios out Hs H; cbn [extract_each] in H.
  { now injection H as <-. }
  match type of H with
  | (x ← ?step; _) = _ => destruct step as [scenarios'|e] eqn:Estep
  end; cbn [mbind result_bind] in H; [|discriminate H].
  apply (IH scenarios'); [|exact H].
  assert (Hsnoc : forall c, presentable c -> Forall presentable (scenarios ++ [c])).
  { intros c Hc. apply Forall_app. split; [exact Hs|]. now constructor. }
  assert (Htext : forall out',
             match _extract_scenario_from_text L m with
             | Some c => Ok (scenarios ++ [c])
             | None => Ok scenarios
             end = Ok out' -> Forall presentable out').
  { intros out'. destruct (_extract_scenario_from_text L m) as [c|] eqn:Et;
      intros Ho; injection Ho as <-; [|exact Hs].
    apply Hsnoc. exact (extract_scenario_from_text_presentable _ _ Et). }
  destruct (json_loads L m) as [v|e]; cbn [mbind result_bind try_except_json] in Estep.
  - destruct v as [| | | | |d]; cbn [try_except_json] in Estep;
      try (injection Estep as <-; exact Hs).
    destruct (has_key d "title"); [|cbn [try_except_json] in Estep; injection Estep as <-; exact Hs].
    destruct (_validate_and_clean_scenario (JObj d)) as [[c|]|e] eqn:Ev;
      cbn [mbind result_bind try_except_json] in Estep.
    + injection Estep as <-. apply Hsnoc.
      exact (validate_and_clean_scenario_presentable _ _ Ev).
    + injection Estep as <-. exact Hs.
    + destruct e; try discriminate Estep. now apply Htext.
  - destruct e; try discriminate Estep. now apply Htext.
Qed.

Lemma extract_json_like_scenarios_presentable text out :
  _extract_json_like_scenarios L text = Some out -> Forall presentable out.
Proof.
  unfold _extract_json_like_scenarios.
  destruct (extract_each L _ []) as [[|c cs]|e] eqn:E; try discriminate.
  intros H. injection H as <-.
  apply (extract_each_presentable _ _ _ (Forall_nil_2 _) E).
Qed.

Lemma improved_parse_scenarios_presentable_aux (response_text : string) :
  exists out,
    _improved_parse_scenarios L response_text = Ok out /\ Forall presentable out.
Proof.
  assert (Hfb : Forall presentable (_improved_text_to_scenarios response_text)).
  { eapply Forall_impl; [apply text_fallback_quality|].
    intros r. apply quality_record_presentable. }
  unfold _improved_parse_scenarios.
  revert Hfb. generalize (_improved_text_to_scenarios response_text) as fallback.
  intros fallback Hfb.
  pose proof (parse_array_presentable response_text) as Hd.
  destruct (parse_array L response_text) as [[direct|]|[]];
    cbn [try_except try_except_json mbind result_bind]; eauto.
  all: destruct (re_search L array_pattern (_clean_response_text L response_text) [])
         as [m|];
    cbn [try_except try_except_json mbind result_bind].
  all: try (pose proof (parse_array_presentable (group m 0)) as Hb;
    destruct (parse_array L (group m 0)) as [[bracket|]|[]];
    cbn [try_except try_except_json mbind result_bind]; eauto).
  all: try (destruct (String.eqb (_fix_malformed_json L (group m 0)) EmptyString);
    cbn [negb try_except try_except_json mbind result_bind]).
  all: try (pose proof (parse_array_presentable (_fix_malformed_json L (group m 0))) as Hf;
    destruct (parse_array L (_fix_malformed_json L (group m 0))) as [[fixed|]|[]];
    cbn [try_except try_except_json mbind result_bind]; eauto).
  all: pose proof (extract_json_like_scenarios_presentable response_text) as Hx;
    destruct (_extract_json_like_scenarios L response_text); eauto.
Qed.

(** X9. Whatever the response text and whatever [json] and [re] do, the
    cascade returns a list and every record of it is fit for display: the
    six fields, a string title that starts with a capital letter and an
    action verb, a string description, and one to five steps that are
    strings. *)
Theorem improved_parse_scenarios_records_presentable (response_text : string) :
  exists out,
    _improved_parse_scenarios L response_text = Ok out /\ Forall presentable out.
Proof. apply improved_parse_scenarios_presentable_aux. Qed.

(** X10. A response that decodes to a non-empty array whose every element
    the validator rejects makes the cascade return the empty list: the
    later stages, the line-oriented fallback included, are not tried. *)
Theorem improved_parse_scenarios_empty_on_rejected_array
    (response_text : string) (candidates : list json) :
  json_loads L response_text = Ok (JArr candidates) ->
  candidates <> [] ->
  Forall (fun c => _validate_and_clean_scenario c = Ok None) candidates ->
  _improved_parse_scenarios L response_text = Ok [].
Proof.
  intros Hload Hne Hrej.
  assert (Hclean : clean_each candidates [] = Ok []).
  { clear Hload Hne. induction Hrej as [|c cs Hc _ IH]; [reflexivity|].
    cbn [clean_each]. rewrite Hc. exact IH. }
  unfold _improved_parse_scenarios, parse_array. rewrite Hload.
  destruct candidates as [|c cs]; [congruence|].
  cbn [mbind result_bind]. rewrite Hclean. reflexivity.
Qed.

End CascadeRecords.


(** ** Generation and its cache *)

Section GenerationMore.
Context (L : pylib) (O : oracle) (cfg : ai_config).

Lemma groq_ultra_fast_presentable story :
  (length (_groq_ultra_fast L O cfg story) <= 10)%nat /\
  Forall presentable (_groq_ultra_fast L O cfg story) /\
  (groq_token cfg = EmptyString -> _groq_ultra_fast L O cfg story = []).
Proof.
  unfold _groq_ultra_fast.
  destruct (String.eqb (groq_token cfg) EmptyString) eqn:Et.
  { split; [simpl; lia|]. split; [constructor|reflexivity]. }
  apply String.eqb_neq in Et.
  split; [|split; [|intros; contradiction]].
  - destruct (as_dict _); [|simpl; lia].
    destruct (groq_post O _); [|simpl; lia].
    destruct (_improved_parse_scenarios L _); [|simpl; lia].
    rewrite length_take. lia.
  - destruct (as_dict _); [|constructor].
    destruct (groq_post O _) as [content|]; [|constructor].
    destruct (improved_parse_scenarios_presentable_aux L content) as (out & -> & Hout).
    now apply Forall_take.
Qed.

(** X11. The remote generation always spends one rate-limit check on the
    remote service, with or without a token: the state it leaves is the
    state of that check. What it returns is the empty list, or five to
    ten records fit for display; the latter only when the check admitted
    the call and a token is configured. *)
Theorem ultra_fast_generation_all_or_nothing st now story :
  (_ultra_fast_generation L O cfg st now story).2 = (_check_rate_limit st now "groq").2 /\
  ((_ultra_fast_generation L O cfg st now story).1 = [] \/
   ((5 <= length (_ultra_fast_generation L O cfg st now story).1 <= 10)%nat /\
    Forall presentable (_ultra_fast_generation L O cfg st now story).1 /\
    (_check_rate_limit st now "groq").1 = true /\
    groq_token cfg <> EmptyString)).
Proof.
  unfold _ultra_fast_generation. rewrite groq_enabled_true.
  destruct (_check_rate_limit st now "groq") as [allowed st1]. cbn [fst snd].
  destruct allowed; [|split; [reflexivity|left; reflexivity]].
  destruct (groq_ultra_fast_presentable story) as (Hlen & Hpres & Htok).
  cbv zeta.
  destruct (negb (bool_decide (_groq_ultra_fast L O cfg story = []))
            && (5 <=? length (_groq_ultra_fast L O cfg story))%nat) eqn:E;
    [|split; [reflexivity|left; reflexivity]].
  apply andb_true_iff in E as [Hne E]. apply Nat.leb_le in E.
  split; [reflexivity|]. right. cbn [fst snd].
  split; [lia|]. split; [exact Hpres|]. split; [reflexivity|].
  intros Ht. rewrite (Htok Ht) in E. simpl in E. lia.
Qed.

(** X12. A call never overwrites or evicts an entry of the cache, and the
    only key it can add is the fingerprint of its story. *)
Theorem generate_cache_only_grows st now story :
  (forall k v,
      scenario_cache st !! k = Some v ->
      scenario_cache (generate_comprehensive_test_scenarios L O cfg st now story).2 !! k
      = Some v) /\
  (forall k,
      _generate_cache_key L story <> Ok k ->
      scenario_cache (generate_comprehensive_test_scenarios L O cfg st now story).2 !! k
      = scenario_cache st !! k).
Proof.
  unfold generate_comprehensive_test_scenarios. cbv zeta.
  destruct (_generate_cache_key L story) as [key|]; [|split; intros; simpl; auto].
  destruct (if cache_enabled st then scenario_cache st !! key else None) eqn:Hhit;
    [split; intros; simpl; auto|].
  destruct (_fast_story_analysis L story); [|split; intros; simpl; auto].
  pose proof (ultra_fast_generation_keeps_cache L O cfg st now story) as [Hflag Hcache].
  destruct (_ultra_fast_generation L O cfg st now story) as [scenarios st1].
  simpl in Hflag, Hcache.
  destruct (_validate_and_enhance_scenarios _ _ _);
    [|split; intros; simpl; congruence].
  simpl. rewrite Hflag.
  destruct (cache_enabled st) eqn:Hon; [|split; intros; simpl; congruence].
  simpl. rewrite Hcache. split.
  - intros k v Hk. rewrite lookup_insert_ne; [exact Hk|congruence].
  - intros k Hk. rewrite lookup_insert_ne; [reflexivity|congruence].
Qed.

Lemma check_rate_limit_ignores_cache st t service c :
  _check_rate_limit (set_scenario_cache st c) t service
  = ((_check_rate_limit st t service).1,
     set_scenario_cache (_check_rate_limit st t service).2 c).
Proof.
  unfold _check_rate_limit, window_expired. simpl.
  destruct (negb _); cbv zeta; simpl;
    match goal with |- context [if ?b then _ else _] => destruct b end; reflexivity.
Qed.

Lemma ultra_fast_generation_ignores_cache st now story c :
  _ultra_fast_generation L O cfg (set_scenario_cache st c) now story
  = ((_ultra_fast_generation L O cfg st now story).1,
     set_scenario_cache (_ultra_fast_generation L O cfg st now story).2 c).
Proof.
  unfold _ultra_fast_generation.
  destruct groq_enabled; [|reflexivity].
  rewrite check_rate_limit_ignores_cache.
  destruct (_check_rate_limit st now "groq") as [allowed st1]. simpl.
  destruct allowed; [|reflexivity].
  destruct (_ && _); reflexivity.
Qed.

(** X13. With caching disabled the cache takes no part in a call: the
    text returned is the same whatever the cache holds, and the cache is
    left as it was. *)
Theorem generate_without_cache st now story (c : gmap string string) :
  cache_enabled st = false ->
  (generate_comprehensive_test_scenarios L O cfg (set_scenario_cache st c) now story).1
  = (generate_comprehensive_test_scenarios L O cfg st now story).1 /\
  scenario_cache (generate_comprehensive_test_scenarios L O cfg st now story).2
  = scenario_cache st.
Proof.
  intros Hoff. unfold generate_comprehensive_test_scenarios. cbv zeta.
  destruct (_generate_cache_key L story) as [key|]; [|split; reflexivity].
  simpl cache_enabled. rewrite Hoff.
  destruct (_fast_story_analysis L story); [|split; reflexivity].
  rewrite ultra_fast_generation_ignores_cache.
  pose proof (ultra_fast_generation_keeps_cache L O cfg st now story) as [Hflag Hcache].
  destruct (_ultra_fast_generation L O cfg st now story) as [scenarios st1].
  simpl in Hflag, Hcache |- *.
  destruct (_validate_and_enhance_scenarios _ _ _); [|split; [reflexivity|exact Hcache]].
  simpl. rewrite Hflag, Hoff. split; [reflexivity|exact Hcache].
Qed.

End GenerationMore.


(** ** Validation of the generated scenarios *)

Section Enhance.
Context (L : pylib) (O : oracle).

Lemma enhance_each_spec story scenarios : forall validated,
  match enhance_each O scenarios story validated with
  | Ok v =>
      exists added,
        v = validated ++ added /\
        (length added <= length scenarios)%nat /\
        Forall (enhanced_record O story) added /\
        (Forall has_str_title added <-> Forall str_titled scenarios)
  | Raise _ => ~ Forall str_titled scenarios
  end.
Proof.
  induction scenarios as [|c rest IH]; intros validated; cbn [enhance_each].
  { exists []. rewrite app_nil_r. repeat split; auto. }
  assert (Hskip : str_titled c ->
            match enhance_each O rest story validated with
            | Ok v =>
                exists added,
                  v = validated ++ added /\
                  (length added <= length (c :: rest))%nat /\
                  Forall (enhanced_record O story) added /\
                  (Forall has_str_title added <-> Forall str_titled (c :: rest))
            | Raise _ => ~ Forall str_titled (c :: rest)
            end).
  { intros Hc. specialize (IH validated).
    destruct (enhance_each O rest story validated) as [v|e].
    - destruct IH as (added & -> & Hlen & Hrec & Hiff).
      exists added. split; [reflexivity|]. split; [simpl; lia|]. split; [exact Hrec|].
      rewrite Hiff. rewrite Forall_cons. tauto.
    - intros H. apply Forall_cons in H as [_ H]. auto. }
  destruct c as [| | | | |d]; try (apply Hskip; exact I). clear Hskip.
  destruct (get_default d "title" (JStr "Test Scenario")) as [| | |s|l|] eqn:Et;
    cbn [py_slice mbind result_bind];
    try (intros H; apply Forall_cons in H as [[s Hs] _]; congruence).
  - cbv zeta.
    assert (HT : (String.length (str_take 255 s) <= 255)%nat) by apply str_take_length.
    set (T := str_take 255 s) in *. clearbody T.
    match goal with
    | |- context [enhance_each O rest story (validated ++ [?r])] =>
        set (record := r); specialize (IH (validated ++ [record]))
    end.
    assert (Hrec0 : enhanced_record O story record /\ has_str_title record).
    { split; [|exists T; reflexivity].
      split; [reflexivity|]. split; [reflexivity|]. split.
      - intros t Ht. injection Ht as <-. exact HT.
      - intros s0. subst record.
        match goal with
        | |- dict_get (_ :: _ :: (_, ?v) :: _) _ <> _ => change (Some v <> Some (JStr s0))
        end.
        destruct (get_default d "steps" _); discriminate. }
    destruct Hrec0 as [Hrec0 Hstr0].
    destruct (enhance_each O rest story (validated ++ [record])) as [v|e].
    + destruct IH as (added & -> & Hlen & Hrec & Hiff).
      exists (record :: added). rewrite <- app_assoc. split; [reflexivity|].
      split; [simpl; lia|]. split; [now constructor|].
      rewrite !Forall_cons, Hiff. simpl. split; [intros [_ H]; split; eauto|tauto].
    + intros H. apply Forall_cons in H as [_ H]. auto.
  - cbv zeta.
    match goal with
    | |- context [enhance_each O rest story (validated ++ [?r])] =>
        set (record := r); specialize (IH (validated ++ [record]))
    end.
    assert (Hrec0 : enhanced_record O story record /\ ~ has_str_title record).
    { split; [|intros [s0 Hs0]; discriminate Hs0].
      split; [reflexivity|]. split; [reflexivity|]. split.
      - intros t Ht. discriminate Ht.
      - intros s0. subst record.
        match goal with
        | |- dict_get (_ :: _ :: (_, ?v) :: _) _ <> _ => change (Some v <> Some (JStr s0))
        end.
        destruct (get_default d "steps" _); discriminate. }
    destruct Hrec0 as [Hrec0 Hstr0].
    assert (Hno : ~ Forall str_titled (JObj d :: rest)).
    { intros H. apply Forall_cons in H as [[s Hs] _]. congruence. }
    destruct (enhance_each O rest story (validated ++ [record])) as [v|e]; [|exact Hno].
    destruct IH as (added & -> & Hlen & Hrec & Hiff).
    exists (record :: added). rewrite <- app_assoc. split; [reflexivity|].
    split; [simpl; lia|]. split; [now constructor|].
    split; [|intros; contradiction].
    intros H. apply Forall_cons in H as [H _]. contradiction.
Qed.

Lemma validate_and_enhance_scenarios_spec (scenarios : list json) (story : dict) :
  ((exists out, _validate_and_enhance_scenarios O scenarios story = Ok out)
   <-> Forall str_titled scenarios) /\
  (forall out,
      _validate_and_enhance_scenarios O scenarios story = Ok out ->
      Forall (enhanced_record O story) out /\
      (length out <= length scenarios)%nat /\
      no_near_duplicates out).
Proof.
  unfold _validate_and_enhance_scenarios.
  pose proof (enhance_each_spec story scenarios []) as H.
  destruct (enhance_each O scenarios story []) as [v|e]; cbn [mbind result_bind].
  - destruct H as (added & -> & Hlen & Hrec & Hiff). rewrite app_nil_l.
    pose proof (dedupe_each_outcome added [] ∅) as Hout.
    fold (_remove_duplicate_scenarios added) in Hout.
    split.
    + rewrite <- Hiff. split.
      * intros [out Ho]. now rewrite Ho in Hout.
      * intros Hs. rewrite (remove_duplicate_scenarios_refines _ Hs). eauto.
    + intros out Ho. rewrite Ho in Hout.
      rewrite (remove_duplicate_scenarios_refines _ Hout) in Ho. injection Ho as <-.
      unfold dedupe_spec.
      destruct (first_seen_wins_extends added []) as (kept & Hk & Hsub).
      rewrite app_nil_l in Hk.
      split; [rewrite Hk; exact (Forall_of_sublist _ _ _ Hsub Hrec)|].
      split; [rewrite Hk; apply sublist_length in Hsub; lia|].
      now apply first_seen_wins_distinct.
  - split; [|discriminate].
    split; [intros [out Ho]; discriminate Ho|intros; contradiction].
Qed.

(** X14. The validation of the generated scenarios returns a list exactly
    when the title of every dict of its input is a string or absent.
    Elements that are no dicts are dropped. Every record returned has the
    six fields and the journey of the story, a title of at most 255
    characters and steps that are not a bare string; the list is no
    longer than the input and no two of its titles are more than 0.8
    similar. *)
Theorem validate_and_enhance_scenarios_contract (scenarios : list json) (story : dict) :
  ((exists out, _validate_and_enhance_scenarios O scenarios story = Ok out)
   <-> Forall str_titled scenarios) /\
  (forall out,
      _validate_and_enhance_scenarios O scenarios story = Ok out ->
      Forall (enhanced_record O story) out /\
      (length out <= length scenarios)%nat /\
      no_near_duplicates out).
Proof. apply validate_and_enhance_scenarios_spec. Qed.

End Enhance.


(** ** Ranking and bounding, further *)

Section BounderMore.
Import AIServiceManager.
Context (L : pylib) (cfg : ai_config).

Lemma insert_scored_filter k x l :
  filter (fun p : nat * dict => p.1 = k) (insert_scored x l)
  = filter (fun p : nat * dict => p.1 = k) (x :: l).
Proof.
  induction l as [|y l IH]; cbn [insert_scored]; [reflexivity|].
  destruct (fst y <? fst x)%nat eqn:E; [|reflexivity].
  apply Nat.ltb_lt in E.
  rewrite (filter_cons _ y), IH, !(filter_cons _ x), (filter_cons _ y).
  destruct (decide (y.1 = k)) as [Hy|Hy]; destruct (decide (x.1 = k)) as [Hx|Hx];
    try reflexivity.
  simpl in *. lia.
Qed.

Lemma sort_scored_filter k l :
  filter (fun p : nat * dict => p.1 = k) (sort_scored l)
  = filter (fun p : nat * dict => p.1 = k) l.
Proof.
  induction l as [|x l IH]; cbn [sort_scored]; [reflexivity|].
  rewrite insert_scored_filter, !(filter_cons _ x), IH. reflexivity.
Qed.

Lemma filter_scored k (l : list (nat * dict)) :
  Forall (fun p => p.1 = score p.2) l ->
  filter (fun r => score r = k) (snd <$> l)
  = snd <$> filter (fun p : nat * dict => p.1 = k) l.
Proof.
  induction 1 as [|p l Hp _ IH]; [reflexivity|].
  rewrite fmap_cons, !filter_cons, IH.
  destruct (decide (score p.2 = k)) as [H1|H1]; destruct (decide (p.1 = k)) as [H2|H2];
    try reflexivity; congruence.
Qed.

(** X15. Ranking is stable: the records of one score come out in the
    order in which they came in. *)
Theorem prioritize_scenarios_stable (scenarios : list dict) :
  Forall rankable scenarios ->
  exists sorted,
    _prioritize_scenarios scenarios = Ok sorted /\
    forall k, filter (fun r => score r = k) sorted
              = filter (fun r => score r = k) scenarios.
Proof.
  intros Hr. unfold _prioritize_scenarios. rewrite (score_each_rankable _ Hr).
  cbn [mbind result_bind]. eexists. split; [reflexivity|]. intros k.
  assert (Hdec : Forall (fun p : nat * dict => p.1 = score p.2)
                   ((fun r => (score r, r)) <$> scenarios)).
  { apply Forall_fmap, Forall_forall. intros r _. reflexivity. }
  rewrite filter_scored.
  - rewrite sort_scored_filter, <- filter_scored by exact Hdec.
    rewrite <- list_fmap_compose. unfold compose. simpl. now rewrite list_fmap_id.
  - rewrite Forall_forall in Hdec |- *. intros p Hp. apply Hdec.
    apply list_elem_of_In. apply list_elem_of_In in Hp.
    exact (Permutation_in _ (sort_scored_perm _) Hp).
Qed.

Lemma order_get_outcome table v :
  match order_get table v with
  | Ok _ => hashable v
  | Raise e => e = TypeError /\ ~ hashable v
  end.
Proof. destruct v; simpl; auto. Qed.

Lemma scenario_score_outcome scenario :
  match scenario_score scenario with
  | Ok _ => rankable scenario
  | Raise e => e = TypeError /\ ~ rankable scenario
  end.
Proof.
  unfold scenario_score, rankable.
  pose proof (order_get_outcome priority_order
                (get_default scenario "priority" (JStr "P3 - Medium"))) as Hp.
  destruct (order_get priority_order _) as [p|e]; cbn [mbind result_bind].
  - pose proof (order_get_outcome severity_order
                  (get_default scenario "severity" (JStr "S3 - Moderate"))) as Hs.
    destruct (order_get severity_order _) as [s|e]; cbn [mbind result_bind]; [tauto|].
    destruct Hs as [-> Hs]. tauto.
  - destruct Hp as [-> Hp]. tauto.
Qed.

Lemma score_each_outcome scenarios :
  match score_each scenarios with
  | Ok _ => Forall rankable scenarios
  | Raise e => e = TypeError /\ ~ Forall rankable scenarios
  end.
Proof.
  induction scenarios as [|r rest IH]; cbn [score_each]; [constructor|].
  pose proof (scenario_score_outcome r) as Hr.
  destruct (scenario_score r) as [n|e]; cbn [mbind result_bind].
  - destruct (score_each rest) as [scored|e]; cbn [mbind result_bind].
    + now constructor.
    + destruct IH as [-> IH]. split; [reflexivity|].
      intros H. apply Forall_cons in H as [_ H]. auto.
  - destruct Hr as [-> Hr]. split; [reflexivity|].
    intros H. apply Forall_cons in H as [H _]. auto.
Qed.

(** X16. Ranking returns a list exactly when the priority and the
    severity of every record can be dict keys; one record with a list or
    a dict in either field makes the whole call raise TypeError. *)
Theorem prioritize_scenarios_raises_on_unhashable (scenarios : list dict) :
  ((exists out, _prioritize_scenarios scenarios = Ok out) <-> Forall rankable scenarios) /\
  (~ Forall rankable scenarios -> _prioritize_scenarios scenarios = Raise TypeError).
Proof.
  unfold _prioritize_scenarios. pose proof (score_each_outcome scenarios) as H.
  destruct (score_each scenarios) as [scored|e]; cbn [mbind result_bind].
  - split; [split; eauto|]. intros Hn. contradiction.
  - destruct H as [-> Hn]. split; [|reflexivity].
    split; [intros [out Hout]; discriminate|intros; contradiction].
Qed.

Lemma pad_to_min_enough fuel scenarios story :
  (min_scenarios cfg <= Z.of_nat (length scenarios))%Z ->
  pad_to_min L cfg fuel scenarios story = Ok scenarios.
Proof.
  intros H. destruct fuel; cbn [pad_to_min];
    replace (Z.of_nat (length scenarios) <? min_scenarios cfg)%Z with false
      by (symmetry; apply Z.ltb_ge; lia); reflexivity.
Qed.

(** X17. The bounder reads the story only to pad. On a list that has the
    minimum length it returns the same for every story, well formed or
    not; on a shorter list and a story whose fields are no dict it raises
    AttributeError. *)
Theorem ensure_scenario_limits_reads_story_to_pad (scenarios : list dict) (story : dict) :
  ((min_scenarios cfg <= Z.of_nat (length scenarios))%Z ->
   forall story',
     _ensure_scenario_limits L cfg scenarios story'
     = _ensure_scenario_limits L cfg scenarios story) /\
  ((Z.of_nat (length scenarios) < min_scenarios cfg)%Z ->
   ~ story_fields_ok story ->
   _ensure_scenario_limits L cfg scenarios story = Raise AttributeError).
Proof.
  split.
  - intros Hlen story'. unfold _ensure_scenario_limits. cbv zeta.
    now rewrite !pad_to_min_enough by exact Hlen.
  - intros Hlen Hbad. unfold _ensure_scenario_limits. cbv zeta.
    destruct (Z.to_nat (min_scenarios cfg - Z.of_nat (length scenarios))) as [|fuel] eqn:Ef;
      [lia|].
    cbn [pad_to_min].
    replace (Z.of_nat (length scenarios) <? min_scenarios cfg)%Z with true
      by (symmetry; apply Z.ltb_lt; lia).
    unfold _generate_basic_scenario.
    destruct (get_default story "fields" (JObj [])) as [| | | | |fields] eqn:Efields;
      try reflexivity.
    exfalso. apply Hbad. exists fields. exact Efields.
Qed.

Lemma generate_basic_scenario_rankable story index record :
  _generate_basic_scenario L story index = Ok record -> rankable record.
Proof.
  unfold _generate_basic_scenario.
  destruct (as_dict _) as [fields|]; cbn [mbind result_bind]; [|discriminate].
  cbv zeta. generalize (Z.to_nat ((index - 1) mod 3)%Z) as i. intros i H. injection H as <-.
  destruct i as [|[|[|[|n]]]]; split; exact I.
Qed.

Lemma padding_for_rankable story start padding :
  padding_for L story start padding -> Forall rankable padding.
Proof.
  unfold padding_for. generalize (seq start (length padding)) as indices.
  intros indices H. induction H as [|i r indices padding Hr _ IH]; constructor.
  - exact (generate_basic_scenario_rankable _ _ _ Hr).
  - exact IH.
Qed.

(** X18. When the configured maximum is below the minimum the maximum
    wins: the result has exactly [max] records, whatever the length of
    the input, the padding up to the minimum being ranked and cut with
    the rest. *)
Theorem ensure_scenario_limits_max_below_min (scenarios : list dict) (story : dict) :
  (0 <= max_scenarios cfg < min_scenarios cfg)%Z ->
  story_fields_ok story ->
  Forall rankable scenarios ->
  exists out,
    _ensure_scenario_limits L cfg scenarios story = Ok out /\
    Z.of_nat (length out) = max_scenarios cfg.
Proof.
  intros [Hmax Hlt] Hstory Hrank. unfold _ensure_scenario_limits. cbv zeta.
  destruct (pad_to_min_pads L cfg story Hstory
              (Z.to_nat (min_scenarios cfg - Z.of_nat (length scenarios))) scenarios)
    as (padding & -> & Hlen & Hfor); [lia|].
  cbn [mbind result_bind].
  assert (Hall : Forall rankable (scenarios ++ padding)).
  { apply Forall_app. split; [exact Hrank|]. exact (padding_for_rankable _ _ _ Hfor). }
  assert (Hlong : (max_scenarios cfg < Z.of_nat (length (scenarios ++ padding)))%Z).
  { rewrite length_app. lia. }
  replace (max_scenarios cfg <? Z.of_nat (length (scenarios ++ padding)))%Z with true
    by (symmetry; apply Z.ltb_lt; exact Hlong).
  destruct (prioritize_scenarios_sorts (scenarios ++ padding) Hall)
    as (sorted & -> & Hperm & _).
  cbn [mbind result_bind]. eexists. split; [reflexivity|].
  unfold slice_to. replace (0 <=? max_scenarios cfg)%Z with true
    by (symmetry; apply Z.leb_le; lia).
  rewrite length_take, (Permutation_length Hperm). lia.
Qed.

End BounderMore.


(** ** The entry point, further *)

Section EntryPointMore.
Import AIServiceManager.
Context (L : pylib).

(** X19. Whatever the two tiers answer, the entry point hands back the
    text of one of them, unchanged, or raises AttributeError. It hands
    back the text of the enhanced tier only if that text is not empty and
    decodes to a value of three or more items, and the text of the
    fallback tier only if that text is not empty and decodes, whatever it
    decodes to. *)
Theorem generate_test_scenarios_from_provenance
    (enhanced_call fallback_call : result string) (story : dict) :
  match generate_test_scenarios_from L enhanced_call fallback_call story with
  | Ok text =>
      (enhanced_call = Ok text /\ text <> EmptyString /\
       exists v n, json_loads L text = Ok v /\ truthy v = true /\
                   py_len v = Ok n /\ (3 <= n)%nat) \/
      (fallback_call = Ok text /\ text <> EmptyString /\
       exists v, json_loads L text = Ok v)
  | Raise e => e = AttributeError
  end.
Proof.
  unfold generate_test_scenarios_from, call_generate_basic_scenarios.
  assert (Hfb : match
            (fallback_result ← fallback_call;
             decoded ←
               (if negb (String.eqb fallback_result EmptyString) then
                  try_except_json
                    (scenarios ← json_loads L fallback_result; Ok true) (Ok false)
                else Ok false);
             if (decoded : bool) then Ok fallback_result
             else _ ← getattr "_generate_basic_scenarios"; Raise AttributeError)
          with
          | Ok text => fallback_call = Ok text /\ text <> EmptyString /\
                       exists v, json_loads L text = Ok v
          | Raise _ => True
          end).
  { destruct fallback_call as [fb|e]; cbn [mbind result_bind]; [|exact I].
    destruct (String.eqb fb EmptyString) eqn:Ee; cbn [negb mbind result_bind]; [exact I|].
    apply String.eqb_neq in Ee.
    destruct (json_loads L fb) as [v|[]] eqn:El;
      cbn [try_except_json mbind result_bind]; try exact I.
    eauto. }
  destruct enhanced_call as [er|e]; cbn [mbind result_bind try_except]; [|reflexivity].
  destruct (String.eqb er EmptyString) eqn:Ee; cbn [negb mbind result_bind].
  { match goal with
    | H : match ?b with Ok _ => _ | Raise _ => _ end |- _ =>
        destruct b as [text|e]; cbn [try_except]; [right; exact H|reflexivity]
    end. }
  apply String.eqb_neq in Ee.
  assert (Hrest : forall accepted : result bool,
            match accepted with
            | Ok true => exists v n, json_loads L er = Ok v /\ truthy v = true /\
                                     py_len v = Ok n /\ (3 <= n)%nat
            | _ => True
            end ->
            match
              try_except
                (accepted ← accepted;
                 if (accepted : bool) then Ok er
                 else
                   fallback_result ← fallback_call;
                   decoded ←
                     (if negb (String.eqb fallback_result EmptyString) then
                        try_except_json
                          (scenarios ← json_loads L fallback_result; Ok true) (Ok false)
                      else Ok false);
                   if (decoded : bool) then Ok fallback_result
                   else _ ← getattr "_generate_basic_scenarios"; Raise AttributeError)
                (fun _ => _ ← getattr "_generate_basic_scenarios"; Raise AttributeError)
            with
            | Ok text =>
                (Ok er = Ok text /\ text <> EmptyString /\
                 exists v n, json_loads L text = Ok v /\ truthy v = true /\
                             py_len v = Ok n /\ (3 <= n)%nat) \/
                (fallback_call = Ok text /\ text <> EmptyString /\
                 exists v, json_loads L text = Ok v)
            | Raise e => e = AttributeError
            end).
  { intros [[|]|e] Hacc; cbn [mbind result_bind try_except].
    - left. auto.
    - match goal with
      | H : match ?b with Ok _ => _ | Raise _ => _ end |- _ =>
          destruct b as [text|e]; cbn [try_except]; [right; exact H|reflexivity]
      end.
    - reflexivity. }
  apply Hrest.
  destruct (json_loads L er) as [v|[]] eqn:El;
    cbn [try_except_json mbind result_bind]; try exact I.
  destruct (truthy v) eqn:Et; [|exact I].
  destruct (py_len v) as [n|e] eqn:En; cbn [try_except_json mbind result_bind].
  - destruct (3 <=? n)%nat eqn:E3; [|exact I].
    apply Nat.leb_le in E3. eauto 10.
  - destruct e; exact I.
Qed.

End EntryPointMore.


(** ** Filtering against existing scenarios *)

Section FilterUnique.
Import AIServiceManager.

Lemma calculate_title_similarity_jaccard t1 t2 :
  _calculate_title_similarity (lower t1) (lower t2)
  = jaccard (word_set t1) (word_set t2).
Proof.
  unfold _calculate_title_similarity, jaccard, word_set. rewrite !lower_idem. cbv zeta.
  destruct (bool_decide (_ = ∅)) eqn:E1; [reflexivity|].
  destruct (bool_decide (list_to_set (split_ws (lower t2)) = ∅)) eqn:E2; [reflexivity|].
  simpl. apply bool_decide_eq_false in E1.
  now rewrite (union_nonempty _ _ E1).
Qed.

Lemma above_threshold_false q : above_threshold q = false <-> (q <= 7 # 10)%Q.
Proof.
  unfold above_threshold. rewrite negb_false_iff. apply Qle_bool_iff.
Qed.

Lemma lower_titles_str existing :
  Forall has_str_title existing ->
  lower_titles existing = Ok ((fun r => lower (title_of r)) <$> existing).
Proof.
  induction 1 as [|r rest [t Ht] _ IH]; [reflexivity|].
  assert (Htr : title_of r = t) by (unfold title_of; now rewrite Ht).
  cbn [lower_titles]. rewrite Ht. cbn [as_str mbind result_bind]. rewrite IH.
  cbn [mbind result_bind]. rewrite fmap_cons. now rewrite Htr.
Qed.

Lemma unique_test r against :
  existsb (fun existing_title =>
             above_threshold (_calculate_title_similarity (lower (title_of r)) existing_title))
          ((fun a => lower (title_of a)) <$> against) = false
  <-> Forall (fun a => (title_similarity r a <= 7 # 10)%Q) against.
Proof.
  induction against as [|a against IH]; simpl.
  - split; [constructor|reflexivity].
  - rewrite orb_false_iff, IH, Forall_cons, calculate_title_similarity_jaccard.
    rewrite above_threshold_false. reflexivity.
Qed.

Lemma filter_each_spec new : forall unique against,
  Forall has_str_title new ->
  exists added,
    filter_each new unique ((fun a => lower (title_of a)) <$> against)
    = Ok (unique ++ added) /\
    sublist added new /\
    apart against added /\
    (forall before r after,
        new = before ++ r :: after ->
        Forall (fun a => (title_similarity r a <= 7 # 10)%Q) (against ++ before) ->
        r ∈ added).
Proof.
  induction new as [|x rest IH]; intros unique against Hstr.
  { exists []. rewrite app_nil_r. split; [reflexivity|]. split; [constructor|].
    split; [exact I|]. intros [|] ? ? H; discriminate H. }
  apply Forall_cons in Hstr as [[t Ht] Hstr].
  assert (Htx : title_of x = t) by (unfold title_of; now rewrite Ht).
  cbn [filter_each]. rewrite Ht. cbn [as_str mbind result_bind]. cbv zeta.
  rewrite <- Htx.
  pose proof (unique_test x against) as Htest.
  destruct (existsb _ _) eqn:E; cbn [negb].
  - destruct (IH unique against Hstr) as (added & -> & Hsub & Hapart & Hall).
    exists added. split; [reflexivity|]. split; [now apply sublist_cons|].
    split; [exact Hapart|].
    intros before r after Hnew Hfar. destruct before as [|b before].
    + simpl in Hnew. injection Hnew as <- _. rewrite app_nil_r in Hfar.
      apply Htest in Hfar. congruence.
    + simpl in Hnew. injection Hnew as <- Hnew. apply (Hall before r after Hnew).
      apply Forall_app in Hfar as [H1 H2]. apply Forall_cons in H2 as [_ H2].
      apply Forall_app. auto.
  - replace (((fun a => lower (title_of a)) <$> against) ++ [lower (title_of x)])
      with ((fun a => lower (title_of a)) <$> (against ++ [x]))
      by (now rewrite fmap_app).
    destruct (IH (unique ++ [x]) (against ++ [x]) Hstr) as (added & -> & Hsub & Hapart & Hall).
    exists (x :: added). rewrite <- app_assoc. split; [reflexivity|].
    split; [now apply sublist_skip|].
    split; [split; [now apply Htest|exact Hapart]|].
    intros before r after Hnew Hfar. destruct before as [|b before].
    + simpl in Hnew. injection Hnew as <- _. apply elem_of_cons. auto.
    + simpl in Hnew. injection Hnew as <- Hnew. apply elem_of_cons. right.
      apply (Hall before r after Hnew).
      rewrite <- app_assoc. exact Hfar.
Qed.

(** X20. The filter against existing scenarios, on records whose titles
    are strings. It returns a subsequence of the new records in which
    every record is at most 0.7 similar to every existing record and to
    every record kept before it, and it drops nothing without cause: a
    new record that is at most 0.7 similar to every existing record and
    to every new record before it is kept. *)
Theorem filter_unique_scenarios_contract (new_scenarios existing_scenarios : list dict) :
  Forall has_str_title new_scenarios ->
  Forall has_str_title existing_scenarios ->
  exists out,
    _filter_unique_scenarios new_scenarios existing_scenarios = Ok out /\
    sublist out new_scenarios /\
    apart existing_scenarios out /\
    (forall before r after,
        new_scenarios = before ++ r :: after ->
        Forall (fun a => (title_similarity r a <= 7 # 10)%Q) (existing_scenarios ++ before) ->
        r ∈ out).
Proof.
  intros Hnew Hex. unfold _filter_unique_scenarios.
  rewrite (lower_titles_str _ Hex). cbn [mbind result_bind].
  destruct (filter_each_spec new_scenarios [] existing_scenarios Hnew)
    as (added & -> & H). exists added. exact (conj eq_refl H).
Qed.

End FilterUnique.


(** ** The story test generator *)

Section Normalize.
Import StoryTestGenerator.

Lemma split_ws_token w : token w -> split_ws w = [w].
Proof.
  intros [Hne Hall]. induction w as [|c w IH]; [contradiction|].
  simpl in Hall. apply andb_true_iff in Hall as [Hc Hall].
  apply negb_true_iff in Hc. cbn [split_ws]. rewrite Hc.
  destruct w as [|c' w]; [reflexivity|].
  assert (Hc' : isspace c' = false).
  { simpl in Hall. apply andb_true_iff in Hall as [H _]. now apply negb_true_iff. }
  cbn [split_ws_head]. rewrite Hc'. rewrite IH; [reflexivity|discriminate|exact Hall].
Qed.

Lemma split_ws_token_app w s :
  token w -> split_ws (w +:+ String " " s) = w :: split_ws s.
Proof.
  intros [Hne Hall]. induction w as [|c w IH]; [contradiction|].
  simpl in Hall. apply andb_true_iff in Hall as [Hc Hall].
  apply negb_true_iff in Hc.
  change (String c w +:+ String " " s) with (String c (w +:+ String " " s)).
  cbn [split_ws]. rewrite Hc.
  destruct w as [|c' w]; [reflexivity|].
  assert (Hc' : isspace c' = false).
  { simpl in Hall. apply andb_true_iff in Hall as [H _]. now apply negb_true_iff. }
  change (String c' w +:+ String " " s) with (String c' (w +:+ String " " s)).
  cbn [split_ws_head]. rewrite Hc'.
  change (String c' (w +:+ String " " s)) with (String c' w +:+ String " " s).
  rewrite IH; [reflexivity|discriminate|exact Hall].
Qed.

Lemma split_ws_tokens s : Forall token (split_ws s).
Proof.
  induction s as [|c s IH]; [constructor|]. cbn [split_ws].
  destruct (isspace c) eqn:Hc; [exact IH|].
  assert (Hone : token (String c EmptyString)).
  { split; [discriminate|]. simpl. now rewrite Hc. }
  destruct (split_ws_head s); [now constructor|].
  destruct (split_ws s) as [|w ws]; [now constructor|].
  apply Forall_cons in IH as [[_ Hw] Hws]. constructor; [|exact Hws].
  split; [discriminate|]. simpl. now rewrite Hc, Hw.
Qed.

(** Splitting undoes joining with one space. *)
Lemma split_ws_join ws : Forall token ws -> split_ws (join " " ws) = ws.
Proof.
  induction 1 as [|w rest Hw Hrest IH]; [reflexivity|].
  cbn [join]. destruct rest as [|w2 rest]; [now apply split_ws_token|].
  change (w +:+ " " +:+ join " " (w2 :: rest))
    with (w +:+ String " " (join " " (w2 :: rest))).
  rewrite split_ws_token_app by exact Hw. now rewrite IH.
Qed.

Lemma lower_join ws : lower (join " " ws) = join " " (lower <$> ws).
Proof.
  induction ws as [|w rest IH]; [reflexivity|].
  cbn [join fmap list_fmap]. destruct rest as [|w2 rest]; [reflexivity|].
  rewrite !lower_app, IH. reflexivity.
Qed.

Lemma split_ws_normalize title :
  split_ws (lower (_normalize_title title)) = split_ws (lower title).
Proof.
  unfold _normalize_title. rewrite split_ws_lower, split_ws_join by apply split_ws_tokens.
  rewrite split_ws_lower, <- list_fmap_compose.
  apply list_fmap_ext. intros _ w _. apply lower_idem.
Qed.

(** X21. Normalising a title is idempotent, and two titles have the same
    normal form exactly when they consist of the same words in the same
    order, up to case and to the white space between and around the
    words: splitting undoes the joining. *)
Theorem normalize_title_canonical (title1 title2 : string) :
  _normalize_title (_normalize_title title1) = _normalize_title title1 /\
  (_normalize_title title1 = _normalize_title title2
   <-> split_ws (lower title1) = split_ws (lower title2)).
Proof.
  split.
  - unfold _normalize_title at 1. now rewrite split_ws_normalize.
  - split.
    + intros H. rewrite <- (split_ws_normalize title1), <- (split_ws_normalize title2).
      now rewrite H.
    + intros H. unfold _normalize_title. now rewrite H.
Qed.

End Normalize.

Section Generator.
Import StoryTestGenerator.
Context (L : pylib) (O : oracle) (cfg : ai_config).

Lemma optimal_scenario_count_range summary n :
  _calculate_optimal_scenario_count summary = Ok n -> (6 <= n <= 12)%nat.
Proof.
  unfold _calculate_optimal_scenario_count.
  destruct (as_str summary) as [s|]; cbn [mbind result_bind]; [|discriminate].
  cbv zeta. destruct (_ || _); [intros H; injection H as <-; lia|].
  destruct (_ || _); intros H; injection H as <-; lia.
Qed.

Lemma sized_within_nil n : sized_within n (JArr []).
Proof. exists 0%nat. split; [reflexivity|lia]. Qed.

Lemma py_slice_sized n v out : py_slice n v = Ok out -> sized_within n out.
Proof.
  destruct v; try discriminate; intros H; injection H as <-.
  - eexists. split; [reflexivity|]. apply str_take_length.
  - eexists. split; [reflexivity|]. rewrite length_take. lia.
Qed.

Lemma limit_to_sized n v out : limit_to n v = Ok out -> sized_within n out.
Proof.
  unfold limit_to. destruct (truthy v) eqn:Et; cbn [mbind result_bind].
  - destruct (py_len v) as [m|] eqn:Em; cbn [mbind result_bind]; [|discriminate].
    destruct (n <? m)%nat eqn:E.
    + destruct (py_slice n v) as [w|] eqn:Ew; cbn [mbind result_bind]; [|discriminate].
      intros H. injection H as <-.
      destruct (truthy w); [exact (py_slice_sized _ _ _ Ew)|apply sized_within_nil].
    + cbn [mbind result_bind]. rewrite Et. intros H. injection H as <-.
      apply Nat.ltb_ge in E. exists m. auto.
  - rewrite Et. intros H. injection H as <-. apply sized_within_nil.
Qed.

Lemma from_cursor_sized story n out :
  from_cursor L O story n = Ok out -> sized_within n out.
Proof.
  unfold from_cursor. destruct (json_loads L _) as [v|]; cbn [mbind result_bind];
    [|discriminate].
  destruct (truthy v); [apply py_slice_sized|].
  intros H. injection H as <-. apply sized_within_nil.
Qed.

Lemma last_resort_sized story n :
  sized_within n (last_resort L O story (Some n)) /\
  last_resort L O story None = JArr [].
Proof.
  unfold last_resort.
  destruct (json_loads L _) as [v|]; [|split; [apply sized_within_nil|reflexivity]].
  destruct (truthy v); [|split; [apply sized_within_nil|reflexivity]].
  split; [|reflexivity].
  destruct (py_slice n v) as [w|] eqn:Ew; [exact (py_slice_sized _ _ _ Ew)|].
  apply sized_within_nil.
Qed.

(** X22. Whatever the issue lookup, the clock, the services and the
    decoder do, the generation for a story returns a value that has a
    length, and one of at most 12: the empty list when the issue is
    missing or its summary cannot be read, and otherwise at most the
    optimal count of the summary, which is 6, 8 or 12. This holds also
    when the entry point of the service manager raises. *)
Theorem generate_ai_scenarios_bounded
    (issue : result (option dict)) (st : client_state) (now : Q) :
  sized_within 12 (generate_ai_scenarios L O cfg issue st now).1 /\
  (forall story fields optimal_count,
      issue = Ok (Some story) ->
      get_default story "fields" (JObj []) = JObj fields ->
      _calculate_optimal_scenario_count (get_default fields "summary" (JStr EmptyString))
      = Ok optimal_count ->
      sized_within optimal_count (generate_ai_scenarios L O cfg issue st now).1) /\
  (forall story,
      issue = Ok (Some story) ->
      (forall fields,
          get_default story "fields" (JObj []) = JObj fields ->
          forall n, _calculate_optimal_scenario_count
                      (get_default fields "summary" (JStr EmptyString)) <> Ok n) ->
      (generate_ai_scenarios L O cfg issue st now).1 = JArr []) /\
  (issue = Ok None \/ (exists e, issue = Raise e) ->
   (generate_ai_scenarios L O cfg issue st now).1 = JArr []).
Proof.
  assert (Hmain : forall story,
            issue = Ok (Some story) ->
            match (fields ← as_dict (get_default story "fields" (JObj []));
                   _calculate_optimal_scenario_count
                     (get_default fields "summary" (JStr EmptyString))) with
            | Ok n => sized_within n (generate_ai_scenarios L O cfg issue st now).1
            | Raise _ => (generate_ai_scenarios L O cfg issue st now).1 = JArr []
            end).
  { intros story ->. unfold generate_ai_scenarios.
    destruct (fields ← as_dict (get_default story "fields" (JObj []));
              _calculate_optimal_scenario_count
                (get_default fields "summary" (JStr EmptyString))) as [n|e] eqn:Ecount.
    - destruct (negb (truthy (JObj story))); [apply sized_within_nil|].
      destruct (last_resort_sized story n) as [Hlast _].
      destruct (AIServiceManager.generate_test_scenarios L O cfg st now story)
        as [[text|e] st1]; cbn [fst]; [|exact Hlast].
      assert (Hcursor : sized_within n
                (match from_cursor L O story n with
                 | Ok scenarios => (scenarios, st1)
                 | Raise _ => (last_resort L O story (Some n), st1)
                 end).1).
      { destruct (from_cursor L O story n) as [out|e'] eqn:Ef; cbn [fst];
          [exact (from_cursor_sized _ _ _ Ef)|exact Hlast]. }
      destruct (json_loads L text) as [v|e] eqn:El; cbn [mbind result_bind].
      + destruct (limit_to n v) as [out|e] eqn:Eout.
        * exact (limit_to_sized _ _ _ Eout).
        * destruct e; cbn [fst]; try exact Hlast. exact Hcursor.
      + destruct e; cbn [fst]; try exact Hlast. exact Hcursor.
    - destruct (negb (truthy (JObj story))); [reflexivity|].
      destruct (last_resort_sized story 0) as [_ Hlast]. exact Hlast. }
  split; [|split; [|split]].
  - destruct issue as [[story|]|e]; try apply sized_within_nil.
    specialize (Hmain story eq_refl).
    destruct (fields ← as_dict (get_default story "fields" (JObj []));
              _calculate_optimal_scenario_count
                (get_default fields "summary" (JStr EmptyString))) as [n|e] eqn:Ecount.
    + assert (Hn : (6 <= n <= 12)%nat).
      { destruct (as_dict _) as [fields|]; cbn [mbind result_bind] in Ecount;
          [|discriminate]. exact (optimal_scenario_count_range _ _ Ecount). }
      destruct Hmain as (m & Hm & Hle). exists m. split; [exact Hm|lia].
    + rewrite Hmain. apply sized_within_nil.
  - intros story fields n Hissue Hfields Hcount.
    specialize (Hmain story Hissue). rewrite Hfields in Hmain.
    cbn [as_dict mbind result_bind] in Hmain. now rewrite Hcount in Hmain.
  - intros story Hissue Hno. specialize (Hmain story Hissue).
    destruct (get_default story "fields" (JObj [])) as [| | | | |fields] eqn:Ef;
      cbn [as_dict mbind result_bind] in Hmain; try exact Hmain.
    specialize (Hno fields eq_refl).
    destruct (_calculate_optimal_scenario_count _) as [n|e]; [|exact Hmain].
    exfalso. exact (Hno n eq_refl).
  - intros [->|[e ->]]; reflexivity.
Qed.

End Generator.


(** ** What a generation call returns *)

Section GenerationResult.
Context (L : pylib) (O : oracle) (cfg : ai_config).

(** X23. The text a generation call returns is one of three: the text
    the cache holds under the fingerprint of the story, the cache being
    on; the answer of the fallback client, when the body raised; or the
    serialization of a list of records that each carry the six fields and
    the journey of the story and of which no two are more than 0.8
    similar. *)
Theorem generate_result_provenance st now story :
  (cache_enabled st = true /\
   exists key, _generate_cache_key L story = Ok key /\
               scenario_cache st !! key
               = Some (generate_comprehensive_test_scenarios L O cfg st now story).1) \/
  (generate_comprehensive_test_scenarios L O cfg st now story).1
  = CursorAIClient.generate_test_scenarios L O story \/
  (exists validated,
      (generate_comprehensive_test_scenarios L O cfg st now story).1
      = json_dumps L (Some 2%nat) (JArr (JObj <$> validated)) /\
      Forall (enhanced_record O story) validated /\
      no_near_duplicates validated).
Proof.
  unfold generate_comprehensive_test_scenarios. cbv zeta.
  destruct (_generate_cache_key L story) as [key|]; [|right; left; reflexivity].
  destruct (cache_enabled st) eqn:Hon.
  - destruct (scenario_cache st !! key) as [cached|] eqn:Hin; [left; eauto|].
    destruct (_fast_story_analysis L story); [|right; left; reflexivity].
    destruct (_ultra_fast_generation L O cfg st now story) as [scenarios st1].
    match goal with
    | |- context [_validate_and_enhance_scenarios O ?l story] =>
        pose proof (validate_and_enhance_scenarios_spec O l story) as [_ Hv];
        destruct (_validate_and_enhance_scenarios O l story) as [validated|]
    end; [|right; left; reflexivity].
    destruct (Hv validated eq_refl) as (Hrec & _ & Hnear).
    right. right. exists validated. auto.
  - destruct (_fast_story_analysis L story); [|right; left; reflexivity].
    destruct (_ultra_fast_generation L O cfg st now story) as [scenarios st1].
    match goal with
    | |- context [_validate_and_enhance_scenarios O ?l story] =>
        pose proof (validate_and_enhance_scenarios_spec O l story) as [_ Hv];
        destruct (_validate_and_enhance_scenarios O l story) as [validated|]
    end; [|right; left; reflexivity].
    destruct (Hv validated eq_refl) as (Hrec & _ & Hnear).
    right. right. exists validated. auto.
Qed.

End GenerationResult.


(** ** Severity and priority in the original client *)

Section Levels.
Import CursorAIClient.

Lemma assoc_get_In {A} (table : list (string * A)) k v :
  assoc_get table k = Some v -> In v (snd <$> table).
Proof.
  induction table as [|[k' v'] table IH]; simpl; [discriminate|].
  destruct (String.eqb k k'); [intros H; injection H as <-; auto|auto].
Qed.

Lemma lookup_key_In {A} (table : list (string * A)) key v :
  lookup_key table key = Ok (Some v) -> In v (snd <$> table).
Proof.
  destruct key; try discriminate; intros H; injection H as H.
  exact (assoc_get_In _ _ _ H).
Qed.

Lemma base_severity_cases type :
  In (default "S3 - Moderate" (assoc_get type_severity_map type)) severities.
Proof.
  destruct (assoc_get type_severity_map type) as [v|] eqn:E; [|simpl; tauto].
  apply assoc_get_In in E. simpl in E |- *.
  repeat (destruct E as [<-|E]; [tauto|]). contradiction.
Qed.

Lemma base_priority_cases type :
  In (default "P3 - Medium" (assoc_get type_priority_map type))
     ["P1 - Critical"; "P2 - High"; "P3 - Medium"; "P4 - Low"].
Proof.
  destruct (assoc_get type_priority_map type) as [v|] eqn:E; [|simpl; tauto].
  apply assoc_get_In in E. simpl in E |- *.
  repeat (destruct E as [<-|E]; [tauto|]). contradiction.
Qed.

Lemma determine_levels_spec (scenario : dict) (context : json) :
  (forall severity,
      _determine_severity scenario context = Ok severity ->
      In severity severities /\
      forall base,
        _determine_severity scenario JNull = Ok base ->
        (_severity_order severity <= _severity_order base <= 4)%nat) /\
  (forall priority,
      _determine_priority scenario context = Ok priority ->
      In priority priorities /\
      forall base,
        _determine_priority scenario JNull = Ok base ->
        (_priority_order priority <= _priority_order base <= 4)%nat).
Proof.
  unfold _determine_severity, _determine_priority.
  destruct (as_str (get_default scenario "type" (JStr "functional"))) as [type|];
    cbn [mbind result_bind]; [|split; discriminate].
  cbv zeta. split.
  - pose proof (base_severity_cases (lower type)) as Hbase.
    set (base_severity := default "S3 - Moderate" _) in *. clearbody base_severity.
    cbn [lookup_key mbind result_bind].
    intros severity Hs.
    assert (Hov : exists override, lookup_key story_severity_map context = Ok override /\
                    match override with
                    | Some v => In v ["S2 - Major"; "S1 - Critical"; "S3 - Moderate"]
                    | None => True
                    end).
    { destruct (lookup_key story_severity_map context) as [[v|]|] eqn:E;
        cbn [mbind result_bind] in Hs; [| |discriminate Hs].
      - exists (Some v). split; [reflexivity|].
        exact (lookup_key_In _ _ _ E).
      - exists None. split; [reflexivity|exact I]. }
    destruct Hov as (override & Hov & Hin). rewrite Hov in Hs.
    cbn [mbind result_bind] in Hs.
    simpl in Hbase.
    destruct override as [v|].
    + simpl in Hin.
      destruct Hin as [<-|[<-|[<-|[]]]];
        destruct Hbase as [<-|[<-|[<-|[<-|[]]]]];
        vm_compute in Hs; injection Hs as <-;
        (split; [simpl; tauto|]); intros base Hb; injection Hb as <-;
        vm_compute; lia.
    + injection Hs as <-.
      destruct Hbase as [<-|[<-|[<-|[<-|[]]]]];
        (split; [simpl; tauto|]); intros base Hb; injection Hb as <-;
        vm_compute; lia.
  - pose proof (base_priority_cases (lower type)) as Hbase.
    set (base_priority := default "P3 - Medium" _) in *. clearbody base_priority.
    cbn [lookup_key mbind result_bind].
    intros priority Hs.
    assert (Hov : exists override, lookup_key story_priority_map context = Ok override /\
                    match override with
                    | Some v => In v ["P1 - Critical"; "P2 - High"; "P3 - Medium"; "P4 - Low"]
                    | None => True
                    end).
    { destruct (lookup_key story_priority_map context) as [[v|]|] eqn:E;
        cbn [mbind result_bind] in Hs; [| |discriminate Hs].
      - exists (Some v). split; [reflexivity|].
        exact (lookup_key_In _ _ _ E).
      - exists None. split; [reflexivity|exact I]. }
    destruct Hov as (override & Hov & Hin). rewrite Hov in Hs.
    cbn [mbind result_bind] in Hs.
    simpl in Hbase.
    destruct override as [v|].
    + simpl in Hin.
      destruct Hin as [<-|[<-|[<-|[<-|[]]]]];
        destruct Hbase as [<-|[<-|[<-|[<-|[]]]]];
        vm_compute in Hs; injection Hs as <-;
        (split; [simpl; tauto|]); intros base Hb; injection Hb as <-;
        vm_compute; lia.
    + injection Hs as <-.
      destruct Hbase as [<-|[<-|[<-|[<-|[]]]]];
        (split; [simpl; tauto|]); intros base Hb; injection Hb as <-;
        vm_compute; lia.
Qed.

(** X24. The severity and the priority the original client gives a
    scenario are always one of the four levels S1 to S4 and P1 to P4, so
    that neither sorts under the unknown rank 5; and the type or the
    priority of the story can only raise them above what the type of the
    scenario gives, never lower them. *)
Theorem determine_levels_valid_and_raised (scenario : dict) (context : json) :
  (forall severity,
      _determine_severity scenario context = Ok severity ->
      In severity severities /\
      forall base,
        _determine_severity scenario JNull = Ok base ->
        (_severity_order severity <= _severity_order base <= 4)%nat) /\
  (forall priority,
      _determine_priority scenario context = Ok priority ->
      In priority priorities /\
      forall base,
        _determine_priority scenario JNull = Ok base ->
        (_priority_order priority <= _priority_order base <= 4)%nat).
Proof. apply determine_levels_spec. Qed.

End Levels.


(** ** Processing of the scenarios of the original client *)

Section ProcessScenarios.
Import CursorAIClient.

Lemma key_ltb_spec a b :
  key_ltb a b = true <-> (a.1 < b.1 \/ (a.1 = b.1 /\ a.2 < b.2))%nat.
Proof.
  unfold key_ltb. rewrite orb_true_iff, andb_true_iff, !Nat.ltb_lt, Nat.eqb_eq.
  reflexivity.
Qed.

Lemma key_le_spec x y :
  key_le x y <->
  ((sort_key x).1 < (sort_key y).1 \/
   ((sort_key x).1 = (sort_key y).1 /\ (sort_key x).2 <= (sort_key y).2))%nat.
Proof.
  unfold key_le. rewrite <- not_true_iff_false, key_ltb_spec. lia.
Qed.

Lemma insert_by_key_perm x l : Permutation (insert_by_key x l) (x :: l).
Proof.
  induction l as [|y l IH]; simpl; [reflexivity|].
  destruct (key_ltb (sort_key y) (sort_key x)); [|reflexivity].
  rewrite IH. apply perm_swap.
Qed.

Lemma sort_by_key_perm l : Permutation (sort_by_key l) l.
Proof.
  induction l as [|x l IH]; simpl; [reflexivity|].
  rewrite insert_by_key_perm. now constructor.
Qed.

Lemma insert_by_key_sorted x l :
  StronglySorted key_le l -> StronglySorted key_le (insert_by_key x l).
Proof.
  induction 1 as [|y l Hs IH Hy]; simpl; [repeat constructor|].
  destruct (key_ltb (sort_key y) (sort_key x)) eqn:E.
  - apply key_ltb_spec in E. constructor; [exact IH|].
    rewrite (Forall_forall (key_le y)). intros z Hz.
    apply list_elem_of_In in Hz.
    apply (Permutation_in _ (insert_by_key_perm x l)) in Hz as [<-|Hz].
    + apply key_le_spec. lia.
    + rewrite Forall_forall in Hy. apply Hy. now apply list_elem_of_In.
  - constructor; [now constructor|].
    constructor; [exact E|].
    eapply Forall_impl; [exact Hy|]. intros z Hz.
    apply key_le_spec in Hz. apply key_le_spec.
    apply not_true_iff_false in E. rewrite key_ltb_spec in E. lia.
Qed.

Lemma sort_by_key_sorted l : StronglySorted key_le (sort_by_key l).
Proof.
  induction l as [|x l IH]; simpl; [constructor|]. now apply insert_by_key_sorted.
Qed.

(** What the loop keeps: the levels of the records are valid, their
    normalized titles and descriptions are pairwise different, and all of
    them are in the seen sets. *)
Definition loop_invariant (st : loop_state) : Prop :=
  Forall valid_levels (processed st) /\
  NoDup (normalized_title <$> processed st) /\
  NoDup ((fun r => lower (p_description r)) <$> processed st) /\
  Forall (fun r => normalized_title r ∈ seen_titles st) (processed st) /\
  Forall (fun r => lower (p_description r) ∈ seen_descriptions st) (processed st).

Lemma process_one_invariant story story_fields creator story_type story_priority st scenario :
  loop_invariant st ->
  loop_invariant (process_one story story_fields creator story_type story_priority st scenario).
Proof.
  intros Hinv. unfold process_one.
  destruct scenario as [| | | | |d]; try exact Hinv.
  destruct (_ || _); [exact Hinv|].
  destruct (get_default d "title" JNull) as [| | |title| |]; try exact Hinv.
  destruct (get_default d "description" JNull) as [| | |description| |]; try exact Hinv.
  cbv zeta.
  set (t := strip (collapse_spaces title)).
  set (ds := strip (collapse_spaces description)).
  destruct (bool_decide (remove_leading_verb (lower t) ∈ seen_titles st)) eqn:Et;
    [exact Hinv|].
  destruct (bool_decide (lower ds ∈ seen_descriptions st)) eqn:Ed; [exact Hinv|].
  apply bool_decide_eq_false in Et. apply bool_decide_eq_false in Ed.
  cbn [orb].
  destruct Hinv as (Hlev & Hnt & Hnd & Hst & Hsd).
  assert (Hseen : loop_invariant
            {| processed := processed st;
               seen_titles := {[remove_leading_verb (lower t)]} ∪ seen_titles st;
               seen_descriptions := {[lower ds]} ∪ seen_descriptions st |}).
  { split; [exact Hlev|]. split; [exact Hnt|]. split; [exact Hnd|]. split.
    - eapply Forall_impl; [exact Hst|]. intros r Hr. apply elem_of_union. auto.
    - eapply Forall_impl; [exact Hsd|]. intros r Hr. apply elem_of_union. auto. }
  pose proof (determine_levels_spec d story_type) as [Hsev _].
  pose proof (determine_levels_spec d story_priority) as [_ Hpri].
  destruct (_determine_severity d story_type) as [severity|]; cbn [mbind result_bind];
    [|exact Hseen].
  destruct (_determine_priority d story_priority) as [priority|]; cbn [mbind result_bind];
    [|exact Hseen].
  destruct (Hsev severity eq_refl) as [Hs _]. destruct (Hpri priority eq_refl) as [Hp _].
  match goal with
  | |- loop_invariant {| processed := _ ++ [?r]; seen_titles := _; seen_descriptions := _ |} =>
      set (r0 := r)
  end.
  assert (Ht0 : normalized_title r0 = remove_leading_verb (lower t)) by reflexivity.
  assert (Hd0 : lower (p_description r0) = lower ds) by reflexivity.
  assert (Hl0 : valid_levels r0) by (split; assumption).
  clearbody r0.
  destruct Hseen as (_ & _ & _ & Hst' & Hsd').
  cbn [processed seen_titles seen_descriptions] in Hst', Hsd'.
  unfold loop_invariant. cbn [processed seen_titles seen_descriptions].
  split; [|split; [|split; [|split]]].
  - apply Forall_app. split; [exact Hlev|]. constructor; [exact Hl0|constructor].
  - rewrite fmap_app. apply NoDup_app. split; [exact Hnt|]. split; [|apply NoDup_singleton].
    intros x Hx Hx'. apply list_elem_of_singleton in Hx'. subst x.
    apply list_elem_of_fmap in Hx as (r & Hr & Hin).
    rewrite Forall_forall in Hst. specialize (Hst r Hin).
    apply Et. rewrite <- Ht0, Hr. exact Hst.
  - rewrite fmap_app. apply NoDup_app. split; [exact Hnd|]. split; [|apply NoDup_singleton].
    intros x Hx Hx'. apply list_elem_of_singleton in Hx'. subst x.
    apply list_elem_of_fmap in Hx as (r & Hr & Hin).
    rewrite Forall_forall in Hsd. specialize (Hsd r Hin).
    apply Ed. rewrite <- Hd0, Hr. exact Hsd.
  - apply Forall_app. split; [exact Hst'|]. constructor; [|constructor].
    rewrite Ht0. apply elem_of_union. left. now apply elem_of_singleton.
  - apply Forall_app. split; [exact Hsd'|]. constructor; [|constructor].
    rewrite Hd0. apply elem_of_union. left. now apply elem_of_singleton.
Qed.

Lemma fold_process_invariant story story_fields creator story_type story_priority scenarios :
  forall st,
    loop_invariant st ->
    loop_invariant
      (fold_left (process_one story story_fields creator story_type story_priority)
                 scenarios st).
Proof.
  induction scenarios as [|s rest IH]; intros st Hinv; [exact Hinv|].
  simpl. apply IH. now apply process_one_invariant.
Qed.

(** X25. Whatever the scenarios and the story are, the processing of the
    original client returns a list that is sorted by priority rank and,
    within one priority, by severity rank; every record of it has a
    severity and a priority of the enumerations; and no two records have
    the same title up to case and a leading verb, or the same description
    up to case. *)
Theorem process_scenarios_sorted_valid_distinct (scenarios story : json) :
  StronglySorted key_le (_process_scenarios scenarios story) /\
  Forall valid_levels (_process_scenarios scenarios story) /\
  NoDup (normalized_title <$> _process_scenarios scenarios story) /\
  NoDup ((fun r => lower (p_description r)) <$> _process_scenarios scenarios story).
Proof.
  assert (Hnil : StronglySorted key_le [] /\ Forall valid_levels [] /\
                 NoDup (normalized_title <$> []) /\
                 NoDup ((fun r => lower (p_description r)) <$> [])).
  { repeat split; constructor. }
  unfold _process_scenarios.
  destruct scenarios as [| | | |[|s ss]|]; try exact Hnil.
  destruct story as [| | | | |[|b bs]]; try exact Hnil.
  cbv zeta.
  match goal with
  | |- context [match ?c with Ok _ => _ | Raise _ => _ end] => destruct c as [[[[fields creator] story_type] story_priority]|]
  end; [|exact Hnil].
  match goal with
  | |- context [sort_by_key (processed ?st)] =>
      assert (Hinv : loop_invariant st)
  end.
  { apply fold_process_invariant. repeat split; constructor. }
  destruct Hinv as (Hlev & Hnt & Hnd & _ & _).
  match goal with
  | |- context [sort_by_key ?l] => pose proof (sort_by_key_perm l) as Hperm
  end.
  split; [apply sort_by_key_sorted|]. split; [|split].
  - rewrite Forall_forall in Hlev |- *. intros r Hr. apply Hlev.
    apply list_elem_of_In. apply list_elem_of_In in Hr.
    exact (Permutation_in _ Hperm Hr).
  - rewrite (fmap_Permutation normalized_title _ _ Hperm). exact Hnt.
  - rewrite (fmap_Permutation (fun r => lower (p_description r)) _ _ Hperm). exact Hnd.
Qed.

End ProcessScenarios.

(** ** The padding records *)

Section Padding.
Import AIServiceManager.
Context (L : pylib).

Lemma append_inv_head s a b : s +:+ a = s +:+ b -> a = b.
Proof.
  induction s as [|c s IH]; simpl; intros H; [exact H|].
  injection H as H. auto.
Qed.

(** X26. For one story, the template records for two different indices
    have different titles: the padding of the bounder never adds the same
    title twice. *)
Theorem generate_basic_scenario_titles_distinct (story : dict) (i j : Z) (ri rj : dict) :
  i <> j ->
  _generate_basic_scenario L story i = Ok ri ->
  _generate_basic_scenario L story j = Ok rj ->
  (exists ti tj,
      dict_get ri "title" = Some (JStr ti) /\
      dict_get rj "title" = Some (JStr tj) /\
      ti <> tj).
Proof.
  intros Hij. unfold _generate_basic_scenario.
  destruct (as_dict _) as [fields|]; cbn [mbind result_bind]; [|discriminate].
  cbv zeta.
  set (t := format_value L (get_default fields "summary" (JStr "Test Story"))).
  clearbody t.
  assert (Hi : (Z.to_nat ((i - 1) mod 3) < 3)%nat).
  { pose proof (Z.mod_pos_bound (i - 1) 3 ltac:(lia)). lia. }
  assert (Hj : (Z.to_nat ((j - 1) mod 3) < 3)%nat).
  { pose proof (Z.mod_pos_bound (j - 1) 3 ltac:(lia)). lia. }
  revert Hi Hj. generalize (Z.to_nat ((i - 1) mod 3)) as a.
  generalize (Z.to_nat ((j - 1) mod 3)) as b.
  intros b a Ha Hb Hri Hrj. injection Hri as <-. injection Hrj as <-.
  assert (Hp : pretty i <> pretty j) by (intros H; apply Hij; exact (inj pretty _ _ H)).
  destruct a as [|[|[|a]]]; [| | |lia]; destruct b as [|[|[|b]]]; try lia;
    cbn [nth app dict_get String.eqb Ascii.eqb Bool.eqb];
    (eexists _, _; split; [reflexivity|]; split; [reflexivity|]);
    intros H; apply (append_inv_head "Verify "), append_inv_head in H;
    try (apply (append_inv_head " - Functional Test ") in H; contradiction);
    try (apply (append_inv_head " - Error Handling ") in H; contradiction);
    try (apply (append_inv_head " - Boundary Test ") in H; contradiction);
    cbn [String.append] in H; discriminate H.
Qed.

End Padding.

(** ** The further statements on concrete inputs *)

Section FurtherWitnesses.
Import AIServiceManager StoryTestGenerator.

Lemma check_rate_limit_never_overdraws_witness :
  within_limits (init 0) /\
  within_limits (check_rate_limit_run (init 0) sample_calls).2.
Proof.
  assert (H : within_limits (init 0)).
  { intros service. unfold counter. simpl. rewrite lookup_empty. simpl. lia. }
  split; [exact H|].
  exact (check_rate_limit_never_overdraws (init 0) sample_calls H).
Defined.

Lemma check_rate_limit_admits_up_to_budget_witness :
  Forall (fun c => within_window (init 0) c.1) sample_calls /\
  admitted_for "groq" sample_calls (check_rate_limit_run (init 0) sample_calls).1
  = Nat.min (length (calls_for "groq" sample_calls))
            (rate_limit_of "groq" - counter (init 0) "groq").
Proof.
  assert (H : Forall (fun c => within_window (init 0) c.1) sample_calls).
  { apply Forall_replicate. vm_compute. discriminate. }
  split; [exact H|].
  exact (check_rate_limit_admits_up_to_budget "groq" sample_calls (init 0)
           (check_rate_limit_run (init 0) sample_calls).1
           (check_rate_limit_run (init 0) sample_calls).2
           H (surjective_pairing _)).
Defined.

Lemma remove_duplicate_scenarios_idempotent_witness :
  Forall has_str_title sample_scenarios /\
  exists out,
    _remove_duplicate_scenarios sample_scenarios = Ok out /\
    _remove_duplicate_scenarios out = Ok out.
Proof.
  assert (H : Forall has_str_title sample_scenarios).
  { repeat constructor; eexists; reflexivity. }
  split; [exact H|].
  exact (remove_duplicate_scenarios_idempotent sample_scenarios H).
Defined.

Lemma remove_duplicate_scenarios_raises_on_bad_title_witness :
  ~ Forall has_str_title untitled_scenarios /\
  _remove_duplicate_scenarios untitled_scenarios = Raise AttributeError.
Proof.
  assert (H : ~ Forall has_str_title untitled_scenarios).
  { intros H. apply Forall_cons in H as [_ H]. apply Forall_cons in H as [[s Hs] _].
    discriminate Hs. }
  split; [exact H|].
  exact (proj2 (remove_duplicate_scenarios_raises_on_bad_title untitled_scenarios) H).
Defined.

Lemma remove_duplicate_scenarios_keeps_blank_titles_witness :
  (Forall has_str_title blank_titled /\
   titled "   " ∈ blank_titled /\
   word_set (title_of (titled "   ")) = ∅) /\
  exists out, _remove_duplicate_scenarios blank_titled = Ok out /\ titled "   " ∈ out.
Proof.
  assert (H1 : Forall has_str_title blank_titled).
  { repeat constructor; eexists; reflexivity. }
  assert (H2 : titled "   " ∈ blank_titled).
  { apply elem_of_cons. right. apply elem_of_cons. left. reflexivity. }
  assert (H3 : word_set (title_of (titled "   ")) = ∅) by reflexivity.
  split; [auto|].
  exact (remove_duplicate_scenarios_keeps_blank_titles blank_titled (titled "   ") H1 H2 H3).
Defined.

Lemma improved_parse_scenarios_empty_on_rejected_array_witness :
  (json_loads array_lib "[null]" = Ok (JArr [JNull]) /\
   [JNull] <> [] /\
   Forall (fun c => _validate_and_clean_scenario c = Ok None) [JNull]) /\
  _improved_parse_scenarios array_lib "[null]" = Ok [].
Proof.
  assert (H1 : json_loads array_lib "[null]" = Ok (JArr [JNull])) by reflexivity.
  assert (H2 : [JNull] <> []) by discriminate.
  assert (H3 : Forall (fun c => _validate_and_clean_scenario c = Ok None) [JNull]).
  { repeat constructor. }
  split; [auto|].
  exact (improved_parse_scenarios_empty_on_rejected_array array_lib "[null]" [JNull] H1 H2 H3).
Defined.

Lemma generate_cache_only_grows_witness :
  scenario_cache sample_state_login !! "Login" = Some "[]" /\
  scenario_cache
    (generate_comprehensive_test_scenarios sample_lib sample_oracle default_config
       sample_state_login 0 (sample_story "x")).2 !! "Login" = Some "[]".
Proof.
  assert (H : scenario_cache sample_state_login !! "Login" = Some "[]")
    by (vm_compute; reflexivity).
  split; [exact H|].
  exact (proj1 (generate_cache_only_grows sample_lib sample_oracle default_config
                  sample_state_login 0 (sample_story "x")) "Login" "[]" H).
Defined.

Lemma generate_without_cache_witness :
  cache_enabled cache_off_state = false /\
  (generate_comprehensive_test_scenarios sample_lib sample_oracle default_config
     (set_scenario_cache cache_off_state {[ "Login" := "[]" ]}) 0 (sample_story "x")).1
  = (generate_comprehensive_test_scenarios sample_lib sample_oracle default_config
       cache_off_state 0 (sample_story "x")).1 /\
  scenario_cache
    (generate_comprehensive_test_scenarios sample_lib sample_oracle default_config
       cache_off_state 0 (sample_story "x")).2
  = scenario_cache cache_off_state.
Proof.
  assert (H : cache_enabled cache_off_state = false) by reflexivity.
  split; [exact H|].
  exact (generate_without_cache sample_lib sample_oracle default_config
           cache_off_state 0 (sample_story "x") {[ "Login" := "[]" ]} H).
Defined.

Lemma validate_and_enhance_scenarios_contract_witness :
  Forall str_titled [JObj (titled "Verify login works"); JNull] /\
  exists out,
    _validate_and_enhance_scenarios sample_oracle
      [JObj (titled "Verify login works"); JNull] (sample_story "x") = Ok out.
Proof.
  assert (H : Forall str_titled [JObj (titled "Verify login works"); JNull]).
  { repeat constructor. eexists. reflexivity. }
  split; [exact H|].
  exact (proj2 (proj1 (validate_and_enhance_scenarios_contract sample_oracle
                         [JObj (titled "Verify login works"); JNull] (sample_story "x")))
               H).
Defined.

Lemma prioritize_scenarios_stable_witness :
  Forall rankable ranked_scenarios /\
  exists sorted,
    _prioritize_scenarios ranked_scenarios = Ok sorted /\
    forall k, filter (fun r => score r = k) sorted
              = filter (fun r => score r = k) ranked_scenarios.
Proof.
  assert (H : Forall rankable ranked_scenarios) by (repeat constructor).
  split; [exact H|].
  exact (prioritize_scenarios_stable ranked_scenarios H).
Defined.

Lemma prioritize_scenarios_raises_on_unhashable_witness :
  ~ Forall rankable unrankable_scenarios /\
  _prioritize_scenarios unrankable_scenarios = Raise TypeError.
Proof.
  assert (H : ~ Forall rankable unrankable_scenarios).
  { intros H. apply Forall_cons in H as [_ H]. apply Forall_cons in H as [[Hp _] _].
    exact Hp. }
  split; [exact H|].
  exact (proj2 (prioritize_scenarios_raises_on_unhashable unrankable_scenarios) H).
Defined.

Lemma ensure_scenario_limits_reads_story_to_pad_witness :
  ((min_scenarios default_config <= Z.of_nat (length sample_scenarios))%Z /\
   _ensure_scenario_limits sample_lib default_config sample_scenarios malformed_story
   = _ensure_scenario_limits sample_lib default_config sample_scenarios (sample_story "x")) /\
  ((Z.of_nat (length (@nil dict)) < min_scenarios default_config)%Z /\
   ~ story_fields_ok malformed_story /\
   _ensure_scenario_limits sample_lib default_config [] malformed_story
   = Raise AttributeError).
Proof.
  assert (H1 : (min_scenarios default_config <= Z.of_nat (length sample_scenarios))%Z)
    by (simpl; lia).
  assert (H2 : (Z.of_nat (length (@nil dict)) < min_scenarios default_config)%Z)
    by (simpl; lia).
  assert (H3 : ~ story_fields_ok malformed_story).
  { intros [fields Hf]. discriminate Hf. }
  split.
  - split; [exact H1|].
    exact (proj1 (ensure_scenario_limits_reads_story_to_pad sample_lib default_config
                    sample_scenarios (sample_story "x")) H1 malformed_story).
  - split; [exact H2|]. split; [exact H3|].
    exact (proj2 (ensure_scenario_limits_reads_story_to_pad sample_lib default_config
                    [] malformed_story) H2 H3).
Defined.

Lemma ensure_scenario_limits_max_below_min_witness :
  ((0 <= max_scenarios inverted_config < min_scenarios inverted_config)%Z /\
   story_fields_ok (sample_story "x") /\
   Forall rankable sample_scenarios) /\
  exists out,
    _ensure_scenario_limits sample_lib inverted_config sample_scenarios (sample_story "x")
    = Ok out /\
    Z.of_nat (length out) = max_scenarios inverted_config.
Proof.
  assert (H1 : (0 <= max_scenarios inverted_config < min_scenarios inverted_config)%Z)
    by (simpl; lia).
  assert (H2 : story_fields_ok (sample_story "x")) by (eexists; reflexivity).
  assert (H3 : Forall rankable sample_scenarios) by (repeat constructor).
  split; [auto|].
  exact (ensure_scenario_limits_max_below_min sample_lib inverted_config
           sample_scenarios (sample_story "x") H1 H2 H3).
Defined.

Lemma filter_unique_scenarios_contract_witness :
  (Forall has_str_title sample_scenarios /\
   Forall has_str_title [titled "Verify logout works"]) /\
  exists out,
    _filter_unique_scenarios sample_scenarios [titled "Verify logout works"] = Ok out /\
    sublist out sample_scenarios /\
    apart [titled "Verify logout works"] out /\
    (forall before r after,
        sample_scenarios = before ++ r :: after ->
        Forall (fun a => (title_similarity r a <= 7 # 10)%Q)
               ([titled "Verify logout works"] ++ before) ->
        r ∈ out).
Proof.
  assert (H1 : Forall has_str_title sample_scenarios).
  { repeat constructor; eexists; reflexivity. }
  assert (H2 : Forall has_str_title [titled "Verify logout works"]).
  { repeat constructor; eexists; reflexivity. }
  split; [auto|].
  exact (filter_unique_scenarios_contract sample_scenarios
           [titled "Verify logout works"] H1 H2).
Defined.

Lemma generate_ai_scenarios_bounded_witness :
  (get_default (sample_story "x") "fields" (JObj [])
   = JObj [("summary", JStr "Login"); ("description", JStr "x")] /\
   _calculate_optimal_scenario_count
     (get_default [("summary", JStr "Login"); ("description", JStr "x")]
        "summary" (JStr EmptyString)) = Ok 6%nat) /\
  sized_within 6
    (generate_ai_scenarios sample_lib sample_oracle default_config
       (Ok (Some (sample_story "x"))) (init 0) 0).1.
Proof.
  assert (H1 : get_default (sample_story "x") "fields" (JObj [])
               = JObj [("summary", JStr "Login"); ("description", JStr "x")])
    by reflexivity.
  assert (H2 : _calculate_optimal_scenario_count
                 (get_default [("summary", JStr "Login"); ("description", JStr "x")]
                    "summary" (JStr EmptyString)) = Ok 6%nat)
    by (vm_compute; reflexivity).
  split; [auto|].
  exact (proj1 (proj2 (generate_ai_scenarios_bounded sample_lib sample_oracle default_config
                         (Ok (Some (sample_story "x"))) (init 0) 0))
               (sample_story "x") _ 6%nat eq_refl H1 H2).
Defined.

Lemma determine_levels_valid_and_raised_witness :
  (CursorAIClient._determine_severity [("type", JStr "UI")] (JStr "Bug") = Ok "S2 - Major" /\
   CursorAIClient._determine_severity [("type", JStr "UI")] JNull = Ok "S3 - Moderate") /\
  In "S2 - Major" severities /\
  (CursorAIClient._severity_order "S2 - Major"
   <= CursorAIClient._severity_order "S3 - Moderate" <= 4)%nat.
Proof.
  assert (H1 : CursorAIClient._determine_severity [("type", JStr "UI")] (JStr "Bug")
               = Ok "S2 - Major") by (vm_compute; reflexivity).
  assert (H2 : CursorAIClient._determine_severity [("type", JStr "UI")] JNull
               = Ok "S3 - Moderate") by (vm_compute; reflexivity).
  split; [auto|].
  destruct (proj1 (determine_levels_valid_and_raised [("type", JStr "UI")] (JStr "Bug"))
              "S2 - Major" H1) as [Hin Hle].
  split; [exact Hin|]. exact (Hle "S3 - Moderate" H2).
Defined.

Lemma generate_basic_scenario_titles_distinct_witness :
  (1%Z <> 4%Z /\
   _generate_basic_scenario sample_lib (sample_story "x") 1 = Ok (padding_record 1) /\
   _generate_basic_scenario sample_lib (sample_story "x") 4 = Ok (padding_record 4)) /\
  exists ti tj,
    dict_get (padding_record 1) "title" = Some (JStr ti) /\
    dict_get (padding_record 4) "title" = Some (JStr tj) /\
    ti <> tj.
Proof.
  assert (H0 : 1%Z <> 4%Z) by lia.
  assert (H1 : _generate_basic_scenario sample_lib (sample_story "x") 1
               = Ok (padding_record 1)) by reflexivity.
  assert (H2 : _generate_basic_scenario sample_lib (sample_story "x") 4
               = Ok (padding_record 4)) by reflexivity.
  split; [auto|].
  exact (generate_basic_scenario_titles_distinct sample_lib (sample_story "x") 1 4
           (padding_record 1) (padding_record 4) H0 H1 H2).
Defined.


End FurtherWitnesses.


(** * The code against the words of the specification *)

(** ** Text *)

Section Readings.

Lemma ascii_all (P : ascii -> Prop) :
  (forall b0 b1 b2 b3 b4 b5 b6 b7, P (Ascii b0 b1 b2 b3 b4 b5 b6 b7)) -> forall c, P c.
Proof. intros H [b0 b1 b2 b3 b4 b5 b6 b7]. apply H. Qed.

Ltac each_ascii :=
  let c := fresh "c" in
  intros c; pattern c; apply ascii_all;
  intros [] [] [] [] [] [] [] []; vm_compute; reflexivity.

Lemma isspace_white : forall c, isspace c = Wording.white c.
Proof. each_ascii. Qed.



Lemma lower_char_small : forall c, lower_char c = Wording.small c.
Proof. each_ascii. Qed.



Lemma text_chars s : Wording.text (Wording.chars s) = s.
Proof. apply string_of_list_ascii_of_string. Qed.


Lemma text_app l1 l2 : Wording.text (l1 ++ l2) = Wording.text l1 +:+ Wording.text l2.
Proof. induction l1 as [|c l1 IH]; simpl; [reflexivity|]. now rewrite IH. Qed.

Lemma string_app_assoc (x y z : string) : (x +:+ y) +:+ z = x +:+ (y +:+ z).
Proof.
  induction x as [|c x IH]; [reflexivity|].
  change (String c ((x +:+ y) +:+ z) = String c (x +:+ (y +:+ z))). now rewrite IH.
Qed.



Lemma lower_lowercase s : lower s = Wording.lowercase s.
Proof.
  unfold lower, Wording.lowercase.
  induction s as [|c s IH]; [reflexivity|].
  simpl. now rewrite IH, lower_char_small.
Qed.














(** *** Records *)

Lemma dict_get_field d k : dict_get d k = Wording.field d k.
Proof.
  unfold Wording.field. induction d as [|[k' v] d IH]; [reflexivity|].
  simpl. rewrite (String.eqb_sym k' k). destruct (String.eqb k k'); [reflexivity|exact IH].
Qed.

Lemma get_default_field d k dflt :
  get_default d k dflt = default dflt (Wording.field d k).
Proof. unfold get_default. rewrite dict_get_field. now destruct (Wording.field d k). Qed.

(** *** Words *)

Lemma words_from_split l : forall word,
  Wording.words_from word l
  = match word with
    | [] => split_ws (Wording.text l)
    | _ =>
        if split_ws_head (Wording.text l)
        then Wording.text (rev word) :: split_ws (Wording.text l)
        else match split_ws (Wording.text l) with
             | w :: ws => (Wording.text (rev word) +:+ w) :: ws
             | [] => [Wording.text (rev word)]
             end
    end.
Proof.
  induction l as [|c l IH]; intros word.
  - destruct word; reflexivity.
  - cbn [Wording.words_from]. rewrite <- isspace_white.
    change (Wording.text (c :: l)) with (String c (Wording.text l)).
    cbn [split_ws split_ws_head].
    destruct (isspace c) eqn:Ec.
    + destruct word as [|a word]; rewrite (IH []); reflexivity.
    + rewrite (IH (c :: word)).
      destruct word as [|a word].
      * cbn [rev app]. simpl Wording.text.
        destruct (split_ws_head (Wording.text l)); [reflexivity|].
        destruct (split_ws (Wording.text l)); reflexivity.
      * assert (Hsnoc : forall w,
                  Wording.text (rev (c :: a :: word)) +:+ w
                  = Wording.text (rev (a :: word)) +:+ String c w).
        { intros w. change (rev (c :: a :: word)) with (rev (a :: word) ++ [c]).
          rewrite text_app, string_app_assoc. reflexivity. }
        assert (Hone : Wording.text (rev (c :: a :: word))
                       = Wording.text (rev (a :: word)) +:+ String c EmptyString).
        { change (rev (c :: a :: word)) with (rev (a :: word) ++ [c]).
          now rewrite text_app. }
        destruct (split_ws_head (Wording.text l)).
        -- now rewrite Hone.
        -- destruct (split_ws (Wording.text l)) as [|w ws].
           ++ now rewrite Hone.
           ++ now rewrite Hsnoc.
Qed.

Lemma word_set_tokens t : word_set t = Wording.word_tokens t.
Proof.
  unfold word_set, Wording.word_tokens.
  rewrite (words_from_split _ []), text_chars, lower_lowercase. reflexivity.
Qed.

End Readings.


(** ** The validator *)

Section ValidatorWording.

Lemma text_field_get_default c k s :
  Wording.text_field c k = Some s <-> get_default c k (JStr EmptyString) = JStr s.
Proof.
  unfold Wording.text_field. rewrite get_default_field.
  destruct (Wording.field c k) as [[| | |s'| |]|]; simpl; split; intros H;
    try discriminate H; injection H as <-; reflexivity.
Qed.

Lemma has_text_str_or_absent c k : Wording.has_text c k <-> str_or_absent c k.
Proof.
  unfold Wording.has_text, str_or_absent.
  split; intros [s H]; exists s; now apply text_field_get_default.
Qed.


















End ValidatorWording.

(** ** Deduplication *)

Section DedupeWording.

Lemma title_of_title_text r : title_of r = Wording.title_text r.
Proof.
  unfold title_of, Wording.title_text. rewrite get_default_field.
  destruct (Wording.field r "title") as [[| | | | |]|]; reflexivity.
Qed.

Lemma jaccard_index_reading (a b : gset string) :
  (jaccard a b == Wording.jaccard_index a b)%Q.
Proof.
  unfold jaccard, Wording.jaccard_index.
  destruct (decide (a = ∅)) as [Ha|Ha].
  { rewrite (bool_decide_eq_true_2 (a = ∅) Ha).
    rewrite (bool_decide_eq_true_2 (a = ∅ \/ b = ∅)) by (now left). reflexivity. }
  destruct (decide (b = ∅)) as [Hb|Hb].
  { rewrite (bool_decide_eq_true_2 (b = ∅) Hb), orb_true_r.
    rewrite (bool_decide_eq_true_2 (a = ∅ \/ b = ∅)) by (now right). reflexivity. }
  rewrite (bool_decide_eq_false_2 (a = ∅) Ha), (bool_decide_eq_false_2 (b = ∅) Hb).
  rewrite (bool_decide_eq_false_2 (a = ∅ \/ b = ∅)) by tauto.
  cbn [orb].
  pose proof (union_nonempty a b Ha) as Hu. apply Nat.ltb_lt in Hu.
  destruct (size (a ∪ b)) as [|n]; [lia|].
  rewrite Qmake_Qdiv, <- Pos.of_nat_succ. reflexivity.
Qed.

Lemma similarity_reading r1 r2 :
  (title_similarity r1 r2 == Wording.similarity r1 r2)%Q.
Proof.
  unfold title_similarity, Wording.similarity.
  rewrite !title_of_title_text, !word_set_tokens. apply jaccard_index_reading.
Qed.

Lemma within_threshold_reading r1 r2 :
  exceeds_threshold (title_similarity r1 r2)
  = negb (Qle_bool (Wording.similarity r1 r2) Wording.threshold).
Proof.
  unfold exceeds_threshold, Wording.threshold. f_equal.
  apply eq_true_iff_eq. rewrite !Qle_bool_iff, similarity_reading. tauto.
Qed.

Lemma duplicate_test_reading r kept :
  existsb (fun a => exceeds_threshold (title_similarity r a)) kept
  = negb (forallb (fun k => Qle_bool (Wording.similarity r k) Wording.threshold) kept).
Proof.
  induction kept as [|k kept IH]; [reflexivity|].
  cbn [existsb forallb]. rewrite IH, within_threshold_reading, negb_andb. reflexivity.
Qed.

(** The rule in the model of the loop is the rule of the wording. *)
Lemma first_seen_reading records : forall kept,
  first_seen_wins kept records = Wording.first_seen kept records.
Proof.
  induction records as [|r rest IH]; intros kept; [reflexivity|].
  cbn [first_seen_wins Wording.first_seen]. rewrite duplicate_test_reading.
  destruct (forallb _ kept); cbn [negb]; apply IH.
Qed.

Lemma apart_titles_reading records :
  no_near_duplicates records -> Wording.apart_titles records.
Proof.
  unfold Wording.apart_titles.
  induction records as [|a later IH]; [constructor|].
  intros [Ha Hl]. constructor; [|now apply IH].
  apply List.Forall_forall. intros b Hb.
  rewrite <- similarity_reading. unfold Wording.threshold.
  now apply (proj1 (List.Forall_forall _ _) Ha).
Qed.

Lemma first_seen_keeps records kept :
  exists added, Wording.first_seen kept records = kept ++ added /\ sublist added records.
Proof. rewrite <- first_seen_reading. apply first_seen_wins_extends. Qed.

(** A record is left out only for a near duplicate kept before it. *)
Lemma first_seen_left_out records : forall kept r,
  r ∈ records ->
  r ∈ Wording.first_seen kept records \/
  exists k, k ∈ Wording.first_seen kept records /\ Wording.near r k.
Proof.
  induction records as [|r0 rest IH]; intros kept r Hin; [now apply elem_of_nil in Hin|].
  cbn [Wording.first_seen].
  destruct (forallb _ kept) eqn:E.
  - apply elem_of_cons in Hin as [->|Hin]; [|now apply IH].
    left. destruct (first_seen_keeps rest (kept ++ [r0])) as (added & -> & _).
    apply elem_of_app. left. apply elem_of_app. right. left.
  - apply elem_of_cons in Hin as [->|Hin]; [|now apply IH].
    right.
    assert (Hex : exists k, k ∈ kept /\
              Qle_bool (Wording.similarity r0 k) Wording.threshold = false).
    { clear -E. induction kept as [|k kept IHk]; [discriminate E|].
      cbn [forallb] in E. apply andb_false_iff in E as [E|E].
      - exists k. split; [left|exact E].
      - destruct (IHk E) as (k' & Hk' & E'). exists k'. split; [now right|exact E']. }
    destruct Hex as (k & Hk & Hfar). exists k. split.
    + destruct (first_seen_keeps rest kept) as (added & -> & _).
      apply elem_of_app. now left.
    + unfold Wording.near. apply Qnot_le_lt. intros Hle.
      apply Qle_bool_iff in Hle. congruence.
Qed.

(** C6. Deduplication of records whose titles are texts, against the
    wording of the specification. The function returns the list that
    first-seen-wins picks: the records are read in order and one is kept
    unless a record kept before it is a near duplicate of it, two records
    being near duplicates when the Jaccard index of the lower-cased
    word-token sets of their titles (the size of the intersection divided
    by the size of the union, 0 when either set is empty) exceeds 0.8.
    The output is a subsequence of the input; it starts with the first
    record of the input; every record of the input is in the output or
    is a near duplicate of a record of the output; and no two records of
    the output are near duplicates. *)
Theorem remove_duplicate_scenarios_first_seen_wins (scenarios : list dict) :
  Forall (fun r => Wording.has_text r "title") scenarios ->
  exists out,
    _remove_duplicate_scenarios scenarios = Ok out /\
    out = Wording.first_seen [] scenarios /\
    sublist out scenarios /\
    (forall first rest, scenarios = first :: rest -> exists out', out = first :: out') /\
    (forall r, r ∈ scenarios -> r ∈ out \/ exists k, k ∈ out /\ Wording.near r k) /\
    Wording.apart_titles out.
Proof.
  intros Htext.
  assert (Hstr : Forall has_str_title scenarios).
  { eapply Forall_impl; [exact Htext|]. intros r Hr. now apply has_text_str_or_absent. }
  exists (Wording.first_seen [] scenarios).
  split.
  { rewrite <- first_seen_reading. exact (dedupe_each_refines scenarios [] Hstr). }
  split; [reflexivity|].
  split.
  { destruct (first_seen_keeps scenarios []) as (added & -> & Hsub). exact Hsub. }
  split.
  { intros first rest ->. cbn [Wording.first_seen forallb app].
    destruct (first_seen_keeps rest [first]) as (added & -> & _). eauto. }
  split; [intros r; apply first_seen_left_out|].
  rewrite <- first_seen_reading. apply apart_titles_reading.
  now apply first_seen_wins_distinct.
Qed.

(** Deduplication on three records, the second of which differs from the
    first in case only: the first and the third are kept. *)
Lemma remove_duplicate_scenarios_first_seen_wins_witness :
  Forall (fun r => Wording.has_text r "title") sample_scenarios /\
  _remove_duplicate_scenarios sample_scenarios
  = Ok [titled "Verify login works for the user"; titled "Verify logout works"] /\
  Wording.near (titled "verify LOGIN works for the user")
               (titled "Verify login works for the user").
Proof.
  assert (H : Forall (fun r => Wording.has_text r "title") sample_scenarios).
  { repeat constructor; eexists; reflexivity. }
  assert (Hcomputed : _remove_duplicate_scenarios sample_scenarios
                      = Ok [titled "Verify login works for the user";
                            titled "Verify logout works"])
    by (vm_compute; reflexivity).
  split; [exact H|].
  destruct (remove_duplicate_scenarios_first_seen_wins sample_scenarios H)
    as (out & Hrun & Hout & _ & _ & Hnear & _).
  split.
  - rewrite Hrun, Hout. vm_compute. reflexivity.
  - rewrite Hcomputed in Hrun. injection Hrun as <-.
    destruct (Hnear (titled "verify LOGIN works for the user")) as [Hin|(k & Hk & Hn)].
    + right. left.
    + exfalso.
      apply elem_of_cons in Hin as [Hin|Hin]; [discriminate Hin|].
      apply elem_of_cons in Hin as [Hin|Hin]; [discriminate Hin|].
      now apply elem_of_nil in Hin.
    + apply elem_of_cons in Hk as [->|Hk]; [exact Hn|].
      apply elem_of_cons in Hk as [->|Hk]; [|now apply elem_of_nil in Hk].
      vm_compute in Hn. discriminate Hn.
Defined.

End DedupeWording.

(** ** The bounder *)

Section BounderWording.
Import AIServiceManager.
Context (L : pylib) (cfg : ai_config).

Lemma hashable_atomic r k dflt :
  hashable (get_default r k (JStr dflt)) <-> Wording.atomic (Wording.field r k).
Proof.
  rewrite get_default_field.
  destruct (Wording.field r k) as [[| | | | |]|]; simpl; tauto.
Qed.

Lemma rankable_can_be_ranked r : Wording.can_be_ranked r <-> rankable r.
Proof. unfold Wording.can_be_ranked, rankable. now rewrite !hashable_atomic. Qed.

Lemma priority_place s :
  default 3%nat (table_get priority_order s)
  = default 3%nat (Wording.place Wording.priority_levels s).
Proof.
  unfold priority_order, Wording.priority_levels. cbn [table_get Wording.place].
  repeat (destruct (String.eqb s _); [reflexivity|]). reflexivity.
Qed.

Lemma severity_place s :
  default 3%nat (table_get severity_order s)
  = default 3%nat (Wording.place Wording.severity_levels s).
Proof.
  unfold severity_order, Wording.severity_levels. cbn [table_get Wording.place].
  repeat (destruct (String.eqb s _); [reflexivity|]). reflexivity.
Qed.

(** The key by which the code sorts is the rank of the wording. *)
Lemma scenario_score_rank r :
  rankable r -> scenario_score r = Ok (Wording.rank r).
Proof.
  unfold rankable, scenario_score, Wording.rank, Wording.ordinal.
  rewrite !get_default_field. intros [Hp Hs].
  destruct (Wording.field r "priority") as [[| | |p| |]|];
    try contradiction;
    destruct (Wording.field r "severity") as [[| | |s| |]|];
    try contradiction;
    cbn [from_option id order_get mbind result_bind];
    rewrite ?priority_place, ?severity_place; reflexivity.
Qed.

Lemma score_rank r : rankable r -> score r = Wording.rank r.
Proof. intros H. unfold score. now rewrite (scenario_score_rank r H). Qed.

Lemma printed_summary_fields story summary :
  Wording.printed_summary L story = Some summary -> story_fields_ok story.
Proof.
  unfold Wording.printed_summary, story_fields_ok. rewrite get_default_field.
  destruct (Wording.field story "fields") as [[| | | | |fields]|];
    try discriminate; intros _; eexists; reflexivity.
Qed.

(** The record the code synthesizes is the template record of the
    wording. *)
Lemma generate_basic_scenario_template story summary index :
  Wording.printed_summary L story = Some summary ->
  _generate_basic_scenario L story index = Ok (Wording.template_record summary index).
Proof.
  unfold Wording.printed_summary, _generate_basic_scenario, Wording.template_record,
    Wording.template_kind.
  rewrite (get_default_field story).
  intros Hsum.
  assert (Hfmt : exists fields,
             default (JObj []) (Wording.field story "fields") = JObj fields /\
             format_value L (get_default fields "summary" (JStr "Test Story")) = summary).
  { destruct (Wording.field story "fields") as [[| | | | |fields]|];
      try discriminate Hsum.
    - exists fields. split; [reflexivity|]. rewrite get_default_field.
      destruct (Wording.field fields "summary") as [[| | | | |]|];
        injection Hsum as <-; reflexivity.
    - exists []. split; [reflexivity|]. injection Hsum as <-. reflexivity. }
  destruct Hfmt as (fields & -> & Hfmt).
  cbn [as_dict mbind result_bind]. cbv zeta. rewrite Hfmt.
  pose proof (Z.mod_pos_bound (index - 1) 3 ltac:(lia)) as Hm.
  generalize dependent ((index - 1) mod 3)%Z. intros m Hm.
  assert (Hcases : m = 0%Z \/ m = 1%Z \/ m = 2%Z) by lia.
  destruct Hcases as [-> | [-> | ->]]; reflexivity.
Qed.

Lemma padding_templates story summary padding : forall start,
  Wording.printed_summary L story = Some summary ->
  padding_for L story start padding ->
  padding = Wording.template_records summary (Z.of_nat start) (length padding).
Proof.
  unfold padding_for.
  induction padding as [|record padding IH]; intros start Hsum Hfor; [reflexivity|].
  cbn [length seq] in Hfor. apply Forall2_cons in Hfor as [Hrec Hfor].
  rewrite (generate_basic_scenario_template _ _ _ Hsum) in Hrec.
  injection Hrec as <-.
  cbn [length Wording.template_records]. f_equal.
  rewrite (IH (S start) Hsum Hfor) at 1. f_equal. lia.
Qed.

Lemma sorted_by_rank (l : list dict) :
  Forall rankable l ->
  StronglySorted score_le l ->
  StronglySorted (fun r1 r2 => (Wording.rank r1 <= Wording.rank r2)%nat) l.
Proof.
  intros Hr Hs. induction Hs as [|r l Hs IH Hall]; [constructor|].
  apply Forall_cons in Hr as [Hr Hl].
  constructor; [now apply IH|].
  rewrite Forall_forall in Hall, Hl. apply List.Forall_forall.
  intros r' Hin. apply list_elem_of_In in Hin.
  specialize (Hall r' Hin). unfold score_le in Hall.
  now rewrite <- (score_rank r Hr), <- (score_rank r' (Hl r' Hin)).
Qed.

Lemma filter_by_rank k (l : list dict) :
  Forall rankable l ->
  filter (fun r => score r = k) l = List.filter (fun r => Nat.eqb (Wording.rank r) k) l.
Proof.
  induction 1 as [|r l Hr _ IH]; [reflexivity|].
  rewrite filter_cons, IH. cbn [List.filter]. rewrite (score_rank r Hr).
  destruct (decide (Wording.rank r = k)) as [E|E].
  - now rewrite (proj2 (Nat.eqb_eq _ _) E).
  - now rewrite (proj2 (Nat.eqb_neq _ _) E).
Qed.

(** Ranking keeps the records of one score in the order of the input. *)
Lemma prioritize_scenarios_keeps_order (scenarios sorted : list dict) :
  Forall rankable scenarios ->
  _prioritize_scenarios scenarios = Ok sorted ->
  forall k, filter (fun r => score r = k) sorted
            = filter (fun r => score r = k) scenarios.
Proof.
  intros Hr. unfold _prioritize_scenarios. rewrite (score_each_rankable _ Hr).
  cbn [mbind result_bind]. intros Hrun k. injection Hrun as <-.
  assert (Hdec : Forall (fun p : nat * dict => p.1 = score p.2)
                   ((fun r => (score r, r)) <$> scenarios)).
  { apply Forall_fmap, Forall_forall. intros r _. reflexivity. }
  rewrite filter_scored.
  - rewrite sort_scored_filter, <- filter_scored by exact Hdec.
    rewrite <- list_fmap_compose. unfold compose. simpl. now rewrite list_fmap_id.
  - rewrite Forall_forall in Hdec |- *. intros p Hp. apply Hdec.
    apply list_elem_of_In. apply list_elem_of_In in Hp.
    exact (Permutation_in _ (sort_scored_perm _) Hp).
Qed.

(** C7. The bounder against the wording of the specification, under
    bounds with [min <= max] and [0 <= max] (3 and 10 by default), for a
    story whose summary can be printed when the list is shorter than
    [min], and for records whose priority and severity can be ranked
    when it is longer than [max]. It returns a list whose length lies in
    [min, max]. A list shorter than [min] is returned followed by the
    template records for the summary of the story and the indices after
    its length, one after the other, up to exactly [min] records; the
    template of an index is the functional, the error handling or the
    boundary one, in turn. Of a list longer than [max] it returns the
    first [max] records of the stable sort in ascending order of the sum
    of the priority and severity ordinals, where P1 to P4 and S1 to S4
    count 1 to 4 and anything else counts 3. Any other list is returned
    as it is. *)
Theorem ensure_scenario_limits_bounds (scenarios : list dict) (story : dict) :
  (min_scenarios cfg <= max_scenarios cfg)%Z ->
  (0 <= max_scenarios cfg)%Z ->
  ((Z.of_nat (length scenarios) < min_scenarios cfg)%Z ->
   exists summary, Wording.printed_summary L story = Some summary) ->
  ((max_scenarios cfg < Z.of_nat (length scenarios))%Z ->
   Forall Wording.can_be_ranked scenarios) ->
  exists out,
    _ensure_scenario_limits L cfg scenarios story = Ok out /\
    Wording.within_bounds L cfg scenarios story out.
Proof.
  intros Hmm Hmax Hstory Hrank. unfold _ensure_scenario_limits. cbv zeta.
  destruct (Z_lt_le_dec (Z.of_nat (length scenarios)) (min_scenarios cfg)) as [Hlt|Hge].
  - (* padded up to the minimum *)
    destruct (Hstory Hlt) as [summary Hsum].
    destruct (pad_to_min_pads L cfg story (printed_summary_fields _ _ Hsum)
                (Z.to_nat (min_scenarios cfg - Z.of_nat (length scenarios))) scenarios)
      as (padding & -> & Hlen & Hfor); [lia|].
    cbn [mbind result_bind]. rewrite length_app.
    replace (max_scenarios cfg <? Z.of_nat (length scenarios + length padding))%Z with false
      by (symmetry; apply Z.ltb_ge; lia).
    eexists. split; [reflexivity|]. unfold Wording.within_bounds. rewrite length_app.
    split; [lia|]. split; [|split; intros; lia].
    intros _. exists summary. split; [exact Hsum|]. split; [|lia].
    f_equal. rewrite (padding_templates _ _ _ _ Hsum Hfor) at 1.
    f_equal; lia.
  - (* nothing to pad *)
    rewrite (pad_to_min_enough L cfg _ _ _ Hge). cbn [mbind result_bind].
    destruct (max_scenarios cfg <? Z.of_nat (length scenarios))%Z eqn:E.
    + apply Z.ltb_lt in E.
      assert (Hr : Forall rankable scenarios).
      { eapply Forall_impl; [exact (Hrank E)|]. intros r. apply rankable_can_be_ranked. }
      destruct (prioritize_scenarios_sorts scenarios Hr) as (sorted & Hrun & Hperm & Hsort).
      pose proof (prioritize_scenarios_keeps_order _ _ Hr Hrun) as Hstable.
      assert (Hrs : Forall rankable sorted) by (now rewrite Hperm).
      rewrite Hrun. cbn [mbind result_bind]. eexists. split; [reflexivity|].
      unfold slice_to. replace (0 <=? max_scenarios cfg)%Z with true
        by (symmetry; apply Z.leb_le; lia).
      unfold Wording.within_bounds. rewrite length_take, (Permutation_length Hperm).
      split; [lia|]. split; [intros; lia|]. split; [|intros; lia].
      intros _. exists sorted. split; [exact Hperm|].
      split; [now apply sorted_by_rank|]. split; [|reflexivity].
      intros k. rewrite <- !filter_by_rank by assumption. apply Hstable.
    + apply Z.ltb_ge in E. eexists. split; [reflexivity|].
      unfold Wording.within_bounds. split; [lia|]. split; [intros; lia|].
      split; [intros; lia|reflexivity].
Qed.

End BounderWording.

Section BounderWitness.
Import AIServiceManager.

(** The bounder under the default bounds: one record is padded to three
    with the second and the third template, and of eleven records the
    ten of lowest rank are kept, in the order of their ranks. *)
Lemma ensure_scenario_limits_bounds_witness :
  (exists out,
      _ensure_scenario_limits sample_lib default_config
        [titled "Verify login works"] (sample_story "x") = Ok out /\
      out = short_bounded /\
      Wording.within_bounds sample_lib default_config
        [titled "Verify login works"] (sample_story "x") out) /\
  (exists out,
      _ensure_scenario_limits sample_lib default_config
        long_scenarios (sample_story "x") = Ok out /\
      out = long_bounded /\
      Wording.within_bounds sample_lib default_config
        long_scenarios (sample_story "x") out).
Proof.
  assert (H1 : (min_scenarios default_config <= max_scenarios default_config)%Z)
    by (simpl; lia).
  assert (H2 : (0 <= max_scenarios default_config)%Z) by (simpl; lia).
  assert (H3 : forall scenarios : list dict,
             (Z.of_nat (length scenarios) < min_scenarios default_config)%Z ->
             exists summary,
               Wording.printed_summary sample_lib (sample_story "x") = Some summary)
    by (intros _ _; exists "Login"; reflexivity).
  assert (H4 : Forall Wording.can_be_ranked long_scenarios)
    by (repeat constructor).
  split.
  - destruct (ensure_scenario_limits_bounds sample_lib default_config
                [titled "Verify login works"] (sample_story "x") H1 H2 (H3 _))
      as (out & Hrun & Hout).
    { simpl. lia. }
    exists out. split; [exact Hrun|]. split; [|exact Hout].
    assert (Hcomputed : _ensure_scenario_limits sample_lib default_config
                          [titled "Verify login works"] (sample_story "x")
                        = Ok short_bounded)
      by (vm_compute; reflexivity).
    rewrite Hcomputed in Hrun. injection Hrun as <-.
    destruct Hout as (_ & Hpad & _).
    destruct Hpad as (summary & Hsum & -> & _); [simpl; lia|].
    injection Hsum as <-. reflexivity.
  - destruct (ensure_scenario_limits_bounds sample_lib default_config
                long_scenarios (sample_story "x") H1 H2 (H3 _) (fun _ => H4))
      as (out & Hrun & Hout).
    exists out. split; [exact Hrun|]. split; [|exact Hout].
    assert (Hcomputed : _ensure_scenario_limits sample_lib default_config
                          long_scenarios (sample_story "x") = Ok long_bounded)
      by (vm_compute; reflexivity).
    congruence.
Defined.

End BounderWitness.
